(** * Chain abstraction layer: Solana swap discovery and Bitcoin funding utilities

    A shallow embedding of
    - [packages/solana-swap-find-provider/lib/SolanaSwapFindProvider.ts]
      (the off-chain observer that finds the initiate, claim and refund
      transactions of an atomic swap), and
    - the Bitcoin utility module ([calculateFee], [selectCoins],
      [normalizeTransactionObject]),
    followed by the properties of the design document that concern them.

    Conventions of the embedding.
    - A JavaScript call either completes normally or throws: [Js.Completion].
      A rejected promise is a thrown error of the awaiting caller.
    - Calls to collaborators reached through [getMethod] are recorded in a
      trace, so that statements about which requests are issued can be made.
    - A JavaScript number is an IEEE 754 double.  A finite one is represented
      by the rational it denotes ([Qc]), the two zeros being identified; the
      arithmetic of the code is the exact operation followed by rounding to
      the nearest double, ties to even ([Js.fl]).  Results can leave the
      finite numbers, so they live in [Js.number].
    - A finite [BigNumber] is an exact decimal: a rational.
      [new BigNumber(x)] reads the digits that the number [x] prints with,
      [toNumber] rounds to a double.
    - [undefined] in an optional field is [None]. *)

From Stdlib Require Import ZArith QArith Qcanon Qround Qabs Lia.
From stdpp Require Import base option list numbers strings pretty gmap.

Close Scope Q_scope.
Open Scope Z_scope.

(* ===================================================================== *)
(** ** JavaScript values, errors and effects *)
(* ===================================================================== *)

Module Js.

(** The errors that the modelled code can raise or let through. *)
Inductive Error : Type :=
| TypeError (msg : string)
| PendingTxError (msg : string)
| OtherError (msg : string).

Inductive Completion (A : Type) : Type :=
| Normal (a : A)
| Throw (e : Error).
Arguments Normal {A} a.
Arguments Throw {A} e.

Definition bind {A B} (c : Completion A) (k : A -> Completion B) : Completion B :=
  match c with
  | Normal a => k a
  | Throw e => Throw e
  end.

(** A request sent to a collaborator obtained with [getMethod]. *)
Inductive Call : Type :=
| GetAddressHistory (address : string)
| GetParsedAndConfirmedTransactions (refs : list string).

(** A computation that talks to collaborators: its completion and the
    requests it issued, oldest first.  The trace is kept when it throws. *)
Definition Eff (A : Type) : Type := (Completion A * list Call)%type.

Definition ret {A} (a : A) : Eff A := (Normal a, []).
Definition throw {A} (e : Error) : Eff A := (Throw e, []).
Definition lift {A} (c : Completion A) : Eff A := (c, []).
Definition request {A} (c : Call) (answer : Completion A) : Eff A := (answer, [c]).

Definition ebind {A B} (m : Eff A) (k : A -> Eff B) : Eff B :=
  match m with
  | (Normal a, t) => let '(r, t') := k a in (r, t ++ t')
  | (Throw e, t) => (Throw e, t)
  end.

Definition outcome {A} (m : Eff A) : Completion A := fst m.
Definition trace {A} (m : Eff A) : list Call := snd m.

(** [Promise.all]: every promise of the list has already been created (the
    requests are out); the result is the list of values, or a rejection.
    When several promises are rejected, [Promise.all] reports the one that
    was rejected first in time; the promises here are settled ones, and
    the rejection reported is the first one in list order. *)
Fixpoint promiseAll {A} (ps : list (Completion A)) : Completion (list A) :=
  match ps with
  | [] => Normal []
  | p :: ps' =>
      bind p (fun a => bind (promiseAll ps') (fun l => Normal (a :: l)))
  end.

(** *** Objects used as maps

    [object[key]] on an object literal finds the properties of the object
    and, for these names, the ones it inherits from [Object.prototype],
    which are functions or objects: truthy values. *)
Definition objectPrototypeNames : list string :=
  ["constructor"; "__defineGetter__"; "__defineSetter__"; "hasOwnProperty";
   "__lookupGetter__"; "__lookupSetter__"; "isPrototypeOf"; "propertyIsEnumerable";
   "toString"; "valueOf"; "__proto__"; "toLocaleString"].

Definition isInherited (key : string) : bool :=
  existsb (String.eqb key) objectPrototypeNames.

(** *** Numbers *)

Inductive number : Type :=
| Num (q : Qc)
| Infinity
| NegInfinity
| NaN.

(** [2^e] and [10^e] for an exponent of either sign. *)
Definition pow2 (e : Z) : Q :=
  if e <? 0 then 1 # Z.to_pos (2 ^ (- e)) else inject_Z (2 ^ e).

Definition pow10 (e : Z) : Q :=
  if e <? 0 then 1 # Z.to_pos (10 ^ (- e)) else inject_Z (10 ^ e).

(** The integer [d] with [2^d <= x < 2^(d+1)], for [0 < x]. *)
Definition ilog2 (x : Q) : Z :=
  let d := Z.log2 (Qnum x) - Z.log2 (Z.pos (Qden x)) in
  if Qle_bool (pow2 d) x then d else d - 1.

(** The nearest integer, a half going to the even neighbour. *)
Definition roundHalfEven (x : Q) : Z :=
  let f := Qfloor x in
  match (x - inject_Z f ?= 1 # 2)%Q with
  | Lt => f
  | Gt => f + 1
  | Eq => if Z.even f then f else f + 1
  end.

(** Rounding to binary64 with an unbounded exponent above: a significand of
    53 bits, and the fixed spacing [2^-1074] of the subnormal numbers
    below [2^-1022]. *)
Definition nearest (x : Q) : Q :=
  let a := Qabs x in
  if Qle_bool a 0 then 0%Q
  else
    let e := Z.max (ilog2 a - 52) (-1074) in
    let m := roundHalfEven (a * pow2 (- e))%Q in
    ((if Qle_bool 0 x then 1 else -1) * inject_Z m * pow2 e)%Q.

(** The double that an exact result [x] is rounded to; from [2^1024] on
    the rounded value is infinite. *)
Definition fl (x : Qc) : number :=
  let y := nearest x in
  if Qle_bool (pow2 1024) (Qabs y)
  then (if Qle_bool 0 x then Infinity else NegInfinity)
  else Num (Q2Qc y).

(** [x + y] and [x * y]. *)
Definition add (x y : number) : number :=
  match x, y with
  | NaN, _ | _, NaN => NaN
  | Num a, Num b => fl (a + b)%Qc
  | Infinity, NegInfinity | NegInfinity, Infinity => NaN
  | Infinity, _ | _, Infinity => Infinity
  | NegInfinity, _ | _, NegInfinity => NegInfinity
  end.

Definition timesInfinity (positive : bool) (b : Qc) : number :=
  if decide (b = 0%Qc) then NaN
  else if bool_decide (0 < b)%Qc then (if positive then Infinity else NegInfinity)
  else (if positive then NegInfinity else Infinity).

Definition mul (x y : number) : number :=
  match x, y with
  | NaN, _ | _, NaN => NaN
  | Num a, Num b => fl (a * b)%Qc
  | Infinity, Num b | Num b, Infinity => timesInfinity true b
  | NegInfinity, Num b | Num b, NegInfinity => timesInfinity false b
  | Infinity, Infinity | NegInfinity, NegInfinity => Infinity
  | Infinity, NegInfinity | NegInfinity, Infinity => NegInfinity
  end.

(** [x / y] on finite numbers; a divisor that is zero is the positive
    zero. *)
Definition divide (x y : Qc) : number :=
  if decide (y = 0%Qc) then
    if decide (x = 0%Qc) then NaN
    else if decide (0 < x)%Qc then Infinity else NegInfinity
  else fl (x / y)%Qc.

(** [Math.ceil] and [Math.round] (halves go up).  Both are exact: the
    result is a whole number next to a double, which is a double. *)
Definition Math_ceil (x : Qc) : Z := Qceiling x.

Definition Math_round (x : number) : number :=
  match x with
  | Num q => Num (Qc_of_Z (Qfloor (q + Q2Qc (1 # 2))%Qc))
  | other => other
  end.

(** *** Printing a number

    [String(x)] prints the decimal with the fewest digits that reads back
    as [x], the one nearest to [x] if there are several. *)

(** The integer [n] with [10^(n-1) <= a < 10^n], for [0 < a]. *)
Definition decimalExponent (a : Q) : Z :=
  let f0 := (ilog2 a * 30103) / 100000 - 1 in
  let bump f := if Qle_bool (pow10 (f + 1)) a then f + 1 else f in
  bump (bump (bump f0)) + 1.

(** The decimals of [k] digits next to [a], for [k] from 1 on; 17 digits
    always suffice for a double. *)
Fixpoint shortest (a : Q) (n : Z) (k : Z) (fuel : nat) : Q :=
  match fuel with
  | O => a
  | S fuel' =>
      let scale := pow10 (n - k) in
      let lo := Qfloor (a * pow10 (k - n))%Q in
      let below := (inject_Z lo * scale)%Q in
      let above := (inject_Z (lo + 1) * scale)%Q in
      let okBelow := Qeq_bool (nearest below) a in
      let okAbove := Qeq_bool (nearest above) a in
      if okBelow && okAbove then
        match (a - below ?= above - a)%Q with
        | Lt => below
        | Gt => above
        | Eq => if Z.even lo then below else above
        end
      else if okBelow then below
      else if okAbove then above
      else shortest a n (k + 1) fuel'
  end.

(** The value of the decimal that the finite number [x] prints as. *)
Definition printed (x : Qc) : Qc :=
  let a := Qabs x in
  if Qle_bool a 0 then 0%Qc
  else Q2Qc ((if Qle_bool 0 x then 1 else -1) * shortest a (decimalExponent a) 1 17)%Q.

(** *** BigNumber

    The decimals of the package [bignumber.js], with its own infinities
    and [NaN].  Sums and products are exact. *)
Inductive BigNumber : Type :=
| Big (q : Qc)
| BigInfinity
| BigNegInfinity
| BigNaN.

(** [new BigNumber(x)] for a number [x] reads the digits [x] prints as. *)
Definition BigNumber_ofNumber (x : number) : BigNumber :=
  match x with
  | Num q => Big (printed q)
  | Infinity => BigInfinity
  | NegInfinity => BigNegInfinity
  | NaN => BigNaN
  end.

Definition plus (x y : BigNumber) : BigNumber :=
  match x, y with
  | BigNaN, _ | _, BigNaN => BigNaN
  | Big a, Big b => Big (a + b)%Qc
  | BigInfinity, BigNegInfinity | BigNegInfinity, BigInfinity => BigNaN
  | BigInfinity, _ | _, BigInfinity => BigInfinity
  | BigNegInfinity, _ | _, BigNegInfinity => BigNegInfinity
  end.

Definition bigTimesInfinity (positive : bool) (b : Qc) : BigNumber :=
  if decide (b = 0%Qc) then BigNaN
  else if bool_decide (0 < b)%Qc then (if positive then BigInfinity else BigNegInfinity)
  else (if positive then BigNegInfinity else BigInfinity).

Definition times (x y : BigNumber) : BigNumber :=
  match x, y with
  | BigNaN, _ | _, BigNaN => BigNaN
  | Big a, Big b => Big (a * b)%Qc
  | BigInfinity, Big b | Big b, BigInfinity => bigTimesInfinity true b
  | BigNegInfinity, Big b | Big b, BigNegInfinity => bigTimesInfinity false b
  | BigInfinity, BigInfinity | BigNegInfinity, BigNegInfinity => BigInfinity
  | BigInfinity, BigNegInfinity | BigNegInfinity, BigInfinity => BigNegInfinity
  end.

(** [toNumber]: the double nearest to the decimal. *)
Definition toNumber (x : BigNumber) : number :=
  match x with
  | Big q => fl q
  | BigInfinity => Infinity
  | BigNegInfinity => NegInfinity
  | BigNaN => NaN
  end.

End Js.

Import Js.

Declare Scope js_scope.
Delimit Scope js_scope with js.
Notation "x <- c1 ;; c2" := (Js.bind c1 (fun x => c2))
  (at level 100, c1 at next level, right associativity) : js_scope.
Notation "x <~ c1 ;; c2" := (Js.ebind c1 (fun x => c2))
  (at level 100, c1 at next level, right associativity) : js_scope.
Open Scope js_scope.

(* ===================================================================== *)
(** ** SolanaSwapFindProvider *)
(* ===================================================================== *)

Module Solana.

(** The class [Address] of the type package, as the wallet provider builds
    it ([new Address({ address, derivationPath })]). *)
Record Address : Type := {
  address : string;
  derivationPath : option string
}.

(** [findInitiateSwapTransaction] passes [refundAddress] through
    [addressToString]: an address of the swap parameters is a string or an
    [Address] object. *)
Inductive AddressLike : Type :=
| AddrString (s : string)
| AddrObject (a : Address).

(** [expiration] is a JavaScript number holding a timestamp or a block
    height: a safe integer (at most [2^53 - 1] in absolute value), which
    prints with all its digits, so that [new BigNumber(expiration)] is the
    integer itself. *)
Record SafeInteger : Type := {
  safe_value : Z;
  safe_range : (Z.abs safe_value <=? 9007199254740991) = true
}.

(** [value] is a [BigNumber], an integer in the data model; [eq] is
    equality of the two integers. *)
Record SwapParams : Type := {
  recipientAddress : AddressLike;
  refundAddress : AddressLike;
  secretHash : string;
  sp_value : Z;
  sp_expiration : SafeInteger
}.

(** The chain-specific payload [_raw] of a fetched transaction.  The fields
    [buyer] .. [expiration] are those [_compareParams] declares for its
    second argument, [secret] the one [_validateSecret] reads. *)
Record Raw : Type := {
  instruction : Z;
  buyer : string;
  seller : string;
  secret_hash : string;
  value : Z;
  expiration : Z;
  raw_secret : option string
}.

(** A fetched transaction: [data] in the scan. *)
Record Transaction : Type := {
  hash : string;
  tx_value : Z;
  _raw : option Raw;
  secret : option string
}.

(** [initTransaction.secret = v].  In the scan [initTransaction] and [data]
    are one object, and [v] is read from that object before the write. *)
Definition setSecret (t : Transaction) (v : option string) : Transaction :=
  {| hash := hash t; tx_value := tx_value t; _raw := _raw t; secret := v |}.

(** An entry of the address history. *)
Record PastTx : Type := { signature : string }.

(** [private instructions = { init: 0, claim: 1, refund: 2 }] *)
Record Instructions : Type := { init : Z; claim : Z; refund : Z }.
Definition instructions : Instructions := {| init := 0; claim := 1; refund := 2 |}.

(** The collaborators looked up with [this.getMethod(name)].  Each is an
    asynchronous method: a call returns a promise, [Normal] when it is
    fulfilled and [Throw] when it is rejected. *)
Record Provider : Type := {
  getAddressHistory : string -> Completion (list PastTx);
  getParsedAndConfirmedTransactions : list string -> Completion (list Transaction)
}.

Definition Validation : Type := SwapParams -> Raw -> bool.

(** [a === s] where [s] is a string: an object is never strictly equal to
    a string. *)
Definition strictEqString (a : AddressLike) (s : string) : bool :=
  match a with
  | AddrString s' => String.eqb s' s
  | AddrObject _ => false
  end.

Definition _compareParams (swapParams : SwapParams) (initTxParams : Raw) : bool :=
  strictEqString (recipientAddress swapParams) (buyer initTxParams) &&
  strictEqString (refundAddress swapParams) (seller initTxParams) &&
  String.eqb (secretHash swapParams) (secret_hash initTxParams) &&
  Z.eqb (sp_value swapParams) (value initTxParams) &&
  Z.eqb (safe_value (sp_expiration swapParams)) (expiration initTxParams).

(** *** _batchSignatures *)

Definition MAX_NUMBER_OF_REQUESTS : nat := 100.

(** The two variables that the [forEach] callback updates. *)
Record BatchState : Type := {
  batches : list (list string);
  currentBatch : nat
}.

(** One call of the callback.  [batches[currentBatch].push(..)] on a missing
    entry would be a [TypeError]. *)
Definition batchStep (st : BatchState) (idx : nat) (pastTx : PastTx)
  : Completion BatchState :=
  let st1 :=
    if negb (idx =? 0)%nat && (idx mod MAX_NUMBER_OF_REQUESTS =? 0)%nat
    then {| batches := batches st ++ [[]]; currentBatch := S (currentBatch st) |}
    else st in
  match batches st1 !! currentBatch st1 with
  | Some b =>
      Normal {| batches := <[currentBatch st1 := b ++ [signature pastTx]]> (batches st1);
                currentBatch := currentBatch st1 |}
  | None => Throw (TypeError "Cannot read properties of undefined (reading 'push')")
  end.

Fixpoint forEachFrom (idx : nat) (addressHistory : list PastTx) (st : BatchState)
  : Completion BatchState :=
  match addressHistory with
  | [] => Normal st
  | pastTx :: rest =>
      st' <- batchStep st idx pastTx ;;
      forEachFrom (S idx) rest st'
  end.

Definition _batchSignatures (addressHistory : list PastTx)
  : Completion (list (list string)) :=
  st <- forEachFrom 0 addressHistory {| batches := [[]]; currentBatch := 0 |} ;;
  Normal (batches st).

(** *** _findTransactionByAddress *)

Section Scan.
Variable swapParams : SwapParams.
Variable instr : Z.
Variable validation : option Validation.

(** The inner loop over [matrix[i]]: [Some data] when it left with
    [break], [None] when it ran to the end of the row. *)
Fixpoint scanRow (row : list Transaction) : Completion (option Transaction) :=
  match row with
  | [] => Normal None
  | data :: rest =>
      match _raw data with
      | Some raw =>
          if Z.eqb (instruction raw) instr then
            if Z.eqb instr (refund instructions) then
              Normal (Some data)
            else
              match validation with
              | Some validate =>
                  if validate swapParams raw
                  then Normal (Some (setSecret data (secret data)))
                  else scanRow rest
              | None => Throw (TypeError "validation is not a function")
              end
          else scanRow rest
      | None => scanRow rest
      end
  end.

(** The outer loop; it stops as soon as [initTransaction] is set. *)
Fixpoint scanMatrix (matrix : list (list Transaction))
  : Completion (option Transaction) :=
  match matrix with
  | [] => Normal None
  | row :: rest =>
      initTransaction <- scanRow row ;;
      match initTransaction with
      | Some t => Normal (Some t)
      | None => scanMatrix rest
      end
  end.
End Scan.

(** [batch.map((sp) => getParsedAndConfirmedTransactions(sp))]: one request
    per batch, all issued before any is awaited. *)
Fixpoint fetchBatches (this : Provider) (batch : list (list string))
  : Eff (list (Completion (list Transaction))) :=
  match batch with
  | [] => ret []
  | sp :: rest =>
      let p := getParsedAndConfirmedTransactions this sp in
      _ <~ request (GetParsedAndConfirmedTransactions sp) (Normal p) ;;
      ps <~ fetchBatches this rest ;;
      ret (p :: ps)
  end.

Definition _findTransactionByAddress (this : Provider) (address : string)
    (swapParams : SwapParams) (instr : Z) (validation : option Validation)
  : Eff (option Transaction) :=
  addressHistory <~ request (GetAddressHistory address) (getAddressHistory this address) ;;
  batch <~ lift (_batchSignatures addressHistory) ;;
  parsedTransactions <~ fetchBatches this batch ;;
  matrix <~ lift (promiseAll parsedTransactions) ;;
  lift (scanMatrix swapParams instr validation matrix).

(** *** The three finders *)

Section Finders.
(** Imported helpers whose code is in other packages.  [sha256] is given
    [data.secret] as it is found.  On a missing secret the package
    raises an error, which this total function leaves out: where
    [_validateSecret] is evaluated on the payload of a claim below, the
    payload reveals a secret. *)
Variable sha256 : option string -> string.
Variable addressToString : AddressLike -> string.

Definition _validateSecret (swapParams : SwapParams) (data : Raw) : bool :=
  String.eqb (secretHash swapParams) (sha256 (raw_secret data)).

Definition findInitiateSwapTransaction (this : Provider) (swapParams : SwapParams)
  : Eff (option Transaction) :=
  _findTransactionByAddress this (addressToString (refundAddress swapParams))
    swapParams (init instructions) (Some _compareParams).

Definition receiptNotAvailable (initiationTxHash : string) : Error :=
  PendingTxError ("Transaction receipt is not available: " +:+ initiationTxHash).

Definition findClaimSwapTransaction (this : Provider) (swapParams : SwapParams)
    (initiationTxHash : string) : Eff (option Transaction) :=
  txs <~ request (GetParsedAndConfirmedTransactions [initiationTxHash])
                 (getParsedAndConfirmedTransactions this [initiationTxHash]) ;;
  match txs with
  | [] => throw (receiptNotAvailable initiationTxHash)
  | initTransaction :: _ =>
      match _raw initTransaction with
      | None => throw (TypeError "Cannot destructure property 'buyer' of undefined")
      | Some raw =>
          _findTransactionByAddress this (buyer raw) swapParams
            (claim instructions) (Some _validateSecret)
      end
  end.

Definition findRefundSwapTransaction (this : Provider) (swapParams : SwapParams)
    (initiationTxHash : string) : Eff (option Transaction) :=
  txs <~ request (GetParsedAndConfirmedTransactions [initiationTxHash])
                 (getParsedAndConfirmedTransactions this [initiationTxHash]) ;;
  match txs with
  | [] => throw (receiptNotAvailable initiationTxHash)
  | initTransaction :: _ =>
      match _raw initTransaction with
      | None => throw (TypeError "Cannot destructure property 'seller' of undefined")
      | Some raw =>
          _findTransactionByAddress this (seller raw) swapParams
            (refund instructions) None
      end
  end.
End Finders.

End Solana.

(* ===================================================================== *)
(** ** Bitcoin utilities *)
(* ===================================================================== *)

Module Bitcoin.

(** *** calculateFee *)

Definition calculateFee (numInputs numOutputs feePerByte : number) : number :=
  mul (add (add (mul numInputs (Num (Qc_of_Z 148))) (mul numOutputs (Num (Qc_of_Z 34))))
           (Num (Qc_of_Z 10)))
      feePerByte.

(** *** selectCoins *)

Record UTXO : Type := {
  txid : string;
  vout : Z;
  utxo_value : Z;
  utxo_address : option string
}.

Record OutputTarget : Type := {
  target_address : string;
  target_value : Z
}.

(** An output of a selection; the change output has no address. *)
Record SelectedOutput : Type := {
  out_address : option string;
  out_value : Z
}.

(** What a [coinselect] strategy answers, and what [selectCoins] returns:
    [inputs] and [outputs] are missing when the strategy found no
    solution. *)
Record Selection : Type := {
  inputs : option (list UTXO);
  outputs : option (list SelectedOutput);
  fee : option Qc
}.

(** The strategies [coinselect] and [coinselect/accumulative] are a
    third-party package: they are parameters of [selectCoins]. *)
Definition Strategy : Type :=
  list UTXO -> list OutputTarget -> Qc -> Completion Selection.

(** [fixedInputs.find(input => input.vout === utxo.vout && input.txid === utxo.txid)] *)
Definition findFixed (fixedInputs : list UTXO) (utxo : UTXO) : option UTXO :=
  List.find (fun input => Z.eqb (vout input) (vout utxo) && String.eqb (txid input) (txid utxo))
            fixedInputs.

(** [!x] for [x] an object or [undefined]. *)
Definition isUndefined {A} (x : option A) : bool :=
  match x with Some _ => false | None => true end.

(** [fixedInputs.length] as a condition. *)
Definition hasFixedInputs (fixedInputs : list UTXO) : bool :=
  negb (length fixedInputs =? 0)%nat.

(** [const coinselectStrat = fixedInputs.length ? coinselectAccumulative : coinselect] *)
Definition coinselectStrat (coinselect coinselectAccumulative : Strategy)
    (fixedInputs : list UTXO) : Strategy :=
  if hasFixedInputs fixedInputs then coinselectAccumulative else coinselect.

(** The value of the local [selectUtxos] when the strategy is called. *)
Definition selectUtxos (utxos fixedInputs : list UTXO) : list UTXO :=
  if hasFixedInputs fixedInputs
  then fixedInputs ++ List.filter (fun utxo => isUndefined (findFixed fixedInputs utxo)) utxos
  else utxos.

(** The destructuring assignment overwrites the three locals, the initial
    [fee = 0] included, with the fields of the answer. *)
Definition selectCoins (coinselect coinselectAccumulative : Strategy)
    (utxos : list UTXO) (targets : list OutputTarget) (feePerByte : Qc)
    (fixedInputs : list UTXO) : Completion Selection :=
  r <- coinselectStrat coinselect coinselectAccumulative fixedInputs
         (selectUtxos utxos fixedInputs) targets (Qc_of_Z (Math_ceil feePerByte)) ;;
  Normal {| inputs := inputs r; outputs := outputs r; fee := fee r |}.

(** *** normalizeTransactionObject *)

Record ScriptSig : Type := { sig_asm : string; sig_hex : string }.

Record Input : Type := {
  in_txid : string;
  in_vout : Z;
  scriptSig : ScriptSig;
  txinwitness : list string;
  sequence : Z
}.

Record ScriptPubKey : Type := {
  spk_asm : string;
  spk_hex : string;
  reqSigs : Z;
  type : string;
  addresses : list string
}.

Record Output : Type := {
  value : number;
  n : Z;
  scriptPubKey : ScriptPubKey
}.

(** The record [decodeRawTransaction] returns, with the optional
    [confirmations] that [normalizeTransactionObject] reads. *)
Record Transaction : Type := {
  tx_txid : string;
  tx_hash : string;
  version : Z;
  locktime : Z;
  size : Z;
  vsize : Qc;
  weight : Z;
  vin : list Input;
  tx_vout : list Output;
  hex : string;
  confirmations : option Z
}.

Record Block : Type := {
  block_hash : string;
  block_number : Z
}.

(** The values stored in the result object. *)
Inductive Value : Type :=
| VUndefined
| VNumber (x : number)
| VString (s : string)
| VTransaction (tx : Transaction).

Definition ofOptionalInt (x : option Z) : Value :=
  match x with
  | Some z => VNumber (Num (Qc_of_Z z))
  | None => VUndefined
  end.

(** [if (fee)]: [undefined] and [0] are falsy. *)
Definition truthyFee (fee : option Qc) : option Qc :=
  match fee with
  | Some f => if decide (f = 0%Qc) then None else Some f
  | None => None
  end.

(** [tx.vout.reduce((p, n) => p.plus(new BigNumber(n.value).times(1e8)), new BigNumber(0))] *)
Definition totalValue (tx : Transaction) : BigNumber :=
  fold_left (fun p n =>
               plus p (times (BigNumber_ofNumber (value n))
                             (BigNumber_ofNumber (Num (Qc_of_Z 100000000)))))
            (tx_vout tx) (BigNumber_ofNumber (Num (Qc_of_Z 0))).

Definition normalizeTransactionObject (tx : Transaction) (fee : option Qc)
    (block : option Block) : gmap string Value :=
  let result : gmap string Value :=
    <["confirmations" := VNumber (Num 0%Qc)]>
      (<["_raw" := VTransaction tx]>
        (<["value" := VNumber (toNumber (totalValue tx))]>
          (<["hash" := VString (tx_txid tx)]> ∅))) in
  let result :=
    match truthyFee fee with
    | Some f =>
        let feePrice := Math_round (divide f (vsize tx)) in
        <["feePrice" := VNumber feePrice]> (<["fee" := VNumber (Num f)]> result)
    | None => result
    end in
  let result :=
    match block with
    | Some b =>
        <["confirmations" := ofOptionalInt (confirmations tx)]>
          (<["blockNumber" := VNumber (Num (Qc_of_Z (block_number b)))]>
            (<["blockHash" := VString (block_hash b)]> result))
    | None => result
    end in
  result.

End Bitcoin.

(* ===================================================================== *)
(** ** Specification-side notions for the swap matcher *)
(* ===================================================================== *)

Module SolanaSpec.
Import Solana.

(** What holds of the two loop variables once the signatures [seen] have
    been handled: every closed batch is full, the open one is not empty
    unless nothing was seen, and nothing was lost or reordered. *)
Inductive BatchInv (seen : list string) (st : BatchState) : Prop :=
| BatchInv_intro (full : list (list string)) (cur : list string)
    (inv_shape : batches st = full ++ [cur])
    (inv_index : currentBatch st = length full)
    (inv_closed : Forall (fun b => length b = 100%nat) full)
    (inv_open_le : (length cur <= 100)%nat)
    (inv_open_ge : seen ≠ [] -> (1 <= length cur)%nat)
    (inv_count : length seen = (100 * length full + length cur)%nat)
    (inv_concat : concat (batches st) = seen).

(** Acceptance of a fetched transaction for a phase, in the words of the
    design: the embedded tag equals the requested one, and either the phase
    is the refund phase or the validation predicate holds of the swap
    parameters and the payload. *)
Definition accepted (swapParams : SwapParams) (phaseTag : Z)
    (validationPredicate : Validation) (t : Transaction) : bool :=
  match _raw t with
  | Some payload =>
      Z.eqb (instruction payload) phaseTag &&
      (if Z.eqb phaseTag (refund instructions) then true
       else validationPredicate swapParams payload)
  | None => false
  end.

(** A fetch that answers reference by reference, in the order asked, and
    leaves out the references it knows nothing about. *)
Definition answersInOrder (this : Provider) (lookupTx : string -> option Transaction) : Prop :=
  forall refs, getParsedAndConfirmedTransactions this refs = Normal (omap lookupTx refs).

End SolanaSpec.

(* ===================================================================== *)
(** ** Specification-side notions for the coin selector *)
(* ===================================================================== *)

Module BitcoinSpec.
Import Bitcoin.

(** A UTXO is pinned when some fixed input has the same txid and the same
    vout. *)
Definition pinned (fixedInputs : list UTXO) (utxo : UTXO) : Prop :=
  Exists (fun input => txid input = txid utxo /\ vout input = vout utxo) fixedInputs.

#[export] Instance pinned_dec fixedInputs utxo : Decision (pinned fixedInputs utxo) :=
  Exists_dec (fun input => txid input = txid utxo /\ vout input = vout utxo) fixedInputs.

(** The fixed inputs first, in their order, then the UTXOs that are not
    pinned, in theirs. *)
Definition candidates (utxos fixedInputs : list UTXO) : list UTXO :=
  fixedInputs ++ filter (fun utxo => ~ pinned fixedInputs utxo) utxos.

(** The selection as the design describes it. *)
Definition selectCoinsSpec (sizeOptimizing accumulative : Strategy)
    (utxos : list UTXO) (targets : list OutputTarget) (feePerByte : Qc)
    (fixedInputs : list UTXO) : Completion Selection :=
  match fixedInputs with
  | [] => sizeOptimizing utxos targets (Qc_of_Z (Qceiling feePerByte))
  | _ :: _ => accumulative (candidates utxos fixedInputs) targets
                           (Qc_of_Z (Qceiling feePerByte))
  end.

End BitcoinSpec.

(* ===================================================================== *)
(** ** Sample data *)
(* ===================================================================== *)

Module Samples.
Import Solana.

(** A history of 250 entries with pairwise different signatures. *)
Definition history250 : list PastTx :=
  map (fun i => {| signature := pretty i |}) (seq 0 250).

Definition sampleParams : SwapParams :=
  {| recipientAddress := AddrString "buyer1";
     refundAddress := AddrString "seller1";
     secretHash := "H(s3cr3t)";
     sp_value := 1000;
     sp_expiration := {| safe_value := 1700000000; safe_range := eq_refl |} |}.

(** The same parameters with the refund address as an [Address] object. *)
Definition objectParams : SwapParams :=
  {| recipientAddress := AddrString "buyer1";
     refundAddress := AddrObject {| address := "seller1"; derivationPath := None |};
     secretHash := "H(s3cr3t)";
     sp_value := 1000;
     sp_expiration := {| safe_value := 1700000000; safe_range := eq_refl |} |}.

(** An initiation that matches [sampleParams], one that pays too little,
    and a claim that reveals the secret. *)
Definition initPayload : Raw :=
  {| instruction := 0; buyer := "buyer1"; seller := "seller1";
     secret_hash := "H(s3cr3t)"; value := 1000; expiration := 1700000000;
     raw_secret := None |}.

Definition cheapInitPayload : Raw :=
  {| instruction := 0; buyer := "buyer1"; seller := "seller1";
     secret_hash := "H(s3cr3t)"; value := 999; expiration := 1700000000;
     raw_secret := None |}.

Definition claimPayload : Raw :=
  {| instruction := 1; buyer := ""; seller := "";
     secret_hash := ""; value := 0; expiration := 0;
     raw_secret := Some "s3cr3t" |}.

Definition fetched (h : string) (payload : option Raw) : Transaction :=
  {| hash := h; tx_value := 0; _raw := payload; secret := None |}.

Definition ledger (ref : string) : option Transaction :=
  if String.eqb ref "sig1" then Some (fetched "sig1" None)
  else if String.eqb ref "sig2" then Some (fetched "sig2" (Some cheapInitPayload))
  else if String.eqb ref "sig3" then Some (fetched "sig3" (Some initPayload))
  else if String.eqb ref "sig4" then Some (fetched "sig4" (Some claimPayload))
  else if String.eqb ref "sig5" then Some (fetched "sig5" None)
  else None.

(** The seller's history holds five transactions, the third of which is the
    initiation; the buyer's history holds the claim. *)
Definition sampleProvider : Provider :=
  {| getAddressHistory := fun a =>
       if String.eqb a "seller1" then
         Normal (map Build_PastTx ["sig1"; "sig2"; "sig3"; "sig4"; "sig5"])
       else if String.eqb a "buyer1" then
         Normal (map Build_PastTx ["sig4"])
       else Normal [];
     getParsedAndConfirmedTransactions := fun refs => Normal (omap ledger refs) |}.

Definition sampleSha256 (x : option string) : string :=
  match x with
  | Some s => "H(" +:+ s +:+ ")"
  | None => "H()"
  end.

Definition sampleAddressToString (a : AddressLike) : string :=
  match a with
  | AddrString s => s
  | AddrObject o => address o
  end.

End Samples.

Module BitcoinSamples.
Import Bitcoin.

(** A stand-in for a selection strategy, to run [selectCoins] on data: it
    takes candidates in list order until they cover the targets and a fee
    of 148 per input, 34 per output and 10, times the rate, and answers
    with the fee alone when they never do.  The strategies of the package
    are not modelled by it. *)
Definition feeFor (feeRate : Qc) (targets : list OutputTarget) (picked : list UTXO) : Qc :=
  (((Qc_of_Z (Z.of_nat (length picked)) * Qc_of_Z 148)
    + (Qc_of_Z (Z.of_nat (length targets)) * Qc_of_Z 34) + Qc_of_Z 10) * feeRate)%Qc.

Definition total (amounts : list Z) : Qc := Qc_of_Z (foldr Z.add 0 amounts).

Definition covers (feeRate : Qc) (targets : list OutputTarget) (picked : list UTXO) : bool :=
  bool_decide (total (map target_value targets) + feeFor feeRate targets picked
               <= total (map utxo_value picked))%Qc.

Fixpoint takeInOrder (feeRate : Qc) (targets : list OutputTarget)
    (candidates picked : list UTXO) : Selection :=
  match candidates with
  | [] =>
      {| inputs := None; outputs := None; fee := Some (feeFor feeRate targets picked) |}
  | utxo :: rest =>
      if covers feeRate targets (picked ++ [utxo])
      then {| inputs := Some (picked ++ [utxo]);
              outputs := Some (map (fun t => {| out_address := Some (target_address t);
                                                out_value := target_value t |}) targets);
              fee := Some (feeFor feeRate targets (picked ++ [utxo])) |}
      else takeInOrder feeRate targets rest (picked ++ [utxo])
  end.

Definition sampleStrategy : Strategy :=
  fun utxos targets feeRate => Normal (takeInOrder feeRate targets utxos []).

Definition utxoA : UTXO :=
  {| txid := "aa"; vout := 0; utxo_value := 5000; utxo_address := None |}.
Definition utxoB : UTXO :=
  {| txid := "bb"; vout := 1; utxo_value := 3000; utxo_address := None |}.
Definition utxoC : UTXO :=
  {| txid := "cc"; vout := 0; utxo_value := 1000; utxo_address := None |}.

Definition pay (amount : Z) : OutputTarget :=
  {| target_address := "dest"; target_value := amount |}.

(** A decoded transaction with one output of 0.5 coin. *)
Definition sampleTx : Transaction :=
  {| tx_txid := "f00d"; tx_hash := "f00d"; version := 2; locktime := 0;
     size := 191; vsize := Qc_of_Z 110; weight := 437;
     vin := [];
     tx_vout := [ {| value := Num (Q2Qc (1 # 2)); n := 0;
                     scriptPubKey := {| spk_asm := ""; spk_hex := ""; reqSigs := 1;
                                        type := "witness_v0_keyhash"; addresses := [] |} |} ];
     hex := "";
     confirmations := Some 6 |}.

Definition sampleBlock : Block := {| block_hash := "b10c"; block_number := 700000 |}.

End BitcoinSamples.

(* ===================================================================== *)
(** ** Further notions for the swap matcher *)
(* ===================================================================== *)

Module MatcherSpec.
Import Solana.

(** The payload of [t] carries the tag [instr]. *)
Definition hasTag (instr : Z) (t : Transaction) : bool :=
  match _raw t with
  | Some payload => Z.eqb (instruction payload) instr
  | None => false
  end.

(** What it takes for the scan to stop at [t]: the tag is the requested
    one, and the phase is the refund phase or the predicate is there and
    holds. *)
Definition stopsAt (swapParams : SwapParams) (instr : Z)
    (validation : option Validation) (t : Transaction) : Prop :=
  exists payload,
    _raw t = Some payload
    /\ instruction payload = instr
    /\ (instr = refund instructions
        \/ exists validate, validation = Some validate
                            /\ validate swapParams payload = true).

(** What it takes for the scan to pass over [t]: another tag or no payload,
    or a predicate that rejects it. *)
Definition passesOver (swapParams : SwapParams) (instr : Z)
    (validation : option Validation) (t : Transaction) : Prop :=
  hasTag instr t = false
  \/ (instr <> refund instructions
      /\ exists payload validate,
           _raw t = Some payload /\ validation = Some validate
           /\ validate swapParams payload = false).

(** The number of requests needed for [n] references, 100 at a time; an
    empty list still costs one. *)
Definition batchCount (n : nat) : nat :=
  match n with
  | O => 1
  | S _ => (n + 99) / 100
  end.

(** What each finder looks for in a fetched transaction.  An initiation
    of the swap between [recipient] and [refundTo]: the payload names them
    as buyer and seller and has the secret hash, the value and the
    expiration of the swap. *)
Definition isInitiation (recipient refundTo : string) (swapParams : SwapParams)
    (t : Transaction) : bool :=
  match _raw t with
  | Some payload =>
      Z.eqb (instruction payload) (init instructions)
      && String.eqb (buyer payload) recipient
      && String.eqb (seller payload) refundTo
      && String.eqb (secret_hash payload) (secretHash swapParams)
      && Z.eqb (value payload) (sp_value swapParams)
      && Z.eqb (expiration payload) (safe_value (sp_expiration swapParams))
  | None => false
  end.

(** A payload with the claim tag reveals a secret. *)
Definition claimRevealsSecret (t : Transaction) : bool :=
  match _raw t with
  | Some payload =>
      if Z.eqb (instruction payload) (claim instructions)
      then match raw_secret payload with Some _ => true | None => false end
      else true
  | None => true
  end.

Definition isClaim (sha256 : option string -> string) (swapParams : SwapParams)
    (t : Transaction) : bool :=
  match _raw t with
  | Some payload =>
      Z.eqb (instruction payload) (claim instructions)
      && String.eqb (secretHash swapParams) (sha256 (raw_secret payload))
  | None => false
  end.

Definition isRefund (t : Transaction) : bool :=
  hasTag (refund instructions) t.

End MatcherSpec.

(* ===================================================================== *)
(** ** Further notions for the Bitcoin utilities *)
(* ===================================================================== *)

Module FundingSpec.
Import Bitcoin.

(** The output a UTXO stands for. *)
Definition outpoint (utxo : UTXO) : string * Z := (txid utxo, vout utxo).

(** The fields every normalized transaction has, and those the fee and
    the block add. *)
Definition baseFields : gset string :=
  {[ "hash"; "value"; "_raw"; "confirmations" ]}.
Definition feeFields : gset string := {[ "fee"; "feePrice" ]}.
Definition blockFields : gset string := {[ "blockHash"; "blockNumber" ]}.

End FundingSpec.

(* ===================================================================== *)
(** ** compressPubKey *)
(* ===================================================================== *)

Module Keys.
Import Stdlib.Strings.Ascii.

(** Strings are sequences of code units below 256.  [StrWhiteSpaceChar]
    among them: tab, line feed, vertical tab, form feed, carriage return,
    space and no-break space. *)
Definition isWhiteSpace (c : ascii) : bool :=
  let n := nat_of_ascii c in
  (n =? 9)%nat || (n =? 10)%nat || (n =? 11)%nat || (n =? 12)%nat
  || (n =? 13)%nat || (n =? 32)%nat || (n =? 160)%nat.

(** The value of a digit in radix 16. *)
Definition hexDigit (c : ascii) : option Z :=
  let n := Z.of_nat (nat_of_ascii c) in
  if (48 <=? n) && (n <=? 57) then Some (n - 48)
  else if (97 <=? n) && (n <=? 102) then Some (n - 87)
  else if (65 <=? n) && (n <=? 70) then Some (n - 55)
  else None.

Fixpoint trimStart (s : string) : string :=
  match s with
  | String c rest => if isWhiteSpace c then trimStart rest else s
  | EmptyString => s
  end.

(** The number written by the longest prefix of digits; [None] when there
    is no digit. *)
Fixpoint digits16 (s : string) (acc : option Z) : option Z :=
  match s with
  | String c rest =>
      match hexDigit c with
      | Some d => digits16 rest (Some (16 * default 0 acc + d))
      | None => acc
      end
  | EmptyString => acc
  end.

(** [parseInt(s, 16)]; [None] is [NaN].  White space is skipped, then a
    sign, then [0x] or [0X]; what follows the digits is ignored.  The
    value is exact, as it is in JavaScript below 2^53. *)
Definition parseInt16 (s : string) : option Z :=
  let s1 := trimStart s in
  let '(sign, s2) :=
    match s1 with
    | String c rest =>
        if Ascii.eqb c "-" then (-1, rest)
        else if Ascii.eqb c "+" then (1, rest)
        else (1, s1)
    | EmptyString => (1, s1)
    end in
  let s3 :=
    match s2 with
    | String c (String d rest) =>
        if Ascii.eqb c "0" && (Ascii.eqb d "x" || Ascii.eqb d "X") then rest else s2
    | _ => s2
    end in
  Z.mul sign <$> digits16 s3 None.

(** [n % 2 === 0]: [NaN] is not even. *)
Definition isEven (n : option Z) : bool :=
  match n with
  | Some z => Z.eqb (Z.rem z 2) 0
  | None => false
  end.

Definition compressPubKey (pubKey : string) : string :=
  let x := String.substring 2 64 pubKey in
  let y := String.substring 66 64 pubKey in
  let even := isEven (parseInt16 (String.substring 62 2 y)) in
  let prefix := if even then "02" else "03" in
  prefix +:+ x.

End Keys.

(* ===================================================================== *)
(** ** witnessStackToScriptWitness *)
(* ===================================================================== *)

Module Witness.
Import Corelib.Init.Byte.

(** The variable-length integer codec [varuint] is a third-party package:
    [encodingLength i] is the number of bytes it announces for [i], and
    [encodeBytes i] the bytes that [encode(i, buffer, offset)] writes into
    [buffer] from [offset] on. *)
Record Varuint : Type := {
  encodingLength : nat -> nat;
  encodeBytes : nat -> list byte
}.

Section Serializer.
Variable varuint : Varuint.

(** What [Buffer.allocUnsafe] finds in memory: the byte at index [i] of a
    block allocated when the buffer had length [len]. *)
Variable memory : nat -> nat -> byte.

Definition allocUnsafe (len n : nat) : list byte :=
  map (memory len) (seq 0 n).

(** [varuint.encode(i, buffer, offset)]: the bytes go through the
    checked writes of [Buffer], which fail outside the buffer. *)
Definition encode (i : nat) (buffer : list byte) (offset : nat)
  : Completion (list byte) :=
  let bytes := encodeBytes varuint i in
  if (offset + length bytes <=? length buffer)%nat
  then Normal (take offset buffer ++ bytes ++ drop (offset + length bytes) buffer)
  else Throw (OtherError "RangeError: offset is out of range").

Definition writeSlice (buffer slice : list byte) : list byte :=
  buffer ++ slice.

Definition writeVarInt (buffer : list byte) (i : nat) : Completion (list byte) :=
  let currentLen := length buffer in
  let varintLen := encodingLength varuint i in
  encode i (buffer ++ allocUnsafe currentLen varintLen) currentLen.

Definition writeVarSlice (buffer slice : list byte) : Completion (list byte) :=
  buffer' <- writeVarInt buffer (length slice) ;;
  Normal (writeSlice buffer' slice).

(** [vector.forEach(writeVarSlice)] *)
Fixpoint forEachSlice (vector : list (list byte)) (buffer : list byte)
  : Completion (list byte) :=
  match vector with
  | [] => Normal buffer
  | slice :: rest =>
      buffer' <- writeVarSlice buffer slice ;;
      forEachSlice rest buffer'
  end.

Definition writeVector (buffer : list byte) (vector : list (list byte))
  : Completion (list byte) :=
  buffer' <- writeVarInt buffer (length vector) ;;
  forEachSlice vector buffer'.

Definition witnessStackToScriptWitness (witness : list (list byte))
  : Completion (list byte) :=
  writeVector [] witness.
End Serializer.

(** *** Reading a serialized stack back *)

Section Reader.
(** A reader for the integers of the codec: the number and the bytes
    left. *)
Variable decodeVar : list byte -> option (nat * list byte).

Fixpoint readItems (count : nat) (bytes : list byte)
  : option (list (list byte) * list byte) :=
  match count with
  | O => Some ([], bytes)
  | S count' =>
      match decodeVar bytes with
      | Some (len, rest) =>
          if (len <=? length rest)%nat then
            match readItems count' (drop len rest) with
            | Some (items, remaining) => Some (take len rest :: items, remaining)
            | None => None
            end
          else None
      | None => None
      end
  end.

Definition readWitness (bytes : list byte) : option (list (list byte)) :=
  match decodeVar bytes with
  | Some (count, rest) =>
      match readItems count rest with
      | Some (items, []) => Some items
      | _ => None
      end
  | None => None
  end.
End Reader.

(** The layout the serializer is meant to produce. *)
Definition layout (varuint : Varuint) (witness : list (list byte)) : list byte :=
  encodeBytes varuint (length witness)
  ++ concat (map (fun slice => encodeBytes varuint (length slice) ++ slice) witness).

(** *** A sample codec: one byte below 253, then 0xfd, 0xfe, 0xff and 2,
    4, 8 bytes, least significant first *)

Definition byteOf (n : N) : byte :=
  default x00 (Byte.of_N (n mod 256)%N).

Fixpoint littleEndian (width : nat) (n : N) : list byte :=
  match width with
  | O => []
  | S width' => byteOf n :: littleEndian width' (n / 256)%N
  end.

Definition compactSizeBytes (n : N) : list byte :=
  if (n <? 253)%N then [byteOf n]
  else if (n <? 65536)%N then byteOf 253 :: littleEndian 2 n
  else if (n <? 4294967296)%N then byteOf 254 :: littleEndian 4 n
  else byteOf 255 :: littleEndian 8 n.

Definition compactSize : Varuint :=
  {| encodingLength := fun n => length (compactSizeBytes (N.of_nat n));
     encodeBytes := fun n => compactSizeBytes (N.of_nat n) |}.

Fixpoint fromLittleEndian (bytes : list byte) : N :=
  match bytes with
  | [] => 0%N
  | b :: rest => (Byte.to_N b + 256 * fromLittleEndian rest)%N
  end.

Definition readCompactSize (bytes : list byte) : option (nat * list byte) :=
  match bytes with
  | [] => None
  | b :: rest =>
      let tag := Byte.to_N b in
      let wide width :=
        if (width <=? length rest)%nat
        then Some (N.to_nat (fromLittleEndian (take width rest)), drop width rest)
        else None in
      if (tag <? 253)%N then Some (N.to_nat tag, rest)
      else if (tag =? 253)%N then wide 2%nat
      else if (tag =? 254)%N then wide 4%nat
      else wide 8%nat
  end.

End Witness.

(* ===================================================================== *)
(** ** decodeRawTransaction and getAddressNetwork *)
(* ===================================================================== *)

Module Decoder.
Import Corelib.Init.Byte Bitcoin.

(** An entry of [BitcoinNetworks], with the fields the utilities read. *)
Record Network : Type := {
  bech32 : string;
  pubKeyHash : Z;
  scriptHash : Z
}.

(** The transaction object of the parsing library. *)
Record BjsInput : Type := {
  bjs_hash : list byte;
  bjs_index : Z;
  bjs_script : list byte;
  bjs_witness : list (list byte);
  bjs_sequence : Z
}.

(** [value] is a number of the smallest unit, which the library reads as
    a safe integer. *)
Record BjsOutput : Type := {
  bjs_out_script : list byte;
  bjs_out_value : Z
}.

Record BjsTransaction : Type := {
  bjs_version : Z;
  bjs_locktime : Z;
  bjs_ins : list BjsInput;
  bjs_outs : list BjsOutput
}.

(** What the utilities use of the parsing library and of [Buffer]; the
    library is a third-party package.  [fromHex] fails on bytes that are
    no transaction, [fromOutputScript] on a script that has no address;
    [toASM] and [classifyOutput] decompile the script they are given and
    can fail on it. *)
Record BitcoinJs : Type := {
  fromHex : string -> Completion BjsTransaction;
  toASM : list byte -> Completion string;
  toHexString : list byte -> string;
  classifyOutput : list byte -> Completion string;
  P2WPKH : string;
  P2WSH : string;
  fromOutputScript : list byte -> Network -> Completion string;
  getHash : BjsTransaction -> bool -> list byte;
  byteLength : BjsTransaction -> Z;
  virtualSize : BjsTransaction -> Qc;
  weightOf : BjsTransaction -> Z
}.

Section Decode.
Variable lib : BitcoinJs.

(** The object literal with the two computed keys; the second key wins
    when the two are the same.  Type names are looked up as own keys:
    the names the library classifies with are none of
    [objectPrototypeNames]. *)
Definition OUTPUT_TYPES_MAP : gmap string string :=
  <[P2WSH lib := "witness_v0_scripthash"]>
    (<[P2WPKH lib := "witness_v0_keyhash"]> ∅).

(** [array.map(callback)] with a callback that can throw: the elements
    are visited in order, with their index, up to the first failure. *)
Fixpoint mapFrom {A B} (callback : nat -> A -> Completion B) (index : nat)
    (array : list A) : Completion (list B) :=
  match array with
  | [] => Normal []
  | x :: rest =>
      y <- callback index x ;;
      ys <- mapFrom callback (S index) rest ;;
      Normal (y :: ys)
  end.

Definition decodeInput (input : BjsInput) : Completion Input :=
  asm <- toASM lib (bjs_script input) ;;
  Normal {| in_txid := toHexString lib (rev (bjs_hash input));
            in_vout := bjs_index input;
            scriptSig := {| sig_asm := asm;
                            sig_hex := toHexString lib (bjs_script input) |};
            txinwitness := map (toHexString lib) (bjs_witness input);
            sequence := bjs_sequence input |}.

(** The [try] is around the address alone: a failure there leaves the
    list empty, one of [classify.output] or [toASM] leaves the callback. *)
Definition decodeOutput (network : Network) (n : nat) (output : BjsOutput)
  : Completion Output :=
  type <- classifyOutput lib (bjs_out_script output) ;;
  asm <- toASM lib (bjs_out_script output) ;;
  Normal {| value := divide (Qc_of_Z (bjs_out_value output)) (Qc_of_Z 100000000);
            n := Z.of_nat n;
            scriptPubKey :=
              {| spk_asm := asm;
                 spk_hex := toHexString lib (bjs_out_script output);
                 reqSigs := 1;
                 type := default type (OUTPUT_TYPES_MAP !! type);
                 addresses :=
                   match fromOutputScript lib (bjs_out_script output) network with
                   | Normal address => [address]
                   | Throw _ => []
                   end |} |}.

Definition decodeRawTransaction (hex : string) (network : Network)
  : Completion Transaction :=
  bjsTx <- fromHex lib hex ;;
  vin <- mapFrom (fun _ => decodeInput) 0 (bjs_ins bjsTx) ;;
  vout <- mapFrom (decodeOutput network) 0 (bjs_outs bjsTx) ;;
  Normal {| tx_txid := toHexString lib (rev (getHash lib bjsTx false));
            tx_hash := toHexString lib (rev (getHash lib bjsTx true));
            version := bjs_version bjsTx;
            locktime := bjs_locktime bjsTx;
            size := byteLength lib bjsTx;
            vsize := virtualSize lib bjsTx;
            weight := weightOf lib bjsTx;
            vin := vin;
            tx_vout := vout;
            hex := hex;
            confirmations := None |}.
End Decode.

(** *** getAddressNetwork *)

(** What [getAddressNetwork] uses of the base58 and padding helpers. *)
Record Base58 : Type := {
  base58_decode : string -> Completion (list byte);
  decodedToHex : list byte -> string;
  toString16 : Z -> string;
  padHexStart : string -> nat -> string
}.

(** [BitcoinNetworks] in the order of its keys. *)
Definition Networks : Type := list (string * Network).

(** lodash [findKey]: the first key whose value satisfies the predicate. *)
Definition findKey (networks : Networks) (predicate : Network -> bool) : option string :=
  fst <$> List.find (fun entry => predicate (snd entry)) networks.

(** [BitcoinNetworks[key]]; an [undefined] key reads the property named
    [undefined]. *)
Definition property (networks : Networks) (key : option string) : option Network :=
  snd <$> List.find (fun entry => String.eqb (fst entry) (default "undefined" key)) networks.

(** [!networkKey]: [undefined] and the empty string are falsy. *)
Definition isFalsyKey (key : option string) : bool :=
  match key with
  | Some k => String.eqb k ""
  | None => true
  end.

Definition getAddressNetwork (b58 : Base58) (networks : Networks) (address : string)
  : Completion (option Network) :=
  let networkKey := findKey networks (fun network => String.prefix (bech32 network) address) in
  networkKey' <-
    (if isFalsyKey networkKey then
       decoded <- base58_decode b58 address ;;
       let prefix := String.substring 0 2 (decodedToHex b58 decoded) in
       Normal (findKey networks (fun network =>
                 let pubKeyHashPrefix := padHexStart b58 (toString16 b58 (pubKeyHash network)) 1 in
                 let scriptHashPrefix := padHexStart b58 (toString16 b58 (scriptHash network)) 1 in
                 String.eqb pubKeyHashPrefix prefix || String.eqb scriptHashPrefix prefix))
     else Normal networkKey) ;;
  Normal (property networks networkKey').

End Decoder.

Module DecoderSpec.
Import Corelib.Init.Byte Decoder.

(** The library decompiles every script of the parsed transaction: those
    of the inputs for [toASM], those of the outputs for [classify.output]
    and [toASM]. *)
Definition decompiles (lib : BitcoinJs) (bjsTx : BjsTransaction) : Prop :=
  Forall (fun input => exists asm, toASM lib (bjs_script input) = Normal asm)
         (bjs_ins bjsTx)
  /\ Forall (fun output =>
               (exists type, classifyOutput lib (bjs_out_script output) = Normal type)
               /\ (exists asm, toASM lib (bjs_out_script output) = Normal asm))
            (bjs_outs bjsTx).

(** The error of a completion, if it is one. *)
Definition failure {A} (c : Completion A) : option Error :=
  match c with
  | Normal _ => None
  | Throw e => Some e
  end.

(** The scripts of a parsed transaction. *)
Definition scripts (bjsTx : BjsTransaction) : list (list byte) :=
  map bjs_script (bjs_ins bjsTx) ++ map bjs_out_script (bjs_outs bjsTx).

(** A library that differs from [lib] in the derivation of addresses
    only. *)
Definition withAddresses (lib : BitcoinJs)
    (derive : list byte -> Network -> Completion string) : BitcoinJs :=
  {| fromHex := fromHex lib;
     toASM := toASM lib;
     toHexString := toHexString lib;
     classifyOutput := classifyOutput lib;
     P2WPKH := P2WPKH lib;
     P2WSH := P2WSH lib;
     fromOutputScript := derive;
     getHash := getHash lib;
     byteLength := byteLength lib;
     virtualSize := virtualSize lib;
     weightOf := weightOf lib |}.

End DecoderSpec.

Module DecoderSamples.
Import Corelib.Init.Byte Bitcoin Decoder.

Definition mainnet : Network := {| bech32 := "bc"; pubKeyHash := 0; scriptHash := 5 |}.
Definition testnet : Network := {| bech32 := "tb"; pubKeyHash := 111; scriptHash := 196 |}.
Definition regtest : Network := {| bech32 := "bcrt"; pubKeyHash := 111; scriptHash := 196 |}.

Definition sampleNetworks : Networks :=
  [("bitcoin", mainnet); ("bitcoin_testnet", testnet); ("bitcoin_regtest", regtest)].

(** A transaction with a key-hash output of 1.5 coins and an output whose
    script has no address. *)
Definition sampleBjs : BjsTransaction :=
  {| bjs_version := 2; bjs_locktime := 0;
     bjs_ins := [ {| bjs_hash := [x01; x02]; bjs_index := 1; bjs_script := [];
                     bjs_witness := [[xaa]]; bjs_sequence := 4294967295 |} ];
     bjs_outs := [ {| bjs_out_script := [x00; x14]; bjs_out_value := 150000000 |};
                   {| bjs_out_script := [x6a]; bjs_out_value := 0 |} ] |}.

(** A stand-in for the parsing library, to run the decoder on data. *)
Definition sampleLib : BitcoinJs :=
  {| fromHex := fun hex =>
       if String.eqb hex "0200" then Normal sampleBjs
       else Throw (OtherError "Error: Transaction has unexpected data");
     toASM := fun script =>
       match script with
       | xff :: _ => Throw (TypeError "Cannot read properties of null (reading 'map')")
       | _ => Normal ""
       end;
     toHexString := fun bytes => pretty (length bytes);
     classifyOutput := fun script =>
       match script with
       | x00 :: _ => Normal "witnesspubkeyhash"
       | _ => Normal "nulldata"
       end;
     P2WPKH := "witnesspubkeyhash";
     P2WSH := "witnessscripthash";
     fromOutputScript := fun script _ =>
       match script with
       | x00 :: _ => Normal "bc1qsample"
       | _ => Throw (OtherError "Error: has no matching Address")
       end;
     getHash := fun _ _ => [x0a; x0b];
     byteLength := fun _ => 100;
     virtualSize := fun _ => Qc_of_Z 100;
     weightOf := fun _ => 400 |}.

(** A stand-in for the base58 helpers: every address decodes to the
    version byte 0x6f. *)
Definition sampleBase58 : Base58 :=
  {| base58_decode := fun address =>
       if String.eqb address "" then Throw (OtherError "Error: Invalid checksum")
       else Normal [x6f];
     decodedToHex := fun _ => "6f";
     toString16 := fun z => if Z.eqb z 111 then "6f" else if Z.eqb z 196 then "c4"
                            else if Z.eqb z 5 then "5" else "0";
     padHexStart := fun s _ => if (String.length s =? 1)%nat then "0" +:+ s else s |}.

End DecoderSamples.

(* ===================================================================== *)
(** ** SolanaWalletProvider: addresses and signer *)
(* ===================================================================== *)

Module Wallet.
Import Corelib.Init.Byte.
Import Solana.

Record Keypair : Type := {
  publicKey : string;
  secretKey : list byte
}.

(** The key-derivation and signing packages, which are third-party:
    [validateMnemonic] and [mnemonicToSeed] (rendered in hex),
    the derivation of the key pair from the path and the seed
    ([derivePath], [nacl.sign.keyPair.fromSeed], [Keypair.fromSecretKey]),
    and the signing of a message with a key pair for an address. *)
Record Libs : Type := {
  validateMnemonic : string -> bool;
  mnemonicToSeedHex : string -> Completion string;
  keypairFromSeed : option string -> string -> Completion Keypair;
  signDetached : string -> Keypair -> string -> Completion string
}.

(** The fields set once by the constructor. *)
Record Options : Type := {
  _mnemonic : string;
  _derivationPath : option string
}.

(** The fields that the methods update.  [_addressCache] is an object
    literal used as a map from mnemonics to addresses: the map holds the
    properties of the object itself. *)
Record State : Type := {
  _addressCache : gmap string Address;
  _signer : option Keypair
}.

(** What [this._addressCache[key]] evaluates to: an address that
    [getAddresses] stored, or the property that every object has under
    that name. *)
Inductive Cached : Type :=
| CachedAddress (a : Address)
| InheritedProperty (name : string).

(** [this._addressCache[key]]; [None] is [undefined], and everything else
    is truthy. *)
Definition cacheRead (cache : gmap string Address) (key : string) : option Cached :=
  match cache !! key with
  | Some a => Some (CachedAddress a)
  | None => if isInherited key then Some (InheritedProperty key) else None
  end.

(** The state the constructor leaves. *)
Definition initial : State := {| _addressCache := ∅; _signer := None |}.

(** A method: its completion and the state it leaves, also when it
    throws. *)
Definition Method (A : Type) : Type := State -> Completion A * State.

Section Provider.
Variable libs : Libs.
Variable this : Options.

Definition _mnemonicToSeed (mnemonic : string) : Completion string :=
  if validateMnemonic libs mnemonic
  then mnemonicToSeedHex libs mnemonic
  else Throw (OtherError "Invalid seed words").

Definition setSigner : Method Keypair := fun s =>
  match _mnemonicToSeed (_mnemonic this) with
  | Normal seed =>
      match keypairFromSeed libs (_derivationPath this) seed with
      | Normal account =>
          (Normal account, {| _addressCache := _addressCache s; _signer := Some account |})
      | Throw e => (Throw e, s)
      end
  | Throw e => (Throw e, s)
  end.

Definition getSigner : Method (option Keypair) := fun s =>
  match _signer s with
  | Some account => (Normal (Some account), s)
  | None =>
      match setSigner s with
      | (Normal _, s') => (Normal (_signer s'), s')
      | (Throw e, s') => (Throw e, s')
      end
  end.

Definition getAddresses : Method (list Cached) := fun s =>
  match cacheRead (_addressCache s) (_mnemonic this) with
  | Some cached => (Normal [cached], s)
  | None =>
      match setSigner s with
      | (Normal account, s') =>
          let result := {| address := publicKey account;
                           derivationPath := _derivationPath this |} in
          (Normal [CachedAddress result],
           {| _addressCache := <[_mnemonic this := result]> (_addressCache s');
              _signer := _signer s' |})
      | (Throw e, s') => (Throw e, s')
      end
  end.

Definition isWalletAvailable : Method bool := fun s =>
  match getAddresses s with
  | (Normal addresses, s') => (Normal (0 <? length addresses)%nat, s')
  | (Throw e, s') => (Throw e, s')
  end.

Definition getUnusedAddress : Method (option Cached) := fun s =>
  match getAddresses s with
  | (Normal addresses, s') => (Normal (addresses !! 0%nat), s')
  | (Throw e, s') => (Throw e, s')
  end.

Definition getUsedAddresses : Method (list Cached) := getAddresses.

(** [this._signer.secretKey] is read without a check. *)
Definition signMessage (message from : string) : Method string := fun s =>
  match _signer s with
  | Some account => (signDetached libs message account from, s)
  | None =>
      (Throw (TypeError "Cannot read properties of undefined (reading 'secretKey')"), s)
  end.

Definition canUpdateFee : bool := false.

(** *** Sequences of calls *)

Inductive Invocation : Type :=
| CallGetAddresses
| CallIsWalletAvailable
| CallGetUnusedAddress
| CallGetUsedAddresses
| CallGetSigner
| CallSetSigner
| CallSignMessage (message from : string).

(** The state after a call, whatever it returned. *)
Definition after (s : State) (c : Invocation) : State :=
  match c with
  | CallGetAddresses => snd (getAddresses s)
  | CallIsWalletAvailable => snd (isWalletAvailable s)
  | CallGetUnusedAddress => snd (getUnusedAddress s)
  | CallGetUsedAddresses => snd (getUsedAddresses s)
  | CallGetSigner => snd (getSigner s)
  | CallSetSigner => snd (setSigner s)
  | CallSignMessage message from => snd (signMessage message from s)
  end.

(** The key pair that the mnemonic and the path determine. *)
Definition derives (account : Keypair) : Prop :=
  validateMnemonic libs (_mnemonic this) = true
  /\ exists seed,
       mnemonicToSeedHex libs (_mnemonic this) = Normal seed
       /\ keypairFromSeed libs (_derivationPath this) seed = Normal account.

(** The signer, when set, is the derived key pair; the cache holds at
    most the address of the signer, under the mnemonic. *)
Definition consistent (s : State) : Prop :=
  (forall account, _signer s = Some account -> derives account)
  /\ (forall key cached,
         _addressCache s !! key = Some cached ->
         key = _mnemonic this
         /\ exists account,
              _signer s = Some account
              /\ cached = {| address := publicKey account;
                             derivationPath := _derivationPath this |}).
End Provider.

End Wallet.

Module WalletSamples.
Import Corelib.Init.Byte.
Import Wallet.

Definition sampleLibs : Libs :=
  {| validateMnemonic := fun m => String.eqb m "abandon ability able";
     mnemonicToSeedHex := fun m => Normal ("5eed" +:+ m);
     keypairFromSeed := fun path seed =>
       Normal {| publicKey := "Pub" +:+ seed; secretKey := [x01; x02] |};
     signDetached := fun message account from => Normal ("signed:" +:+ message) |}.

Definition goodOptions : Options :=
  {| _mnemonic := "abandon ability able"; _derivationPath := Some "m/44'/501'/0'/0'" |}.

Definition badOptions : Options :=
  {| _mnemonic := "not a mnemonic"; _derivationPath := None |}.

(** Words that are no mnemonic, and name a property every object has. *)
Definition inheritedOptions : Options :=
  {| _mnemonic := "constructor"; _derivationPath := None |}.

End WalletSamples.
(* ===================================================================== *)
(** ** Arithmetic of doubles on whole numbers *)
(* ===================================================================== *)

Module DoubleFacts.

Lemma this_Qc_of_Z (z : Z) : this (Qc_of_Z z) = inject_Z z.
Proof.
  reflexivity.
Qed.

Lemma roundHalfEven_integer (q : Q) (w : Z) :
  (q == inject_Z w)%Q -> roundHalfEven q = w.
Proof.
  intros Hq. unfold roundHalfEven.
  rewrite (Qfloor_comp _ _ Hq), Qfloor_Z.
  assert ((q - inject_Z w ?= 1 # 2)%Q = Lt) as ->; [|reflexivity].
  rewrite <- Qlt_alt. rewrite Hq. unfold Qminus. rewrite Qplus_opp_r. reflexivity.
Qed.

Lemma pow2_nonneg (k : Z) : 0 <= k -> pow2 k = inject_Z (2 ^ k).
Proof.
  intros Hk. unfold pow2. destruct (Z.ltb_spec k 0) as [H|H]; [lia|reflexivity].
Qed.

Lemma pow2_opp (k : Z) : 0 <= k -> (inject_Z (2 ^ k) * pow2 (- k) == 1)%Q.
Proof.
  intros Hk. unfold pow2. destruct (Z.ltb_spec (- k) 0) as [H|H].
  - rewrite Z.opp_involutive. unfold Qeq, Qmult, inject_Z. cbn [Qnum Qden].
    rewrite Pos.mul_1_l, Z2Pos.id by (apply Z.pow_pos_nonneg; lia). lia.
  - assert (k = 0) as -> by lia. reflexivity.
Qed.

Lemma ilog2_integer (a : Z) : 0 < a -> ilog2 (inject_Z a) = Z.log2 a.
Proof.
  intros Ha. unfold ilog2.
  change (Qnum (inject_Z a)) with a. change (Z.log2 (Z.pos (Qden (inject_Z a)))) with 0.
  rewrite Z.sub_0_r.
  assert (Qle_bool (pow2 (Z.log2 a)) (inject_Z a) = true) as ->; [|reflexivity].
  apply Qle_bool_iff. rewrite pow2_nonneg by apply Z.log2_nonneg.
  rewrite <- Zle_Qle.
  apply Z.log2_spec. exact Ha.
Qed.

Lemma nearest_integer (z : Z) :
  Z.abs z < 2 ^ 53 -> (nearest (inject_Z z) == inject_Z z)%Q.
Proof.
  intros Hz. unfold nearest.
  assert (Qabs (inject_Z z) = inject_Z (Z.abs z)) as Habs by reflexivity.
  rewrite Habs.
  destruct (Qle_bool (inject_Z (Z.abs z)) 0) eqn:Hzero.
  - apply Qle_bool_iff in Hzero. change 0%Q with (inject_Z 0) in Hzero.
    rewrite <- Zle_Qle in Hzero. assert (z = 0) as -> by lia. reflexivity.
  - assert (0 < Z.abs z) as Hpos.
    { destruct (Z.eq_dec z 0) as [->|]; [discriminate Hzero|lia]. }
    rewrite ilog2_integer by exact Hpos.
    pose proof (Z.log2_nonneg (Z.abs z)) as Hlog0.
    assert (Z.log2 (Z.abs z) < 53) as Hlog by (apply Z.log2_lt_pow2; lia).
    rewrite Z.max_l by lia.
    set (k := 52 - Z.log2 (Z.abs z)).
    replace (- (Z.log2 (Z.abs z) - 52)) with k by (unfold k; lia).
    replace (Z.log2 (Z.abs z) - 52) with (- k) by (unfold k; lia).
    assert (0 <= k) as Hk by (unfold k; lia).
    rewrite (roundHalfEven_integer _ (Z.abs z * 2 ^ k)).
    2:{ rewrite pow2_nonneg by exact Hk. rewrite inject_Z_mult. reflexivity. }
    rewrite inject_Z_mult, <- !Qmult_assoc, pow2_opp by exact Hk.
    rewrite Qmult_1_r.
    destruct (Qle_bool 0 (inject_Z z)) eqn:Hsign.
    + apply Qle_bool_iff in Hsign. change 0%Q with (inject_Z 0) in Hsign.
      rewrite <- Zle_Qle in Hsign. rewrite Z.abs_eq by exact Hsign. apply Qmult_1_l.
    + assert (z < 0) as Hneg.
      { destruct (Z.le_gt_cases 0 z) as [H|H]; [|exact H].
        assert (Qle_bool 0 (inject_Z z) = true) as Ht.
        { apply Qle_bool_iff. change 0%Q with (inject_Z 0). rewrite <- Zle_Qle. exact H. }
        rewrite Ht in Hsign. discriminate Hsign. }
      rewrite Z.abs_neq by lia. rewrite inject_Z_opp. ring.
Qed.


Lemma fl_exact (x : Qc) :
  (nearest x == x)%Q -> Qle_bool (pow2 1024) (Qabs (nearest x)) = false -> fl x = Num x.
Proof.
  intros Hx Hfinite. unfold fl. rewrite Hfinite. f_equal.
  apply Qc_is_canon. cbn [this Q2Qc]. rewrite Qred_correct. exact Hx.
Qed.

(** The rounding at work: one tenth is no double; a tie goes to the even
    neighbour; [2^1024] is out of range; half of the smallest positive
    double is rounded to zero. *)
Example fl_one_tenth :
  fl (Q2Qc (1 # 10)) = Num (Q2Qc (3602879701896397 # 36028797018963968)).
Proof.
  unfold fl.
  assert (Qle_bool (pow2 1024) (Qabs (nearest (Q2Qc (1 # 10)))) = false) as ->
    by (vm_compute; reflexivity).
  f_equal. apply Qc_is_canon. vm_compute. reflexivity.
Qed.

Example fl_ties_to_even :
  fl (Qc_of_Z (2 ^ 53 + 1)) = Num (Qc_of_Z (2 ^ 53))
  /\ fl (Qc_of_Z (2 ^ 53 + 3)) = Num (Qc_of_Z (2 ^ 53 + 4)).
Proof.
  split; unfold fl.
  - assert (Qle_bool (pow2 1024) (Qabs (nearest (Qc_of_Z (2 ^ 53 + 1)))) = false) as ->
      by (vm_compute; reflexivity).
    f_equal. apply Qc_is_canon. vm_compute. reflexivity.
  - assert (Qle_bool (pow2 1024) (Qabs (nearest (Qc_of_Z (2 ^ 53 + 3)))) = false) as ->
      by (vm_compute; reflexivity).
    f_equal. apply Qc_is_canon. vm_compute. reflexivity.
Qed.

Example fl_out_of_range :
  fl (Qc_of_Z (2 ^ 1024)) = Infinity
  /\ fl (Qc_of_Z (- 2 ^ 1024)) = NegInfinity
  /\ fl (Q2Qc (1 # Z.to_pos (2 ^ 1075))) = Num (Qc_of_Z 0).
Proof.
  split; [|split]; unfold fl.
  - assert (Qle_bool (pow2 1024) (Qabs (nearest (Qc_of_Z (2 ^ 1024)))) = true) as ->
      by (vm_compute; reflexivity).
    reflexivity.
  - assert (Qle_bool (pow2 1024) (Qabs (nearest (Qc_of_Z (- 2 ^ 1024)))) = true) as ->
      by (vm_compute; reflexivity).
    reflexivity.
  - assert (Qle_bool (pow2 1024) (Qabs (nearest (Q2Qc (1 # Z.to_pos (2 ^ 1075))))) = false)
      as -> by (vm_compute; reflexivity).
    f_equal. apply Qc_is_canon. vm_compute. reflexivity.
Qed.

(** Printing: the double next to one tenth prints as 0.1, the sum of the
    doubles next to 0.1 and 0.2 as 0.30000000000000004. *)
Example printed_one_tenth :
  printed (Q2Qc (3602879701896397 # 36028797018963968)) = Q2Qc (1 # 10)
  /\ add (Num (Q2Qc (3602879701896397 # 36028797018963968)))
         (Num (Q2Qc (3602879701896397 # 18014398509481984)))
     = Num (Q2Qc (1351079888211149 # 4503599627370496))
  /\ printed (Q2Qc (1351079888211149 # 4503599627370496))
     = Q2Qc (30000000000000004 # 100000000000000000).
Proof.
  split; [|split].
  - apply Qc_is_canon. vm_compute. reflexivity.
  - cbn [add]. unfold fl.
    assert (Qle_bool (pow2 1024)
              (Qabs (nearest (Q2Qc (3602879701896397 # 36028797018963968)
                              + Q2Qc (3602879701896397 # 18014398509481984))%Qc)) = false)
      as -> by (vm_compute; reflexivity).
    f_equal. apply Qc_is_canon. vm_compute. reflexivity.
  - apply Qc_is_canon. vm_compute. reflexivity.
Qed.

Lemma fl_integer (z : Z) : Z.abs z < 2 ^ 53 -> fl (Qc_of_Z z) = Num (Qc_of_Z z).
Proof.
  intros Hz. pose proof (nearest_integer z Hz) as Hy.
  apply fl_exact; [exact Hy|].
  change (this (Qc_of_Z z)) with (inject_Z z).
  destruct (Qle_bool (pow2 1024) (Qabs (nearest (inject_Z z)))) eqn:Hbig; [|reflexivity].
  exfalso. apply Qle_bool_iff in Hbig.
  rewrite Hy in Hbig. rewrite pow2_nonneg in Hbig by lia.
  change (Qabs (inject_Z z)) with (inject_Z (Z.abs z)) in Hbig.
  rewrite <- Zle_Qle in Hbig.
  assert (2 ^ 53 < 2 ^ 1024) by (apply Z.pow_lt_mono_r; lia). lia.
Qed.

Lemma mul_integers (a b : Z) :
  Z.abs (a * b) < 2 ^ 53 ->
  mul (Num (Qc_of_Z a)) (Num (Qc_of_Z b)) = Num (Qc_of_Z (a * b)).
Proof.
  intros H. cbn [mul]. rewrite <- Z2Qc_inj_mul. apply fl_integer. exact H.
Qed.

Lemma add_integers (a b : Z) :
  Z.abs (a + b) < 2 ^ 53 ->
  add (Num (Qc_of_Z a)) (Num (Qc_of_Z b)) = Num (Qc_of_Z (a + b)).
Proof.
  intros H. cbn [add]. rewrite <- Z2Qc_inj_add. apply fl_integer. exact H.
Qed.

End DoubleFacts.

(* ===================================================================== *)
(** ** Properties of the history batcher *)
(* ===================================================================== *)

Module BatcherFacts.
Import Solana SolanaSpec.

Lemma BatchInv_init : BatchInv [] {| batches := [[]]; currentBatch := 0 |}.
Proof.
  apply (BatchInv_intro _ _ [] []); simpl; auto; try lia; congruence.
Qed.

Lemma batchStep_inv seen st pastTx :
  BatchInv seen st ->
  exists st', batchStep st (length seen) pastTx = Normal st'
              /\ BatchInv (seen ++ [signature pastTx]) st'.
Proof.
  intros [full cur Hshape Hidx Hclosed Hle Hge Hcount Hconcat].
  unfold batchStep, MAX_NUMBER_OF_REQUESTS.
  pose proof (Nat.div_mod_eq (length seen) 100) as Hdm.
  pose proof (Nat.mod_upper_bound (length seen) 100 ltac:(lia)) as Hub.
  destruct (negb (length seen =? 0)%nat && (length seen mod 100 =? 0)%nat) eqn:Hcond.
  - (* the open batch is full: a new one is pushed *)
    apply andb_true_iff in Hcond as [Hnz Hmod].
    apply negb_true_iff, Nat.eqb_neq in Hnz. apply Nat.eqb_eq in Hmod.
    assert (seen ≠ []) as Hne by (intros ->; simpl in Hnz; lia).
    specialize (Hge Hne).
    assert (length cur = 100%nat) as Hcur by lia.
    cbn [batches currentBatch]. rewrite Hshape, Hidx.
    assert (S (length full) = length (full ++ [cur])) as Hlen
      by (rewrite length_app; simpl; lia).
    rewrite Hlen, (list_lookup_middle _ [] [] _ eq_refl).
    eexists; split; [reflexivity|].
    rewrite insert_app_r_alt, Nat.sub_diag by lia. cbn [app list_insert insert].
    apply (BatchInv_intro _ _ (full ++ [cur]) [signature pastTx]);
      cbn [batches currentBatch length].
    + reflexivity.
    + lia.
    + apply Forall_app; split; [assumption | repeat constructor; assumption].
    + lia.
    + intros _; lia.
    + rewrite !length_app; simpl; lia.
    + rewrite concat_app, <- Hshape, Hconcat. simpl. reflexivity.
  - (* the open batch has room *)
    assert (length cur < 100)%nat as Hroom.
    { apply andb_false_iff in Hcond as [Hz | Hmod].
      - apply negb_false_iff, Nat.eqb_eq in Hz. lia.
      - apply Nat.eqb_neq in Hmod.
        destruct (decide (length cur = 100%nat)) as [Heq | Hneq]; [|lia].
        exfalso; apply Hmod.
        rewrite Hcount, Heq.
        replace (100 * length full + 100)%nat with (0 + (S (length full)) * 100)%nat by lia.
        rewrite Nat.Div0.mod_add. reflexivity. }
    rewrite Hshape, Hidx.
    rewrite (list_lookup_middle full [] cur _ eq_refl).
    eexists; split; [reflexivity|].
    rewrite insert_app_r_alt, Nat.sub_diag by lia. cbn [app list_insert insert].
    apply (BatchInv_intro _ _ full (cur ++ [signature pastTx]));
      cbn [batches currentBatch].
    + reflexivity.
    + reflexivity.
    + assumption.
    + rewrite length_app; simpl; lia.
    + intros _. rewrite length_app; simpl; lia.
    + rewrite !length_app; simpl; lia.
    + rewrite concat_app in *. rewrite Hshape, concat_app in Hconcat.
      simpl in *. rewrite !app_nil_r in *. rewrite app_assoc, Hconcat. reflexivity.
Qed.

Lemma forEachFrom_inv (addressHistory : list PastTx) :
  forall seen st,
    BatchInv seen st ->
    exists st', forEachFrom (length seen) addressHistory st = Normal st'
                /\ BatchInv (seen ++ map signature addressHistory) st'.
Proof.
  induction addressHistory as [| pastTx rest IH]; intros seen st Hinv.
  - exists st. simpl. rewrite app_nil_r. auto.
  - destruct (batchStep_inv seen st pastTx Hinv) as (st1 & Hstep & Hinv1).
    destruct (IH _ _ Hinv1) as (st2 & Hrun & Hinv2).
    exists st2. cbn [forEachFrom]. rewrite Hstep. cbn [bind].
    rewrite length_app in Hrun. simpl in Hrun.
    replace (S (length seen)) with (length seen + 1)%nat by lia.
    split; [exact Hrun|].
    cbn [map]. replace (seen ++ signature pastTx :: map signature rest)
      with ((seen ++ [signature pastTx]) ++ map signature rest); [exact Hinv2|].
    rewrite <- app_assoc. reflexivity.
Qed.

(** The shape of the result, for every history. *)
Lemma batchSignatures_shape (addressHistory : list PastTx) :
  exists full cur,
    _batchSignatures addressHistory = Normal (full ++ [cur])
    /\ concat (full ++ [cur]) = map signature addressHistory
    /\ Forall (fun b => length b = 100%nat) full
    /\ (length cur <= 100)%nat
    /\ (addressHistory ≠ [] -> (1 <= length cur)%nat)
    /\ length addressHistory = (100 * length full + length cur)%nat.
Proof.
  destruct (forEachFrom_inv addressHistory [] _ BatchInv_init) as (st & Hrun & Hinv).
  destruct Hinv as [full cur Hshape Hidx Hclosed Hle Hge Hcount Hconcat].
  exists full, cur. unfold _batchSignatures. simpl in Hrun. rewrite Hrun. cbn [bind].
  rewrite <- Hshape. repeat split; try assumption.
  - intros Hne. apply Hge. simpl. destruct addressHistory; [congruence | discriminate].
  - simpl in Hcount. rewrite length_map in Hcount. exact Hcount.
Qed.

End BatcherFacts.

(* ===================================================================== *)
(** ** Properties of the scan *)
(* ===================================================================== *)

Module ScanFacts.
Import Solana SolanaSpec.

Lemma setSecret_same (data : Transaction) : setSecret data (secret data) = data.
Proof. destruct data; reflexivity. Qed.

Lemma find_app_first {A} (p : A -> bool) (l1 l2 : list A) :
  List.find p (l1 ++ l2) =
  match List.find p l1 with
  | Some x => Some x
  | None => List.find p l2
  end.
Proof.
  induction l1 as [| x l1 IH]; simpl; [reflexivity|].
  destruct (p x); [reflexivity | exact IH].
Qed.

Section WithPredicate.
Variable swapParams : SwapParams.
Variable instr : Z.
Variable validation : option Validation.
Variable validate : Validation.
Hypothesis supplied : instr = refund instructions \/ validation = Some validate.

Lemma scanRow_find (row : list Transaction) :
  scanRow swapParams instr validation row
  = Normal (List.find (accepted swapParams instr validate) row).
Proof.
  induction row as [| data rest IH]; cbn [scanRow List.find]; [reflexivity|].
  unfold accepted at 1.
  destruct (_raw data) as [raw|]; [|exact IH].
  destruct (Z.eqb (instruction raw) instr); cbn [andb]; [|exact IH].
  destruct (Z.eqb instr (refund instructions)) eqn:Hrefund; [reflexivity|].
  destruct supplied as [-> | ->]; [discriminate Hrefund|].
  destruct (validate swapParams raw); [|exact IH].
  rewrite setSecret_same. reflexivity.
Qed.

Lemma scanMatrix_find (matrix : list (list Transaction)) :
  scanMatrix swapParams instr validation matrix
  = Normal (List.find (accepted swapParams instr validate) (concat matrix)).
Proof.
  induction matrix as [| row rest IH]; cbn [scanMatrix concat]; [reflexivity|].
  rewrite scanRow_find, find_app_first. cbn [bind].
  destruct (List.find _ row); [reflexivity | exact IH].
Qed.
End WithPredicate.

(** Every batch is requested, in order, whatever the answers are. *)
Lemma fetchBatches_spec (this : Provider) (batch : list (list string)) :
  fetchBatches this batch
  = (Normal (map (getParsedAndConfirmedTransactions this) batch),
     map GetParsedAndConfirmedTransactions batch).
Proof.
  induction batch as [| sp rest IH]; cbn [fetchBatches map]; [reflexivity|].
  rewrite IH. unfold request, ret. cbn [ebind app]. rewrite app_nil_r. reflexivity.
Qed.

Lemma promiseAll_answers (this : Provider) lookupTx (batch : list (list string)) :
  answersInOrder this lookupTx ->
  promiseAll (map (getParsedAndConfirmedTransactions this) batch)
  = Normal (map (omap lookupTx) batch).
Proof.
  intros Hfetch. induction batch as [| sp rest IH]; cbn [promiseAll map]; [reflexivity|].
  rewrite Hfetch, IH. reflexivity.
Qed.

Lemma omap_concat {A B} (f : A -> option B) (ls : list (list A)) :
  concat (map (omap f) ls) = omap f (concat ls).
Proof.
  induction ls as [| l ls IH]; cbn [concat map]; [reflexivity|].
  rewrite omap_app, IH. reflexivity.
Qed.

(** The run of [_findTransactionByAddress] once the history is known:
    what it returns and which requests it sends. *)
Lemma findTransactionByAddress_run this address swapParams instr validation
    history chunks :
  getAddressHistory this address = Normal history ->
  _batchSignatures history = Normal chunks ->
  _findTransactionByAddress this address swapParams instr validation
  = (matrix <- promiseAll (map (getParsedAndConfirmedTransactions this) chunks) ;;
     scanMatrix swapParams instr validation matrix,
     GetAddressHistory address :: map GetParsedAndConfirmedTransactions chunks).
Proof.
  intros Hhist Hchunks. unfold _findTransactionByAddress.
  rewrite Hhist. unfold request, lift. cbn [ebind].
  rewrite Hchunks. cbn [ebind]. rewrite fetchBatches_spec. cbn [ebind app].
  destruct (promiseAll _) as [matrix | e]; cbn [ebind bind app];
    rewrite ?app_nil_r; reflexivity.
Qed.

(** The scenario of the design: five transactions in the seller's history,
    the third of which is the matching initiation. *)
Example findInitiate_third_of_five :
  findInitiateSwapTransaction Samples.sampleAddressToString Samples.sampleProvider
    Samples.sampleParams
  = (Normal (Some (Samples.fetched "sig3" (Some Samples.initPayload))),
     [GetAddressHistory "seller1";
      GetParsedAndConfirmedTransactions ["sig1"; "sig2"; "sig3"; "sig4"; "sig5"]]).
Proof. reflexivity. Qed.

End ScanFacts.

(** C8. For every history, the batcher returns chunks of at most 100
    signatures whose concatenation, in order, is the list of the history's
    signatures; a history of 250 entries gives exactly three chunks, of sizes
    100, 100 and 50. *)
Theorem batchSignatures_partitions_history (addressHistory : list Solana.PastTx) :
  exists chunks,
    Solana._batchSignatures addressHistory = Normal chunks
    /\ concat chunks = map Solana.signature addressHistory
    /\ Forall (fun chunk => (length chunk <= 100)%nat) chunks
    /\ (length addressHistory = 250%nat -> map length chunks = [100; 100; 50]%nat).
Proof.
  destruct (BatcherFacts.batchSignatures_shape addressHistory)
    as (full & cur & Hrun & Hconcat & Hclosed & Hle & Hge & Hcount).
  exists (full ++ [cur]). repeat split; try assumption.
  - apply Forall_app; split.
    + eapply Forall_impl; [exact Hclosed|]. simpl; intros b Hb; lia.
    + constructor; [assumption | constructor].
  - intros H250. rewrite H250 in Hcount.
    assert (addressHistory ≠ []) as Hne by (intros ->; discriminate).
    specialize (Hge Hne).
    assert (length full = 2%nat /\ length cur = 50%nat) as [Hf Hc] by lia.
    destruct full as [| b1 [| b2 [| b3 full]]]; try discriminate.
    inversion Hclosed as [| ? ? Hb1 Hrest]; subst.
    inversion Hrest as [| ? ? Hb2 _]; subst.
    simpl. rewrite Hb1, Hb2, Hc. reflexivity.
Qed.

(** The sample history of 250 entries. *)
Lemma batchSignatures_partitions_history_witness :
  exists chunks,
    Solana._batchSignatures Samples.history250 = Normal chunks
    /\ concat chunks = map Solana.signature Samples.history250
    /\ map length chunks = [100; 100; 50]%nat.
Proof.
  destruct (batchSignatures_partitions_history Samples.history250) as (chunks & Hrun & Hcat & _ & H250).
  exists chunks. repeat split; [exact Hrun | exact Hcat | apply H250; reflexivity].
Defined.

(* ===================================================================== *)
(** ** The swap matcher *)
(* ===================================================================== *)

Module SwapMatcher.
Import Solana SolanaSpec.

(** C1. Whatever the history of the address and the phase tag,
    [_findTransactionByAddress] returns the first transaction, in the
    order of the history, whose tag is the requested one and which is
    accepted; when there is none it returns nothing.  For the refund tag
    the tag alone decides; for any other tag the supplied predicate must
    hold of the swap parameters and the payload. *)
Theorem findTransactionByAddress_first_accepted
    (this : Provider) (address : string) (swapParams : SwapParams) (instr : Z)
    (validation : option Validation) (validate : Validation)
    (history : list PastTx) (lookupTx : string -> option Transaction) :
  getAddressHistory this address = Normal history ->
  answersInOrder this lookupTx ->
  instr = refund instructions \/ validation = Some validate ->
  outcome (_findTransactionByAddress this address swapParams instr validation)
  = Normal (List.find (accepted swapParams instr validate)
                      (omap lookupTx (map signature history)))
  /\ (forall t, accepted swapParams (refund instructions) validate t = true
                <-> instruction <$> _raw t = Some (refund instructions))
  /\ (forall t, instr <> refund instructions ->
                (accepted swapParams instr validate t = true
                 <-> exists payload, _raw t = Some payload
                                     /\ instruction payload = instr
                                     /\ validate swapParams payload = true)).
Proof.
  intros Hhist Hfetch Hsupplied. split; [|split].
  - destruct (BatcherFacts.batchSignatures_shape history)
      as (full & cur & Hrun & Hconcat & _).
    rewrite (ScanFacts.findTransactionByAddress_run _ _ _ _ _ _ _ Hhist Hrun).
    unfold outcome; cbn [fst].
    rewrite (ScanFacts.promiseAll_answers _ _ _ Hfetch). cbn [bind].
    rewrite (ScanFacts.scanMatrix_find _ _ _ _ Hsupplied).
    rewrite ScanFacts.omap_concat, Hconcat. reflexivity.
  - intros t. unfold accepted. destruct (_raw t) as [payload|]; cbn [fmap option_fmap option_map].
    + rewrite Z.eqb_refl, andb_true_r, Z.eqb_eq. split; congruence.
    + split; discriminate.
  - intros t Hne. unfold accepted. destruct (_raw t) as [payload|].
    + apply Z.eqb_neq in Hne. rewrite Hne, andb_true_iff, Z.eqb_eq. split.
      * intros [Htag Hval]. exists payload. auto.
      * intros (p & Hp & Htag & Hval). injection Hp as <-. auto.
    + split; [discriminate | intros (p & Hp & _); discriminate].
Qed.

(** The seller's sample history: the cheaper initiation is passed over and
    the third transaction is returned. *)
Lemma findTransactionByAddress_first_accepted_witness :
  outcome (_findTransactionByAddress Samples.sampleProvider "seller1"
             Samples.sampleParams (init instructions) (Some _compareParams))
  = Normal (Some (Samples.fetched "sig3" (Some Samples.initPayload))).
Proof.
  exact (proj1 (findTransactionByAddress_first_accepted
                  Samples.sampleProvider "seller1" Samples.sampleParams
                  (init instructions) (Some _compareParams) _compareParams
                  (map Build_PastTx ["sig1"; "sig2"; "sig3"; "sig4"; "sig5"])
                  Samples.ledger
                  eq_refl (fun refs => eq_refl) (or_intror eq_refl))).
Defined.

(** C2 (the code at the input on which it departs from the claim).  The
    claim found for the sample swap reveals its secret in the payload, and
    the transaction returned for the claim phase has no [secret]: the
    assignment of line 135 reads the field it writes. *)
Lemma claim_secret_not_taken_from_payload :
  exists t payload,
    outcome (findClaimSwapTransaction Samples.sampleSha256 Samples.sampleProvider
               Samples.sampleParams "sig3") = Normal (Some t)
    /\ _raw t = Some payload
    /\ raw_secret payload = Some "s3cr3t"
    /\ secret t = None.
Proof.
  exists (Samples.fetched "sig4" (Some Samples.claimPayload)), Samples.claimPayload.
  repeat split.
Qed.

(** C6. When the fetch of the initiation transaction answers with no
    transaction, both finders fail with [PendingTxError]; they do not
    return the absent result of a scan that found nothing, and no history
    is requested. *)
Theorem find_claim_refund_pending
    (sha256 : option string -> string)
    (this : Provider) (swapParams : SwapParams) (initiationTxHash : string) :
  getParsedAndConfirmedTransactions this [initiationTxHash] = Normal [] ->
  findClaimSwapTransaction sha256 this swapParams initiationTxHash
  = (Throw (PendingTxError ("Transaction receipt is not available: " +:+ initiationTxHash)),
     [GetParsedAndConfirmedTransactions [initiationTxHash]])
  /\ findRefundSwapTransaction this swapParams initiationTxHash
     = (Throw (PendingTxError ("Transaction receipt is not available: " +:+ initiationTxHash)),
        [GetParsedAndConfirmedTransactions [initiationTxHash]])
  /\ outcome (findClaimSwapTransaction sha256 this swapParams initiationTxHash) <> Normal None
  /\ outcome (findRefundSwapTransaction this swapParams initiationTxHash) <> Normal None.
Proof.
  intros Hfetch.
  unfold findClaimSwapTransaction, findRefundSwapTransaction, request.
  rewrite Hfetch. cbn. repeat split; discriminate.
Qed.

(** A hash the sample ledger does not know. *)
Lemma find_claim_refund_pending_witness :
  outcome (findClaimSwapTransaction Samples.sampleSha256 Samples.sampleProvider
             Samples.sampleParams "sig9")
  = Throw (PendingTxError "Transaction receipt is not available: sig9")
  /\ outcome (findRefundSwapTransaction Samples.sampleProvider Samples.sampleParams "sig9")
     = Throw (PendingTxError "Transaction receipt is not available: sig9").
Proof.
  destruct (find_claim_refund_pending Samples.sampleSha256 Samples.sampleProvider
              Samples.sampleParams "sig9" eq_refl) as (Hclaim & Hrefund & _).
  split.
  - exact (f_equal fst Hclaim).
  - exact (f_equal fst Hrefund).
Defined.

(** C10. The batcher turns an empty history into one empty batch, so that
    a search over an address without history still sends one fetch, with
    no reference in it. *)
Theorem empty_history_one_empty_fetch
    (this : Provider) (address : string) (swapParams : SwapParams) (instr : Z)
    (validation : option Validation) :
  _batchSignatures [] = Normal [[]]
  /\ (getAddressHistory this address = Normal [] ->
      trace (_findTransactionByAddress this address swapParams instr validation)
      = [GetAddressHistory address; GetParsedAndConfirmedTransactions []]).
Proof.
  split; [reflexivity|]. intros Hhist.
  rewrite (ScanFacts.findTransactionByAddress_run _ _ _ _ _ [] [[]] Hhist eq_refl).
  reflexivity.
Qed.

(** An address without history in the sample provider. *)
Lemma empty_history_one_empty_fetch_witness :
  trace (_findTransactionByAddress Samples.sampleProvider "nobody" Samples.sampleParams
           (refund instructions) None)
  = [GetAddressHistory "nobody"; GetParsedAndConfirmedTransactions []].
Proof.
  apply (proj2 (empty_history_one_empty_fetch Samples.sampleProvider "nobody"
                  Samples.sampleParams (refund instructions) None)).
  reflexivity.
Defined.

End SwapMatcher.
(* ===================================================================== *)
(** ** The fee estimator *)
(* ===================================================================== *)

Module FeeFacts.
Import Bitcoin.

(** The byte cost is computed without rounding error when it is below
    [2^53]; the one rounding is that of the product with the rate. *)
Lemma calculateFee_byte_cost (n m : Z) (r : Qc) :
  0 <= n -> 0 <= m -> 148 * n + 34 * m + 10 < 2 ^ 53 ->
  calculateFee (Num (Qc_of_Z n)) (Num (Qc_of_Z m)) (Num r)
  = fl (Qc_of_Z (148 * n + 34 * m + 10) * r)%Qc.
Proof.
  intros Hn Hm Hsmall. unfold calculateFee.
  rewrite !DoubleFacts.mul_integers by lia.
  rewrite !DoubleFacts.add_integers by lia.
  replace (n * 148 + m * 34 + 10) with (148 * n + 34 * m + 10) by lia.
  reflexivity.
Qed.

(** One input, one output and the double next to one tenth: the product
    192 * 0.1 is rounded, to 19.200000000000003. *)
Example calculateFee_one_tenth :
  calculateFee (Num (Qc_of_Z 1)) (Num (Qc_of_Z 1))
               (Num (Q2Qc (3602879701896397 # 36028797018963968)))
  = Num (Q2Qc (1351079888211149 # 70368744177664)).
Proof.
  rewrite calculateFee_byte_cost by lia.
  unfold fl.
  assert (Qle_bool (pow2 1024)
            (Qabs (nearest (Qc_of_Z (148 * 1 + 34 * 1 + 10)
                            * Q2Qc (3602879701896397 # 36028797018963968))%Qc)) = false)
    as -> by (vm_compute; reflexivity).
  f_equal. apply Qc_is_canon. vm_compute. reflexivity.
Qed.

End FeeFacts.

(** C3 (as stated, refuted).  With one input, one output and a rate of one
    half, the estimator answers 96, and the claimed formula gives 192:
    [calculateFee] multiplies by the rate it is given.  Every number of this
    computation is a double and no step of it rounds. *)
Lemma calculateFee_does_not_round_the_rate :
  0 <= 1 /\ (0 < Q2Qc (1 # 2))%Qc
  /\ Bitcoin.calculateFee (Num (Qc_of_Z 1)) (Num (Qc_of_Z 1)) (Num (Q2Qc (1 # 2)))
     = Num (Qc_of_Z 96)
  /\ Bitcoin.calculateFee (Num (Qc_of_Z 1)) (Num (Qc_of_Z 1)) (Num (Q2Qc (1 # 2)))
     <> Num (Qc_of_Z ((148 * 1 + 34 * 1 + 10) * Math_ceil (Q2Qc (1 # 2)))).
Proof.
  assert (Bitcoin.calculateFee (Num (Qc_of_Z 1)) (Num (Qc_of_Z 1)) (Num (Q2Qc (1 # 2)))
          = Num (Qc_of_Z 96)) as Hfee.
  { rewrite FeeFacts.calculateFee_byte_cost by lia.
    replace (Qc_of_Z (148 * 1 + 34 * 1 + 10) * Q2Qc (1 # 2))%Qc with (Qc_of_Z 96)
      by (apply Qc_is_canon; reflexivity).
    apply DoubleFacts.fl_integer. lia. }
  split; [lia|]. split; [reflexivity|]. split; [exact Hfee|].
  rewrite Hfee. intros H.
  apply (f_equal (fun x => match x with Num q => this q | _ => 0%Q end)) in H.
  vm_compute in H. discriminate H.
Qed.

(** C3 (amended).  For input and output counts [n], [m] that are not
    negative, with a byte cost [148 n + 34 m + 10] below [2^53], and every
    finite rate [r], the estimator answers the double nearest to
    [(148 n + 34 m + 10) * r]: the rate is taken as it is given, and the
    product is the only step that rounds.  When the rate is a whole number
    and the product stays below [2^53], this is the value of the formula
    with [ceil r], without error. *)
Theorem calculateFee_rate_as_given (n m : Z) (r : Qc) :
  0 <= n -> 0 <= m -> 148 * n + 34 * m + 10 < 2 ^ 53 ->
  Bitcoin.calculateFee (Num (Qc_of_Z n)) (Num (Qc_of_Z m)) (Num r)
  = Js.fl (Qc_of_Z (148 * n + 34 * m + 10) * r)%Qc
  /\ (forall k : Z,
        r = Qc_of_Z k -> Z.abs ((148 * n + 34 * m + 10) * k) < 2 ^ 53 ->
        Bitcoin.calculateFee (Num (Qc_of_Z n)) (Num (Qc_of_Z m)) (Num r)
        = Num (Qc_of_Z ((148 * n + 34 * m + 10) * Math_ceil r))).
Proof.
  intros Hn Hm Hsmall.
  split; [apply FeeFacts.calculateFee_byte_cost; assumption|].
  intros k -> Hk.
  rewrite FeeFacts.calculateFee_byte_cost by assumption.
  unfold Math_ceil.
  change (this (Qc_of_Z k)) with (inject_Z k). rewrite Qceiling_Z.
  rewrite <- Z2Qc_inj_mul. apply DoubleFacts.fl_integer. exact Hk.
Qed.

(** One input, one output and a rate of two and a half: the estimator
    answers 480, where rounding the rate up would give 576; and two inputs,
    two outputs and a whole rate of 3. *)
Lemma calculateFee_rate_as_given_witness :
  Bitcoin.calculateFee (Num (Qc_of_Z 1)) (Num (Qc_of_Z 1)) (Num (Q2Qc (5 # 2)))
  = Js.fl (Qc_of_Z (148 * 1 + 34 * 1 + 10) * Q2Qc (5 # 2))%Qc
  /\ Js.fl (Qc_of_Z (148 * 1 + 34 * 1 + 10) * Q2Qc (5 # 2))%Qc = Num (Qc_of_Z 480)
  /\ Bitcoin.calculateFee (Num (Qc_of_Z 2)) (Num (Qc_of_Z 2)) (Num (Qc_of_Z 3))
     = Num (Qc_of_Z ((148 * 2 + 34 * 2 + 10) * Math_ceil (Qc_of_Z 3))).
Proof.
  split; [apply (calculateFee_rate_as_given 1 1 (Q2Qc (5 # 2))); lia|].
  split.
  - replace (Qc_of_Z (148 * 1 + 34 * 1 + 10) * Q2Qc (5 # 2))%Qc with (Qc_of_Z 480)
      by (apply Qc_is_canon; reflexivity).
    apply DoubleFacts.fl_integer. lia.
  - assert (0 <= 2) as Hn by lia.
    assert (148 * 2 + 34 * 2 + 10 < 2 ^ 53) as Hsmall by lia.
    apply (proj2 (calculateFee_rate_as_given 2 2 (Qc_of_Z 3) Hn Hn Hsmall) 3 eq_refl).
    vm_compute. reflexivity.
Defined.

(* ===================================================================== *)
(** ** The coin selector *)
(* ===================================================================== *)

Module SelectFacts.
Import Bitcoin BitcoinSpec.

Lemma hasFixedInputs_cons (input : UTXO) (rest : list UTXO) :
  hasFixedInputs (input :: rest) = true.
Proof. reflexivity. Qed.

Lemma findFixed_unpinned (fixedInputs : list UTXO) (utxo : UTXO) :
  isUndefined (findFixed fixedInputs utxo) = true <-> ~ pinned fixedInputs utxo.
Proof.
  unfold findFixed, pinned.
  induction fixedInputs as [| input rest IH]; cbn [List.find].
  - split; [intros _ H; inversion H | reflexivity].
  - rewrite Exists_cons.
    destruct (Z.eqb_spec (vout input) (vout utxo)) as [Hv | Hv];
      destruct (String.eqb_spec (txid input) (txid utxo)) as [Ht | Ht]; cbn [andb].
    + split; [discriminate | intros H; exfalso; apply H; left; auto].
    + rewrite IH. split; [intros H [[? ?] | ?]; auto | intros H ?; apply H; auto].
    + rewrite IH. split; [intros H [[? ?] | ?]; auto | intros H ?; apply H; auto].
    + rewrite IH. split; [intros H [[? ?] | ?]; auto | intros H ?; apply H; auto].
Qed.

Lemma filter_unpinned (fixedInputs utxos : list UTXO) :
  List.filter (fun utxo => isUndefined (findFixed fixedInputs utxo)) utxos
  = filter (fun utxo => ~ pinned fixedInputs utxo) utxos.
Proof.
  induction utxos as [| utxo rest IH]; [reflexivity|].
  cbn [List.filter]. rewrite filter_cons.
  pose proof (findFixed_unpinned fixedInputs utxo) as Hiff.
  destruct (isUndefined (findFixed fixedInputs utxo)); destruct (decide _) as [Hd | Hd].
  - rewrite IH. reflexivity.
  - exfalso. apply Hd. apply Hiff. reflexivity.
  - exfalso. apply Hiff in Hd. discriminate Hd.
  - exact IH.
Qed.

Lemma selectUtxos_candidates (utxos fixedInputs : list UTXO) :
  fixedInputs <> [] -> selectUtxos utxos fixedInputs = candidates utxos fixedInputs.
Proof.
  intros Hne. destruct fixedInputs as [| input rest]; [congruence|].
  unfold selectUtxos, candidates. rewrite hasFixedInputs_cons, filter_unpinned. reflexivity.
Qed.

Lemma bind_rebuild (c : Completion Selection) :
  (r <- c ;; Normal {| inputs := inputs r; outputs := outputs r; fee := fee r |}) = c.
Proof. destruct c as [[i o f] | e]; reflexivity. Qed.

Lemma selectCoins_call cs csa utxos targets feePerByte fixedInputs :
  selectCoins cs csa utxos targets feePerByte fixedInputs
  = coinselectStrat cs csa fixedInputs (selectUtxos utxos fixedInputs) targets
      (Qc_of_Z (Math_ceil feePerByte)).
Proof. unfold selectCoins. apply bind_rebuild. Qed.

(** A run with a fixed input: it comes first, the rate 3/2 is rounded up
    to 2, and the two inputs taken cover 6000 and the fee of 680. *)
Example selectCoins_fixed_first :
  selectCoins BitcoinSamples.sampleStrategy BitcoinSamples.sampleStrategy
    [BitcoinSamples.utxoA; BitcoinSamples.utxoB; BitcoinSamples.utxoC]
    [BitcoinSamples.pay 6000] (Q2Qc (3 # 2)) [BitcoinSamples.utxoB]
  = Normal {| inputs := Some [BitcoinSamples.utxoB; BitcoinSamples.utxoA];
              outputs := Some [ {| out_address := Some "dest"; out_value := 6000 |} ];
              fee := Some (BitcoinSamples.feeFor (Qc_of_Z 2) [BitcoinSamples.pay 6000]
                             [BitcoinSamples.utxoB; BitcoinSamples.utxoA]) |}.
Proof. reflexivity. Qed.

End SelectFacts.

(** C5. With fixed inputs, [selectCoins] runs the accumulative strategy on
    the fixed inputs followed by the UTXOs that no fixed input pins; without
    fixed inputs it runs the size-optimizing strategy on the UTXOs as they
    are.  In both cases the rate handed over is the rate rounded up. *)
Theorem selectCoins_runs_strategy_on_candidates
    (coinselect coinselectAccumulative : Bitcoin.Strategy)
    (utxos : list Bitcoin.UTXO) (targets : list Bitcoin.OutputTarget)
    (feePerByte : Qc) (fixedInputs : list Bitcoin.UTXO) :
  Bitcoin.selectCoins coinselect coinselectAccumulative utxos targets feePerByte fixedInputs
  = BitcoinSpec.selectCoinsSpec coinselect coinselectAccumulative utxos targets feePerByte
      fixedInputs.
Proof.
  rewrite SelectFacts.selectCoins_call. unfold BitcoinSpec.selectCoinsSpec.
  destruct fixedInputs as [| input rest]; [reflexivity|].
  rewrite SelectFacts.selectUtxos_candidates by discriminate. reflexivity.
Qed.

(** C4 (as stated, refuted).  A wallet holding 1000 cannot pay 6000; the
    strategy answers with a fee and no inputs, and [selectCoins] returns that
    answer as the normal result of the call: no error is raised. *)
Lemma selectCoins_returns_normally_without_funds :
  exists r,
    Bitcoin.selectCoins BitcoinSamples.sampleStrategy BitcoinSamples.sampleStrategy
      [BitcoinSamples.utxoC] [BitcoinSamples.pay 6000] (Qc_of_Z 1) [] = Normal r
    /\ Bitcoin.inputs r = None
    /\ Bitcoin.outputs r = None
    /\ Bitcoin.fee r = Some (Qc_of_Z 192)
    /\ ~ (exists e,
            Bitcoin.selectCoins BitcoinSamples.sampleStrategy BitcoinSamples.sampleStrategy
              [BitcoinSamples.utxoC] [BitcoinSamples.pay 6000] (Qc_of_Z 1) [] = Throw e).
Proof.
  eexists. split; [reflexivity|]. repeat split.
  - transitivity (Some (BitcoinSamples.feeFor (Qc_of_Z 1) [BitcoinSamples.pay 6000]
                          [BitcoinSamples.utxoC])); [reflexivity|].
    f_equal. apply Qc_is_canon. reflexivity.
  - intros [e H]. discriminate H.
Qed.

(** C4 (amended).  [selectCoins] raises no error of its own: it throws
    exactly what the strategy it called throws.  When that strategy answers
    without inputs and outputs, [selectCoins] returns normally, with inputs
    and outputs absent and with the fee the strategy reported. *)
Theorem selectCoins_hands_answer_back
    (coinselect coinselectAccumulative : Bitcoin.Strategy)
    (utxos : list Bitcoin.UTXO) (targets : list Bitcoin.OutputTarget)
    (feePerByte : Qc) (fixedInputs : list Bitcoin.UTXO) :
  (forall e,
      Bitcoin.selectCoins coinselect coinselectAccumulative utxos targets feePerByte fixedInputs
      = Throw e
      <-> Bitcoin.coinselectStrat coinselect coinselectAccumulative fixedInputs
            (Bitcoin.selectUtxos utxos fixedInputs) targets (Qc_of_Z (Math_ceil feePerByte))
          = Throw e)
  /\ (forall answer,
        Bitcoin.coinselectStrat coinselect coinselectAccumulative fixedInputs
          (Bitcoin.selectUtxos utxos fixedInputs) targets (Qc_of_Z (Math_ceil feePerByte))
        = Normal answer ->
        Bitcoin.inputs answer = None ->
        Bitcoin.outputs answer = None ->
        Bitcoin.selectCoins coinselect coinselectAccumulative utxos targets feePerByte fixedInputs
        = Normal {| Bitcoin.inputs := None; Bitcoin.outputs := None;
                    Bitcoin.fee := Bitcoin.fee answer |}).
Proof.
  rewrite SelectFacts.selectCoins_call. split.
  - intros e. reflexivity.
  - intros [i o f] -> Hi Ho. cbn in Hi, Ho. subst. reflexivity.
Qed.

(** The wallet of 1000 asked for 6000. *)
Lemma selectCoins_hands_answer_back_witness :
  Bitcoin.selectCoins BitcoinSamples.sampleStrategy BitcoinSamples.sampleStrategy
    [BitcoinSamples.utxoC] [BitcoinSamples.pay 6000] (Qc_of_Z 1) []
  = Normal {| Bitcoin.inputs := None; Bitcoin.outputs := None;
              Bitcoin.fee := Some (BitcoinSamples.feeFor (Qc_of_Z 1) [BitcoinSamples.pay 6000]
                                     [BitcoinSamples.utxoC]) |}.
Proof.
  apply (proj2 (selectCoins_hands_answer_back
                  BitcoinSamples.sampleStrategy BitcoinSamples.sampleStrategy
                  [BitcoinSamples.utxoC] [BitcoinSamples.pay 6000] (Qc_of_Z 1) [])
               {| Bitcoin.inputs := None; Bitcoin.outputs := None;
                  Bitcoin.fee := Some (BitcoinSamples.feeFor (Qc_of_Z 1) [BitcoinSamples.pay 6000]
                                         [BitcoinSamples.utxoC]) |});
    reflexivity.
Defined.

(* ===================================================================== *)
(** ** The initiate-match predicate *)
(* ===================================================================== *)

Module MatchFacts.
Import Solana.

Lemma strictEqString_true (a : AddressLike) (s : string) :
  strictEqString a s = true <-> a = AddrString s.
Proof.
  destruct a as [s' | o]; cbn [strictEqString].
  - rewrite String.eqb_eq. split; congruence.
  - split; discriminate.
Qed.

(** An [Address] object in the swap parameters never matches. *)
Lemma compareParams_address_object (swapParams : SwapParams) (p : Raw) (o : Address) :
  recipientAddress swapParams = AddrObject o -> _compareParams swapParams p = false.
Proof. intros H. unfold _compareParams. rewrite H. reflexivity. Qed.

Lemma compareParams_refund_object (swapParams : SwapParams) (p : Raw) (o : Address) :
  refundAddress swapParams = AddrObject o -> _compareParams swapParams p = false.
Proof.
  intros H. unfold _compareParams. rewrite H. cbn [strictEqString].
  rewrite andb_false_r. reflexivity.
Qed.

(** What [_compareParams] tests: both addresses are strings, the very ones
    of the payload, and the other three fields are equal. *)
Lemma compareParams_strict (swapParams : SwapParams) (initTxParams : Raw) :
  _compareParams swapParams initTxParams = true
  <-> recipientAddress swapParams = AddrString (buyer initTxParams)
      /\ refundAddress swapParams = AddrString (seller initTxParams)
      /\ secretHash swapParams = secret_hash initTxParams
      /\ sp_value swapParams = value initTxParams
      /\ safe_value (sp_expiration swapParams) = expiration initTxParams.
Proof.
  unfold _compareParams.
  rewrite !andb_true_iff, !strictEqString_true, String.eqb_eq, !Z.eqb_eq.
  tauto.
Qed.

End MatchFacts.

(** C7 (the code departs from it).  The swap parameters [objectParams] give
    the refund address as an [Address] object, which
    [findInitiateSwapTransaction] turns into a string to look up the seller's
    history.  They agree with the sample initiation in all five fields, the
    refund address being the seller's; [_compareParams] compares the object
    itself with the seller's string and answers false, so the initiation,
    third in the history that was fetched for it, is not found. *)
Theorem compareParams_rejects_address_object :
  Solana.recipientAddress Samples.objectParams
  = Solana.AddrString (Solana.buyer Samples.initPayload)
  /\ Solana.refundAddress Samples.objectParams
     = Solana.AddrObject {| Solana.address := Solana.seller Samples.initPayload;
                            Solana.derivationPath := None |}
  /\ Solana.secretHash Samples.objectParams = Solana.secret_hash Samples.initPayload
  /\ Solana.sp_value Samples.objectParams = Solana.value Samples.initPayload
  /\ Solana.safe_value (Solana.sp_expiration Samples.objectParams)
     = Solana.expiration Samples.initPayload
  /\ Solana._compareParams Samples.objectParams Samples.initPayload = false
  /\ Solana.findInitiateSwapTransaction Samples.sampleAddressToString Samples.sampleProvider
       Samples.objectParams
     = (Normal None,
        [GetAddressHistory "seller1";
         GetParsedAndConfirmedTransactions ["sig1"; "sig2"; "sig3"; "sig4"; "sig5"]])
  /\ Solana._compareParams Samples.sampleParams Samples.initPayload = true.
Proof. repeat split. Qed.

(* ===================================================================== *)
(** ** The transaction normalizer *)
(* ===================================================================== *)

Module NormalizeFacts.
Import Bitcoin.

Ltac lookup_fields :=
  repeat first
    [ rewrite lookup_insert_eq
    | rewrite lookup_insert_ne by discriminate
    | rewrite lookup_empty ].

Lemma truthyFee_Some (fee : option Qc) (f : Qc) :
  truthyFee fee = Some f <-> fee = Some f /\ f <> 0%Qc.
Proof.
  unfold truthyFee. destruct fee as [g|]; [|split; [discriminate | intros [? _]; discriminate]].
  destruct (decide (g = 0%Qc)) as [-> | Hg].
  - split; [discriminate | intros [[= <-] H]; congruence].
  - split; [intros [= <-]; auto | intros [[= <-] _]; reflexivity].
Qed.

Lemma truthyFee_None (fee : option Qc) :
  truthyFee fee = None <-> fee = None \/ fee = Some 0%Qc.
Proof.
  unfold truthyFee. destruct fee as [g|]; [|split; auto].
  destruct (decide (g = 0%Qc)) as [-> | Hg].
  - split; auto.
  - split; [discriminate | intros [? | [= ?]]; congruence].
Qed.

End NormalizeFacts.

(** C9 (as stated, refuted).  Without a block the result still has a
    confirmation count, and it is zero. *)
Lemma normalize_without_block_has_zero_confirmations :
  Bitcoin.normalizeTransactionObject BitcoinSamples.sampleTx None None !! "confirmations"
  = Some (Bitcoin.VNumber (Num 0%Qc))
  /\ Bitcoin.normalizeTransactionObject BitcoinSamples.sampleTx None None !! "confirmations"
     <> None.
Proof.
  unfold Bitcoin.normalizeTransactionObject. cbn [Bitcoin.truthyFee].
  NormalizeFacts.lookup_fields. split; [reflexivity | discriminate].
Qed.

(** C9 (amended).  The fee and the block are optional and independent.
    Without a fee (or with a fee of zero) the result has neither [fee] nor
    [feePrice]; with another fee it has both.  Without a block the result
    has neither [blockHash] nor [blockNumber], and its [confirmations] is
    zero; with a block it has the hash and the number of the block, and
    [confirmations] is the count of the transaction.  The fee does not
    change the block fields, nor the block the fee fields. *)
Theorem normalize_optional_fields
    (tx : Bitcoin.Transaction) (fee : option Qc) (block : option Bitcoin.Block) :
  let result := Bitcoin.normalizeTransactionObject tx fee block in
  (fee = None \/ fee = Some 0%Qc ->
     result !! "fee" = None /\ result !! "feePrice" = None)
  /\ (forall f, fee = Some f -> f <> 0%Qc ->
        result !! "fee" = Some (Bitcoin.VNumber (Num f))
        /\ result !! "feePrice"
           = Some (Bitcoin.VNumber (Math_round (divide f (Bitcoin.vsize tx)))))
  /\ (block = None ->
        result !! "blockHash" = None /\ result !! "blockNumber" = None
        /\ result !! "confirmations" = Some (Bitcoin.VNumber (Num 0%Qc)))
  /\ (forall b, block = Some b ->
        result !! "blockHash" = Some (Bitcoin.VString (Bitcoin.block_hash b))
        /\ result !! "blockNumber"
           = Some (Bitcoin.VNumber (Num (Qc_of_Z (Bitcoin.block_number b))))
        /\ result !! "confirmations"
           = Some (Bitcoin.ofOptionalInt (Bitcoin.confirmations tx)))
  /\ (result !! "fee" = Bitcoin.normalizeTransactionObject tx fee None !! "fee"
      /\ result !! "feePrice" = Bitcoin.normalizeTransactionObject tx fee None !! "feePrice")
  /\ (result !! "blockHash" = Bitcoin.normalizeTransactionObject tx None block !! "blockHash"
      /\ result !! "blockNumber"
         = Bitcoin.normalizeTransactionObject tx None block !! "blockNumber"
      /\ result !! "confirmations"
         = Bitcoin.normalizeTransactionObject tx None block !! "confirmations").
Proof.
  cbv zeta. unfold Bitcoin.normalizeTransactionObject.
  split; [|split; [|split; [|split; [|split]]]].
  - intros Hfee. apply NormalizeFacts.truthyFee_None in Hfee. rewrite Hfee.
    destruct block; NormalizeFacts.lookup_fields; split; reflexivity.
  - intros f Hfee Hf.
    assert (Bitcoin.truthyFee fee = Some f) as -> by (apply NormalizeFacts.truthyFee_Some; auto).
    destruct block; NormalizeFacts.lookup_fields; split; reflexivity.
  - intros ->.
    destruct (Bitcoin.truthyFee fee); NormalizeFacts.lookup_fields; repeat split; reflexivity.
  - intros b ->.
    destruct (Bitcoin.truthyFee fee); NormalizeFacts.lookup_fields; repeat split; reflexivity.
  - destruct block, (Bitcoin.truthyFee fee); NormalizeFacts.lookup_fields; split; reflexivity.
  - destruct block, (Bitcoin.truthyFee fee); cbn [Bitcoin.truthyFee];
      NormalizeFacts.lookup_fields; repeat split; reflexivity.
Qed.

(** The sample transaction with fee and block, and with neither. *)
Lemma normalize_optional_fields_witness :
  (Bitcoin.normalizeTransactionObject BitcoinSamples.sampleTx (Some (Qc_of_Z 1100))
     (Some BitcoinSamples.sampleBlock) !! "fee" = Some (Bitcoin.VNumber (Num (Qc_of_Z 1100)))
   /\ Bitcoin.normalizeTransactionObject BitcoinSamples.sampleTx (Some (Qc_of_Z 1100))
        (Some BitcoinSamples.sampleBlock) !! "blockHash" = Some (Bitcoin.VString "b10c")
   /\ Bitcoin.normalizeTransactionObject BitcoinSamples.sampleTx (Some (Qc_of_Z 1100))
        (Some BitcoinSamples.sampleBlock) !! "confirmations"
      = Some (Bitcoin.VNumber (Num (Qc_of_Z 6))))
  /\ (Bitcoin.normalizeTransactionObject BitcoinSamples.sampleTx None None !! "fee" = None
      /\ Bitcoin.normalizeTransactionObject BitcoinSamples.sampleTx None None !! "blockHash"
         = None).
Proof.
  split.
  - pose proof (normalize_optional_fields BitcoinSamples.sampleTx (Some (Qc_of_Z 1100))
                  (Some BitcoinSamples.sampleBlock)) as H.
    cbv zeta in H. destruct H as (_ & Hfee & _ & Hblock & _).
    destruct (Hfee (Qc_of_Z 1100) eq_refl) as [Hf _].
    { intros H0. apply (f_equal this) in H0. vm_compute in H0. discriminate H0. }
    destruct (Hblock BitcoinSamples.sampleBlock eq_refl) as (Hh & _ & Hc).
    repeat split; assumption.
  - pose proof (normalize_optional_fields BitcoinSamples.sampleTx None None) as H.
    cbv zeta in H. destruct H as (Hnofee & _ & Hnoblock & _).
    destruct (Hnofee (or_introl eq_refl)) as [Hf _].
    destruct (Hnoblock eq_refl) as (Hh & _).
    split; assumption.
Defined.

(* ===================================================================== *)
(** ** More on the swap matcher: collaborators, failures, finders *)
(* ===================================================================== *)

Module MatcherFacts.
Import Solana SolanaSpec MatcherSpec.

(** [_batchSignatures] never reaches its [TypeError]. *)
Lemma batchSignatures_total (history : list PastTx) :
  exists chunks, _batchSignatures history = Normal chunks.
Proof.
  destruct (BatcherFacts.batchSignatures_shape history) as (full & cur & Hrun & _).
  eauto.
Qed.

Lemma promiseAll_Normal {A} (ps : list (Completion A)) (l : list A) :
  promiseAll ps = Normal l <-> ps = map Normal l.
Proof.
  revert l. induction ps as [| p ps IH]; intros l; cbn [promiseAll].
  - destruct l; cbn [map]; split; intros H; first [reflexivity | discriminate H].
  - destruct p as [a | e]; cbn [bind].
    + destruct (promiseAll ps) as [l' | e'] eqn:Hps; cbn [bind].
      * split.
        -- intros [= <-]. cbn [map]. f_equal. apply IH. reflexivity.
        -- destruct l as [| a' l'']; [discriminate|]. cbn [map].
           intros [= -> Hrest]. apply IH in Hrest. congruence.
      * split; [discriminate|].
        destruct l as [| a' l'']; [discriminate|]. cbn [map].
        intros [= -> Hrest]. apply IH in Hrest. discriminate.
    + split; [discriminate|]. destruct l; discriminate.
Qed.

Lemma promiseAll_Throw {A} (ps : list (Completion A)) (e : Error) :
  promiseAll ps = Throw e -> Throw e ∈ ps.
Proof.
  induction ps as [| p ps IH]; cbn [promiseAll]; [discriminate|].
  destruct p as [a | e']; cbn [bind].
  - destruct (promiseAll ps) as [l' | e'']; cbn [bind]; [discriminate|].
    intros [= ->]. apply list_elem_of_further, IH. reflexivity.
  - intros [= ->]. apply list_elem_of_here.
Qed.

Lemma promiseAll_some_Throw {A} (ps : list (Completion A)) :
  Exists (fun p => exists e, p = Throw e) ps -> exists e, promiseAll ps = Throw e.
Proof.
  induction 1 as [p ps [e ->] | p ps _ [e IH]]; cbn [promiseAll bind].
  - eauto.
  - destruct p as [a | e']; cbn [bind]; [rewrite IH; cbn [bind]|]; eauto.
Qed.

Section Scanning.
Variable swapParams : SwapParams.
Variable instr : Z.
Variable validation : option Validation.

Local Abbreviation stopsAt := (MatcherSpec.stopsAt swapParams instr validation).
Local Abbreviation passesOver := (MatcherSpec.passesOver swapParams instr validation).

Lemma scanRow_Some (row : list Transaction) (t : Transaction) :
  scanRow swapParams instr validation row = Normal (Some t) ->
  t ∈ row /\ stopsAt t.
Proof.
  induction row as [| data rest IH]; cbn [scanRow]; [discriminate|].
  assert (scanRow swapParams instr validation rest = Normal (Some t) ->
          t ∈ data :: rest /\ stopsAt t) as Hrest.
  { intros H. destruct (IH H). split; [apply list_elem_of_further|]; assumption. }
  destruct (_raw data) as [raw|] eqn:Hraw; [|exact Hrest].
  destruct (Z.eqb_spec (instruction raw) instr) as [Htag | Htag]; [|exact Hrest].
  destruct (Z.eqb_spec instr (refund instructions)) as [Href | Href].
  - intros [= <-]. split; [apply list_elem_of_here|].
    exists raw. auto.
  - destruct validation as [validate|] eqn:Hval; [|discriminate].
    destruct (validate swapParams raw) eqn:Hok; [|exact Hrest].
    rewrite ScanFacts.setSecret_same. intros [= <-].
    split; [apply list_elem_of_here|]. exists raw. eauto 6.
Qed.

Lemma scanRow_None (row : list Transaction) :
  scanRow swapParams instr validation row = Normal None ->
  Forall passesOver row.
Proof.
  induction row as [| data rest IH]; cbn [scanRow]; [constructor|].
  destruct (_raw data) as [raw|] eqn:Hraw.
  - destruct (Z.eqb_spec (instruction raw) instr) as [Htag | Htag].
    + destruct (Z.eqb_spec instr (refund instructions)) as [Href | Href]; [discriminate|].
      destruct validation as [validate|] eqn:Hval; [|discriminate].
      destruct (validate swapParams raw) eqn:Hok; [rewrite ScanFacts.setSecret_same; discriminate|].
      intros H. constructor; [|exact (IH H)].
      right. split; [exact Href|]. eauto 6.
    + intros H. constructor; [|exact (IH H)].
      left. unfold hasTag. rewrite Hraw. apply Z.eqb_neq. exact Htag.
  - intros H. constructor; [|exact (IH H)].
    left. unfold hasTag. rewrite Hraw. reflexivity.
Qed.

Lemma scanMatrix_Some (matrix : list (list Transaction)) (t : Transaction) :
  scanMatrix swapParams instr validation matrix = Normal (Some t) ->
  exists row, row ∈ matrix /\ t ∈ row /\ stopsAt t.
Proof.
  induction matrix as [| row rest IH]; cbn [scanMatrix]; [discriminate|].
  destruct (scanRow swapParams instr validation row) as [[t' |] | e] eqn:Hrow; cbn [bind].
  - intros [= <-]. destruct (scanRow_Some _ _ Hrow). exists row.
    split; [apply list_elem_of_here | auto].
  - intros H. destruct (IH H) as (row' & Hin & Ht).
    exists row'. split; [apply list_elem_of_further; exact Hin | exact Ht].
  - discriminate.
Qed.

Lemma scanMatrix_None (matrix : list (list Transaction)) :
  scanMatrix swapParams instr validation matrix = Normal None ->
  Forall (Forall passesOver) matrix.
Proof.
  induction matrix as [| row rest IH]; cbn [scanMatrix]; [constructor|].
  destruct (scanRow swapParams instr validation row) as [[t' |] | e] eqn:Hrow; cbn [bind];
    try discriminate.
  intros H. constructor; [apply scanRow_None; exact Hrow | exact (IH H)].
Qed.
End Scanning.

(** The three ways a run can go once the history has been answered. *)
Lemma run_cases this address swapParams instr validation history :
  getAddressHistory this address = Normal history ->
  exists chunks,
    _batchSignatures history = Normal chunks
    /\ trace (_findTransactionByAddress this address swapParams instr validation)
       = GetAddressHistory address :: map GetParsedAndConfirmedTransactions chunks
    /\ outcome (_findTransactionByAddress this address swapParams instr validation)
       = (matrix <- promiseAll (map (getParsedAndConfirmedTransactions this) chunks) ;;
          scanMatrix swapParams instr validation matrix).
Proof.
  intros Hhist. destruct (batchSignatures_total history) as [chunks Hchunks].
  exists chunks. split; [exact Hchunks|].
  rewrite (ScanFacts.findTransactionByAddress_run _ _ _ _ _ _ _ Hhist Hchunks).
  split; reflexivity.
Qed.

End MatcherFacts.

Module MatcherProps.
Import Solana SolanaSpec MatcherSpec.

(** X1. Whatever the collaborators answer, a transaction returned by
    [_findTransactionByAddress] is one of the transactions a requested
    batch was answered with, returned as fetched; it carries the requested
    tag, and unless the phase is the refund phase the supplied predicate
    holds of its payload. *)
Theorem returned_transaction_was_fetched_and_accepted
    (this : Provider) (address : string) (swapParams : SwapParams) (instr : Z)
    (validation : option Validation) (t : Transaction) :
  outcome (_findTransactionByAddress this address swapParams instr validation)
  = Normal (Some t) ->
  exists refs fetched,
    GetParsedAndConfirmedTransactions refs
      ∈ trace (_findTransactionByAddress this address swapParams instr validation)
    /\ getParsedAndConfirmedTransactions this refs = Normal fetched
    /\ t ∈ fetched
    /\ stopsAt swapParams instr validation t.
Proof.
  destruct (getAddressHistory this address) as [history | e] eqn:Hhist.
  - destruct (MatcherFacts.run_cases this address swapParams instr validation history Hhist)
      as (chunks & _ & Htrace & Hout).
    rewrite Hout, Htrace.
    destruct (promiseAll _) as [matrix | e] eqn:Hall; cbn [bind]; [|discriminate].
    apply MatcherFacts.promiseAll_Normal in Hall.
    intros Hscan. apply MatcherFacts.scanMatrix_Some in Hscan as (row & Hrow & Ht & Hstop).
    assert (Normal row ∈ map (getParsedAndConfirmedTransactions this) chunks) as Hin.
    { rewrite Hall. apply list_elem_of_fmap. eauto. }
    apply list_elem_of_fmap in Hin as (refs & Hrefs & Hchunk).
    exists refs, row. repeat split; try assumption; [|symmetry; exact Hrefs].
    apply list_elem_of_further. apply list_elem_of_fmap. eauto.
  - unfold _findTransactionByAddress, request, outcome. rewrite Hhist. cbn. discriminate.
Qed.

(** A run over the seller's sample history. *)
Lemma returned_transaction_was_fetched_and_accepted_witness :
  exists refs fetched,
    GetParsedAndConfirmedTransactions refs
      ∈ trace (_findTransactionByAddress Samples.sampleProvider "seller1"
                 Samples.sampleParams (init instructions) (Some _compareParams))
    /\ getParsedAndConfirmedTransactions Samples.sampleProvider refs = Normal fetched
    /\ Samples.fetched "sig3" (Some Samples.initPayload) ∈ fetched
    /\ stopsAt Samples.sampleParams (init instructions) (Some _compareParams)
         (Samples.fetched "sig3" (Some Samples.initPayload)).
Proof.
  apply (returned_transaction_was_fetched_and_accepted Samples.sampleProvider "seller1"
           Samples.sampleParams (init instructions) (Some _compareParams)).
  reflexivity.
Defined.

(** X2. Whatever the collaborators answer, when [_findTransactionByAddress]
    returns nothing, every transaction of every answered batch was passed
    over: it has another tag or no payload, or the predicate rejected it. *)
Theorem absent_result_means_all_passed_over
    (this : Provider) (address : string) (swapParams : SwapParams) (instr : Z)
    (validation : option Validation) :
  outcome (_findTransactionByAddress this address swapParams instr validation)
  = Normal None ->
  forall refs fetched t,
    GetParsedAndConfirmedTransactions refs
      ∈ trace (_findTransactionByAddress this address swapParams instr validation) ->
    getParsedAndConfirmedTransactions this refs = Normal fetched ->
    t ∈ fetched ->
    passesOver swapParams instr validation t.
Proof.
  destruct (getAddressHistory this address) as [history | e] eqn:Hhist.
  - destruct (MatcherFacts.run_cases this address swapParams instr validation history Hhist)
      as (chunks & _ & Htrace & Hout).
    rewrite Hout, Htrace.
    destruct (promiseAll _) as [matrix | e] eqn:Hall; cbn [bind]; [|discriminate].
    apply MatcherFacts.promiseAll_Normal in Hall.
    intros Hscan refs fetched t Hreq Hfetched Ht.
    apply MatcherFacts.scanMatrix_None in Hscan.
    apply elem_of_cons in Hreq as [Hreq | Hreq]; [discriminate Hreq|].
    apply list_elem_of_fmap in Hreq as (refs' & [= <-] & Hchunk).
    assert (Normal fetched ∈ map Normal matrix) as Hin.
    { rewrite <- Hall, <- Hfetched. apply list_elem_of_fmap. eauto. }
    apply list_elem_of_fmap in Hin as (row & [= <-] & Hrow).
    rewrite Forall_forall in Hscan. specialize (Hscan _ Hrow).
    rewrite Forall_forall in Hscan. apply Hscan. exact Ht.
  - unfold _findTransactionByAddress, request, outcome. rewrite Hhist. cbn. discriminate.
Qed.

(** The buyer's sample history holds a claim only: nothing for an
    initiation. *)
Lemma absent_result_means_all_passed_over_witness :
  passesOver Samples.sampleParams (init instructions) (Some _compareParams)
    (Samples.fetched "sig4" (Some Samples.claimPayload)).
Proof.
  apply (absent_result_means_all_passed_over Samples.sampleProvider "buyer1"
           Samples.sampleParams (init instructions) (Some _compareParams) eq_refl
           ["sig4"] [Samples.fetched "sig4" (Some Samples.claimPayload)]).
  - apply list_elem_of_further, list_elem_of_here.
  - reflexivity.
  - apply list_elem_of_here.
Defined.

(** X3. Once the history of [n] entries is answered, and with a
    collaborator that answers every fetch, the requests sent are the
    history request followed by one fetch per batch: [max 1 (ceil (n /
    100))] fetches of at most 100 references each (none empty unless the
    history is), which together ask for every signature of the history
    exactly in its order. *)
Theorem requests_sent
    (this : Provider) (address : string) (swapParams : SwapParams) (instr : Z)
    (validation : option Validation) (history : list PastTx) :
  getAddressHistory this address = Normal history ->
  (forall refs, exists fetched,
      getParsedAndConfirmedTransactions this refs = Normal fetched) ->
  exists chunks,
    trace (_findTransactionByAddress this address swapParams instr validation)
    = GetAddressHistory address :: map GetParsedAndConfirmedTransactions chunks
    /\ concat chunks = map signature history
    /\ length chunks = batchCount (length history)
    /\ Forall (fun chunk => (length chunk <= 100)%nat) chunks
    /\ (history <> [] -> Forall (fun chunk => (1 <= length chunk)%nat) chunks).
Proof.
  intros Hhist _.
  destruct (BatcherFacts.batchSignatures_shape history)
    as (full & cur & Hrun & Hconcat & Hclosed & Hle & Hge & Hcount).
  exists (full ++ [cur]).
  rewrite (ScanFacts.findTransactionByAddress_run _ _ _ _ _ _ _ Hhist Hrun).
  split; [reflexivity|]. split; [exact Hconcat|]. split; [|split].
  - rewrite length_app. cbn [length]. unfold batchCount.
    destruct (length history) as [| n] eqn:Hn; [lia|].
    assert (history <> []) as Hne by (intros ->; discriminate).
    specialize (Hge Hne).
    pose proof (Nat.div_mod_eq (S n + 99) 100) as Hdm.
    pose proof (Nat.mod_upper_bound (S n + 99) 100 ltac:(lia)) as Hub.
    lia.
  - apply Forall_app; split.
    + eapply Forall_impl; [exact Hclosed|]. cbn; intros b Hb; lia.
    + constructor; [exact Hle | constructor].
  - intros Hne. specialize (Hge Hne). apply Forall_app; split.
    + eapply Forall_impl; [exact Hclosed|]. cbn; intros b Hb; lia.
    + constructor; [exact Hge | constructor].
Qed.

(** The sample history of 250 entries costs three fetches. *)
Lemma requests_sent_witness :
  exists chunks,
    trace (_findTransactionByAddress
             {| getAddressHistory := fun _ => Normal Samples.history250;
                getParsedAndConfirmedTransactions := fun _ => Normal [] |}
             "seller1" Samples.sampleParams (refund instructions) None)
    = GetAddressHistory "seller1" :: map GetParsedAndConfirmedTransactions chunks
    /\ length chunks = 3%nat.
Proof.
  destruct (requests_sent
              {| getAddressHistory := fun _ => Normal Samples.history250;
                 getParsedAndConfirmedTransactions := fun _ => Normal [] |}
              "seller1" Samples.sampleParams (refund instructions) None
              Samples.history250 eq_refl
              (fun _ => ex_intro _ [] eq_refl)) as (chunks & Htrace & _ & Hlen & _).
  exists chunks. split; [exact Htrace | exact Hlen].
Defined.

End MatcherProps.

Module MatcherFailures.
Import Solana SolanaSpec MatcherSpec.

Lemma scanRow_without_validation swapParams instr (row : list Transaction) :
  instr <> refund instructions ->
  scanRow swapParams instr None row
  = if existsb (hasTag instr) row
    then Throw (TypeError "validation is not a function")
    else Normal None.
Proof.
  intros Hne. apply Z.eqb_neq in Hne.
  induction row as [| data rest IH]; cbn [scanRow existsb]; [reflexivity|].
  unfold hasTag at 1. destruct (_raw data) as [raw|]; cbn [orb]; [|exact IH].
  destruct (Z.eqb (instruction raw) instr); cbn [orb]; [|exact IH].
  rewrite Hne. reflexivity.
Qed.

Lemma scanMatrix_without_validation swapParams instr (matrix : list (list Transaction)) :
  instr <> refund instructions ->
  scanMatrix swapParams instr None matrix
  = if existsb (hasTag instr) (concat matrix)
    then Throw (TypeError "validation is not a function")
    else Normal None.
Proof.
  intros Hne.
  induction matrix as [| row rest IH]; cbn [scanMatrix concat]; [reflexivity|].
  rewrite scanRow_without_validation, existsb_app by exact Hne.
  destruct (existsb (hasTag instr) row); cbn [bind orb]; [reflexivity | exact IH].
Qed.

Lemma scanRow_refund sp1 sp2 v1 v2 (row : list Transaction) :
  scanRow sp1 (refund instructions) v1 row = scanRow sp2 (refund instructions) v2 row.
Proof.
  induction row as [| data rest IH]; cbn [scanRow]; [reflexivity|].
  destruct (_raw data) as [raw|]; [|exact IH].
  destruct (Z.eqb (instruction raw) (refund instructions)); [|exact IH].
  rewrite Z.eqb_refl. reflexivity.
Qed.

Lemma scanMatrix_refund sp1 sp2 v1 v2 (matrix : list (list Transaction)) :
  scanMatrix sp1 (refund instructions) v1 matrix
  = scanMatrix sp2 (refund instructions) v2 matrix.
Proof.
  induction matrix as [| row rest IH]; cbn [scanMatrix]; [reflexivity|].
  rewrite (scanRow_refund sp1 sp2 v1 v2 row), IH. reflexivity.
Qed.

(** X4. A failing collaborator aborts the search with its own error.  When
    the history request fails, the search fails with that error and
    nothing is fetched.  When the fetch of some batch fails, the search
    fails with the error of a failed fetch: no transaction is returned,
    also when another batch holds one that would be accepted. *)
Theorem collaborator_failure_aborts
    (this : Provider) (address : string) (swapParams : SwapParams) (instr : Z)
    (validation : option Validation) :
  (forall e,
      getAddressHistory this address = Throw e ->
      outcome (_findTransactionByAddress this address swapParams instr validation)
      = Throw e
      /\ forall refs,
           GetParsedAndConfirmedTransactions refs
             ∉ trace (_findTransactionByAddress this address swapParams instr validation))
  /\ (forall history chunks,
        getAddressHistory this address = Normal history ->
        _batchSignatures history = Normal chunks ->
        Exists (fun refs => exists e, getParsedAndConfirmedTransactions this refs = Throw e)
               chunks ->
        exists refs e,
          refs ∈ chunks
          /\ getParsedAndConfirmedTransactions this refs = Throw e
          /\ outcome (_findTransactionByAddress this address swapParams instr validation)
             = Throw e).
Proof.
  split.
  - intros e Hhist. unfold _findTransactionByAddress, request. rewrite Hhist.
    cbn [ebind outcome trace fst snd]. split; [reflexivity|].
    intros refs Hin. apply list_elem_of_singleton in Hin. discriminate Hin.
  - intros history chunks Hhist Hchunks Hfail.
    rewrite (ScanFacts.findTransactionByAddress_run _ _ _ _ _ _ _ Hhist Hchunks).
    assert (Exists (fun p => exists e, p = Throw e)
                   (map (getParsedAndConfirmedTransactions this) chunks)) as Hex.
    { apply Exists_fmap. exact Hfail. }
    apply MatcherFacts.promiseAll_some_Throw in Hex as [e He].
    pose proof (MatcherFacts.promiseAll_Throw _ _ He) as Hin.
    apply list_elem_of_fmap in Hin as (refs & Hrefs & Hchunk).
    exists refs, e. rewrite He. cbn [bind outcome fst]. auto.
Qed.

(** A provider whose fetches all fail. *)
Lemma collaborator_failure_aborts_witness :
  exists refs e,
    refs ∈ [["sig1"]]
    /\ Throw (A := list Transaction) (OtherError "503") = Throw e
    /\ outcome
         (_findTransactionByAddress
            {| getAddressHistory := fun _ => Normal [Build_PastTx "sig1"];
               getParsedAndConfirmedTransactions := fun _ => Throw (OtherError "503") |}
            "seller1" Samples.sampleParams (init instructions) (Some _compareParams))
       = Throw e.
Proof.
  apply (proj2 (collaborator_failure_aborts
                  {| getAddressHistory := fun _ => Normal [Build_PastTx "sig1"];
                     getParsedAndConfirmedTransactions := fun _ => Throw (OtherError "503") |}
                  "seller1" Samples.sampleParams (init instructions) (Some _compareParams))
               [Build_PastTx "sig1"] [["sig1"]] eq_refl eq_refl).
  constructor. exists (OtherError "503"). reflexivity.
Defined.

(** X5. Searching for a tag other than the refund tag without a predicate:
    the search fails with a [TypeError] as soon as the history holds a
    transaction with that tag, and returns nothing when it holds none. *)
Theorem search_without_predicate
    (this : Provider) (address : string) (swapParams : SwapParams) (instr : Z)
    (history : list PastTx) (lookupTx : string -> option Transaction) :
  instr <> refund instructions ->
  getAddressHistory this address = Normal history ->
  answersInOrder this lookupTx ->
  outcome (_findTransactionByAddress this address swapParams instr None)
  = if existsb (hasTag instr) (omap lookupTx (map signature history))
    then Throw (TypeError "validation is not a function")
    else Normal None.
Proof.
  intros Hne Hhist Hfetch.
  destruct (BatcherFacts.batchSignatures_shape history)
    as (full & cur & Hrun & Hconcat & _).
  rewrite (ScanFacts.findTransactionByAddress_run _ _ _ _ _ _ _ Hhist Hrun).
  unfold outcome; cbn [fst].
  rewrite (ScanFacts.promiseAll_answers _ _ _ Hfetch). cbn [bind].
  rewrite scanMatrix_without_validation by exact Hne.
  rewrite ScanFacts.omap_concat, Hconcat. reflexivity.
Qed.

(** The seller's history holds initiations, the buyer's does not. *)
Lemma search_without_predicate_witness :
  outcome (_findTransactionByAddress Samples.sampleProvider "seller1"
             Samples.sampleParams (init instructions) None)
  = Throw (TypeError "validation is not a function")
  /\ outcome (_findTransactionByAddress Samples.sampleProvider "buyer1"
                Samples.sampleParams (init instructions) None)
     = Normal None.
Proof.
  split.
  - apply (search_without_predicate Samples.sampleProvider "seller1" Samples.sampleParams
             (init instructions)
             (map Build_PastTx ["sig1"; "sig2"; "sig3"; "sig4"; "sig5"]) Samples.ledger);
      [discriminate | reflexivity | intros refs; reflexivity].
  - apply (search_without_predicate Samples.sampleProvider "buyer1" Samples.sampleParams
             (init instructions) (map Build_PastTx ["sig4"]) Samples.ledger);
      [discriminate | reflexivity | intros refs; reflexivity].
Defined.

Lemma refund_run_same (this : Provider) (address : string) (sp1 sp2 : SwapParams)
    (v1 v2 : option Validation) :
  _findTransactionByAddress this address sp1 (refund instructions) v1
  = _findTransactionByAddress this address sp2 (refund instructions) v2.
Proof.
  destruct (getAddressHistory this address) as [history | e] eqn:Hhist.
  - destruct (MatcherFacts.batchSignatures_total history) as [chunks Hchunks].
    rewrite !(ScanFacts.findTransactionByAddress_run _ _ _ _ _ _ _ Hhist Hchunks).
    destruct (promiseAll _) as [matrix | e]; cbn [bind]; [|reflexivity].
    rewrite (scanMatrix_refund sp1 sp2 v1 v2). reflexivity.
  - unfold _findTransactionByAddress, request. rewrite Hhist. reflexivity.
Qed.

(** X6. A search for the refund tag depends neither on the predicate nor
    on the swap parameters: same result, same requests, for every
    collaborator. *)
Theorem refund_search_ignores_predicate_and_parameters
    (this : Provider) (address : string) (sp1 sp2 : SwapParams)
    (v1 v2 : option Validation) :
  _findTransactionByAddress this address sp1 (refund instructions) v1
  = _findTransactionByAddress this address sp2 (refund instructions) v2.
Proof.
  destruct (getAddressHistory this address) as [history | e] eqn:Hhist.
  - destruct (MatcherFacts.batchSignatures_total history) as [chunks Hchunks].
    rewrite !(ScanFacts.findTransactionByAddress_run _ _ _ _ _ _ _ Hhist Hchunks).
    destruct (promiseAll _) as [matrix | e]; cbn [bind]; [|reflexivity].
    rewrite (scanMatrix_refund sp1 sp2 v1 v2). reflexivity.
  - unfold _findTransactionByAddress, request. rewrite Hhist. reflexivity.
Qed.

End MatcherFailures.

Module FinderProps.
Import Solana SolanaSpec MatcherSpec.

Lemma outcome_first_accepted this address swapParams instr validate history lookupTx :
  getAddressHistory this address = Normal history ->
  answersInOrder this lookupTx ->
  outcome (_findTransactionByAddress this address swapParams instr (Some validate))
  = Normal (List.find (accepted swapParams instr validate)
                      (omap lookupTx (map signature history))).
Proof.
  intros Hhist Hfetch.
  destruct (BatcherFacts.batchSignatures_shape history)
    as (full & cur & Hrun & Hconcat & _).
  rewrite (ScanFacts.findTransactionByAddress_run _ _ _ _ _ _ _ Hhist Hrun).
  unfold outcome; cbn [fst].
  rewrite (ScanFacts.promiseAll_answers _ _ _ Hfetch). cbn [bind].
  rewrite (ScanFacts.scanMatrix_find _ _ _ validate) by (right; reflexivity).
  rewrite ScanFacts.omap_concat, Hconcat. reflexivity.
Qed.

Lemma trace_starts_with_history this address swapParams instr validation :
  exists rest,
    trace (_findTransactionByAddress this address swapParams instr validation)
    = GetAddressHistory address :: rest.
Proof.
  unfold _findTransactionByAddress, request.
  destruct (getAddressHistory this address) as [history | e]; cbn [ebind].
  - destruct (ebind _ _) as [r t]. cbn. eauto.
  - cbn. eauto.
Qed.

Lemma find_ext {A} (p q : A -> bool) (l : list A) :
  (forall x, p x = q x) -> List.find p l = List.find q l.
Proof.
  intros Hpq. induction l as [| x l IH]; cbn [List.find]; [reflexivity|].
  rewrite Hpq, IH. reflexivity.
Qed.

Lemma findClaim_run sha256 this swapParams initiationTxHash initTransaction others payload :
  getParsedAndConfirmedTransactions this [initiationTxHash]
  = Normal (initTransaction :: others) ->
  _raw initTransaction = Some payload ->
  findClaimSwapTransaction sha256 this swapParams initiationTxHash
  = (outcome (_findTransactionByAddress this (buyer payload) swapParams
                (claim instructions) (Some (_validateSecret sha256))),
     GetParsedAndConfirmedTransactions [initiationTxHash]
     :: trace (_findTransactionByAddress this (buyer payload) swapParams
                 (claim instructions) (Some (_validateSecret sha256)))).
Proof.
  intros Hfetch Hraw. unfold findClaimSwapTransaction, request.
  rewrite Hfetch. cbn [ebind]. rewrite Hraw.
  destruct (_findTransactionByAddress _ _ _ _ _) as [r t]. reflexivity.
Qed.

Lemma findRefund_run this swapParams initiationTxHash initTransaction others payload :
  getParsedAndConfirmedTransactions this [initiationTxHash]
  = Normal (initTransaction :: others) ->
  _raw initTransaction = Some payload ->
  findRefundSwapTransaction this swapParams initiationTxHash
  = (outcome (_findTransactionByAddress this (seller payload) swapParams
                (refund instructions) None),
     GetParsedAndConfirmedTransactions [initiationTxHash]
     :: trace (_findTransactionByAddress this (seller payload) swapParams
                 (refund instructions) None)).
Proof.
  intros Hfetch Hraw. unfold findRefundSwapTransaction, request.
  rewrite Hfetch. cbn [ebind]. rewrite Hraw.
  destruct (_findTransactionByAddress _ _ _ _ _) as [r t]. reflexivity.
Qed.

Lemma find_all_false {A} (p : A -> bool) (l : list A) :
  (forall x, p x = false) -> List.find p l = None.
Proof.
  intros Hp. induction l as [| x l IH]; cbn [List.find]; [reflexivity|].
  rewrite Hp. exact IH.
Qed.

Lemma accepted_initiation swapParams recipient refundTo (t : Transaction) :
  recipientAddress swapParams = AddrString recipient ->
  refundAddress swapParams = AddrString refundTo ->
  accepted swapParams (init instructions) _compareParams t
  = isInitiation recipient refundTo swapParams t.
Proof.
  intros Hrecipient Hrefund. unfold accepted, isInitiation, _compareParams.
  destruct (_raw t) as [payload|]; [|reflexivity].
  rewrite Hrecipient, Hrefund. cbn [strictEqString].
  change (Z.eqb (init instructions) (refund instructions)) with false. cbv iota.
  rewrite (String.eqb_sym recipient), (String.eqb_sym refundTo),
    (String.eqb_sym (secretHash swapParams)), (Z.eqb_sym (sp_value swapParams)),
    (Z.eqb_sym (safe_value (sp_expiration swapParams))).
  rewrite !andb_assoc. reflexivity.
Qed.

(** X7. [findInitiateSwapTransaction] searches the history of the refund
    address (as [addressToString] renders it).  When the two addresses of
    the swap parameters are strings, it returns the first transaction
    there that is tagged as an initiation and whose payload has these
    addresses as buyer and seller and the secret hash, value and
    expiration of the swap, or nothing.  When one of the two addresses is
    an [Address] object it returns nothing, whatever the history holds. *)
Theorem findInitiate_first_matching_initiation
    (addressToString : AddressLike -> string)
    (this : Provider) (swapParams : SwapParams)
    (history : list PastTx) (lookupTx : string -> option Transaction) :
  getAddressHistory this (addressToString (refundAddress swapParams)) = Normal history ->
  answersInOrder this lookupTx ->
  (forall recipient refundTo,
      recipientAddress swapParams = AddrString recipient ->
      refundAddress swapParams = AddrString refundTo ->
      outcome (findInitiateSwapTransaction addressToString this swapParams)
      = Normal (List.find (isInitiation recipient refundTo swapParams)
                          (omap lookupTx (map signature history))))
  /\ (forall o,
        recipientAddress swapParams = AddrObject o
        \/ refundAddress swapParams = AddrObject o ->
        outcome (findInitiateSwapTransaction addressToString this swapParams)
        = Normal None).
Proof.
  intros Hhist Hfetch. unfold findInitiateSwapTransaction.
  rewrite (outcome_first_accepted _ _ _ _ _ _ _ Hhist Hfetch). split.
  - intros recipient refundTo Hrecipient Hrefund. f_equal.
    apply find_ext. intros t. apply accepted_initiation; assumption.
  - intros o Hobject. f_equal. apply find_all_false. intros t. unfold accepted.
    destruct (_raw t) as [payload|]; [|reflexivity].
    destruct Hobject as [H | H].
    + rewrite (MatchFacts.compareParams_address_object _ _ _ H). apply andb_false_r.
    + rewrite (MatchFacts.compareParams_refund_object _ _ _ H). apply andb_false_r.
Qed.

(** The sample swap: the third transaction of the seller's history; with
    the refund address as an object, nothing. *)
Lemma findInitiate_first_matching_initiation_witness :
  outcome (findInitiateSwapTransaction Samples.sampleAddressToString Samples.sampleProvider
             Samples.sampleParams)
  = Normal (List.find (isInitiation "buyer1" "seller1" Samples.sampleParams)
              [Samples.fetched "sig1" None;
               Samples.fetched "sig2" (Some Samples.cheapInitPayload);
               Samples.fetched "sig3" (Some Samples.initPayload);
               Samples.fetched "sig4" (Some Samples.claimPayload);
               Samples.fetched "sig5" None])
  /\ outcome (findInitiateSwapTransaction Samples.sampleAddressToString
                Samples.sampleProvider Samples.objectParams)
     = Normal None.
Proof.
  split.
  - apply (proj1 (findInitiate_first_matching_initiation Samples.sampleAddressToString
                    Samples.sampleProvider Samples.sampleParams
                    (map Build_PastTx ["sig1"; "sig2"; "sig3"; "sig4"; "sig5"])
                    Samples.ledger eq_refl (fun refs => eq_refl))
                 "buyer1" "seller1" eq_refl eq_refl).
  - apply (proj2 (findInitiate_first_matching_initiation Samples.sampleAddressToString
                    Samples.sampleProvider Samples.objectParams
                    (map Build_PastTx ["sig1"; "sig2"; "sig3"; "sig4"; "sig5"])
                    Samples.ledger eq_refl (fun refs => eq_refl))
                 {| address := "seller1"; derivationPath := None |}).
    right. reflexivity.
Defined.

(** X8. When the initiation is fetched, and every transaction of the
    buyer's history that carries the claim tag reveals a secret,
    [findClaimSwapTransaction] searches the history of the buyer named in
    the initiation's payload (not the recipient of the swap parameters)
    and returns the first transaction there that is tagged as a claim and
    whose revealed secret hashes to the secret hash of the swap, or
    nothing.  Its first two requests are the fetch of the initiation and
    the buyer's history. *)
Theorem findClaim_first_valid_claim
    (sha256 : option string -> string)
    (this : Provider) (swapParams : SwapParams) (initiationTxHash : string)
    (initTransaction : Transaction) (initPayload : Raw)
    (history : list PastTx) (lookupTx : string -> option Transaction) :
  answersInOrder this lookupTx ->
  lookupTx initiationTxHash = Some initTransaction ->
  _raw initTransaction = Some initPayload ->
  getAddressHistory this (buyer initPayload) = Normal history ->
  forallb claimRevealsSecret (omap lookupTx (map signature history)) = true ->
  outcome (findClaimSwapTransaction sha256 this swapParams initiationTxHash)
  = Normal (List.find (isClaim sha256 swapParams) (omap lookupTx (map signature history)))
  /\ exists rest,
       trace (findClaimSwapTransaction sha256 this swapParams initiationTxHash)
       = GetParsedAndConfirmedTransactions [initiationTxHash]
         :: GetAddressHistory (buyer initPayload) :: rest.
Proof.
  intros Hfetch Hinit Hraw Hhist _.
  rewrite (findClaim_run sha256 this swapParams initiationTxHash initTransaction []
             initPayload)
    by first [exact Hraw | rewrite Hfetch; cbn [omap list_omap]; rewrite Hinit; reflexivity].
  cbn [outcome trace fst snd]. split.
  - rewrite (outcome_first_accepted _ _ _ _ _ _ _ Hhist Hfetch). reflexivity.
  - destruct (trace_starts_with_history this (buyer initPayload) swapParams
                (claim instructions) (Some (_validateSecret sha256))) as [rest Hrest].
    cbn [trace] in Hrest. rewrite Hrest. eauto.
Qed.

(** The sample swap: the claim in the buyer's history. *)
Lemma findClaim_first_valid_claim_witness :
  outcome (findClaimSwapTransaction Samples.sampleSha256 Samples.sampleProvider
             Samples.sampleParams "sig3")
  = Normal (Some (Samples.fetched "sig4" (Some Samples.claimPayload))).
Proof.
  apply (findClaim_first_valid_claim Samples.sampleSha256 Samples.sampleProvider
           Samples.sampleParams "sig3"
           (Samples.fetched "sig3" (Some Samples.initPayload)) Samples.initPayload
           (map Build_PastTx ["sig4"]) Samples.ledger);
    [intros refs; reflexivity | reflexivity | reflexivity | reflexivity | reflexivity].
Defined.

(** X9. When the initiation is fetched, [findRefundSwapTransaction]
    searches the history of the seller named in the initiation's payload
    and returns the first transaction there that carries the refund tag,
    whatever else it holds, or nothing. *)
Theorem findRefund_first_refund
    (this : Provider) (swapParams : SwapParams) (initiationTxHash : string)
    (initTransaction : Transaction) (initPayload : Raw)
    (history : list PastTx) (lookupTx : string -> option Transaction) :
  answersInOrder this lookupTx ->
  lookupTx initiationTxHash = Some initTransaction ->
  _raw initTransaction = Some initPayload ->
  getAddressHistory this (seller initPayload) = Normal history ->
  outcome (findRefundSwapTransaction this swapParams initiationTxHash)
  = Normal (List.find isRefund (omap lookupTx (map signature history)))
  /\ exists rest,
       trace (findRefundSwapTransaction this swapParams initiationTxHash)
       = GetParsedAndConfirmedTransactions [initiationTxHash]
         :: GetAddressHistory (seller initPayload) :: rest.
Proof.
  intros Hfetch Hinit Hraw Hhist.
  rewrite (findRefund_run this swapParams initiationTxHash initTransaction []
             initPayload)
    by first [exact Hraw | rewrite Hfetch; cbn [omap list_omap]; rewrite Hinit; reflexivity].
  rewrite (MatcherFailures.refund_run_same
             this (seller initPayload) swapParams swapParams None
             (Some (fun _ _ => true))).
  cbn [outcome trace fst snd]. split.
  - pose proof (outcome_first_accepted this (seller initPayload) swapParams
                  (refund instructions) (fun _ _ => true) _ _ Hhist Hfetch) as Hout.
    refine (eq_trans Hout _). f_equal.
    apply find_ext. intros t. unfold accepted, isRefund, hasTag.
    destruct (_raw t); [|reflexivity]. apply andb_true_r.
  - destruct (trace_starts_with_history this (seller initPayload) swapParams
                (refund instructions) (Some (fun _ _ => true))) as [rest Hrest].
    cbn [trace] in Hrest. rewrite Hrest. eauto.
Qed.

(** The seller's sample history holds no refund. *)
Lemma findRefund_first_refund_witness :
  outcome (findRefundSwapTransaction Samples.sampleProvider Samples.sampleParams "sig3")
  = Normal None.
Proof.
  apply (findRefund_first_refund Samples.sampleProvider Samples.sampleParams "sig3"
           (Samples.fetched "sig3" (Some Samples.initPayload)) Samples.initPayload
           (map Build_PastTx ["sig1"; "sig2"; "sig3"; "sig4"; "sig5"]) Samples.ledger);
    [intros refs; reflexivity | reflexivity | reflexivity | reflexivity].
Defined.

(** X10. When the transaction fetched for the initiation has no payload,
    both finders fail with a [TypeError] (neither [PendingTxError] nor an
    absent result), and no history is requested. *)
Theorem initiation_without_payload
    (sha256 : option string -> string)
    (this : Provider) (swapParams : SwapParams) (initiationTxHash : string)
    (initTransaction : Transaction) (others : list Transaction) :
  getParsedAndConfirmedTransactions this [initiationTxHash]
  = Normal (initTransaction :: others) ->
  _raw initTransaction = None ->
  (exists msg,
      findClaimSwapTransaction sha256 this swapParams initiationTxHash
      = (Throw (TypeError msg), [GetParsedAndConfirmedTransactions [initiationTxHash]]))
  /\ (exists msg,
        findRefundSwapTransaction this swapParams initiationTxHash
        = (Throw (TypeError msg), [GetParsedAndConfirmedTransactions [initiationTxHash]])).
Proof.
  intros Hfetch Hraw. unfold findClaimSwapTransaction, findRefundSwapTransaction, request.
  rewrite Hfetch. cbn [ebind]. rewrite Hraw. cbn. eauto.
Qed.

(** The first transaction of the sample ledger has no payload. *)
Lemma initiation_without_payload_witness :
  exists msg,
    findClaimSwapTransaction Samples.sampleSha256 Samples.sampleProvider
      Samples.sampleParams "sig1"
    = (Throw (TypeError msg), [GetParsedAndConfirmedTransactions ["sig1"]]).
Proof.
  apply (proj1 (initiation_without_payload Samples.sampleSha256 Samples.sampleProvider
                  Samples.sampleParams "sig1" (Samples.fetched "sig1" None) []
                  eq_refl eq_refl)).
Defined.

End FinderProps.

(* ===================================================================== *)
(** ** More on the fee estimator and the coin selector *)
(* ===================================================================== *)

Module FundingProps.
Import Bitcoin BitcoinSpec FundingSpec.

Lemma ceil_bounds (x : Qc) :
  (Qc_of_Z (Math_ceil x) - 1 < x)%Qc /\ (x <= Qc_of_Z (Math_ceil x))%Qc.
Proof.
  unfold Math_ceil. split.
  - rewrite <- Z2Qc_inj_1, <- Z2Qc_inj_sub.
    unfold Qclt. cbn [this Qc_of_Z]. apply Qceiling_lt.
  - unfold Qcle. cbn [this Qc_of_Z]. apply Qle_ceiling.
Qed.

(** X11. Whatever the strategies, [selectCoins] calls the chosen one with a
    whole rate [k] that is at least the rate asked for and less than one
    above it; the strategy is never given a fraction or a lower rate. *)
Theorem selectCoins_rate_is_rounded_up
    (coinselect coinselectAccumulative : Strategy)
    (utxos : list UTXO) (targets : list OutputTarget) (feePerByte : Qc)
    (fixedInputs : list UTXO) :
  exists k : Z,
    selectCoins coinselect coinselectAccumulative utxos targets feePerByte fixedInputs
    = coinselectStrat coinselect coinselectAccumulative fixedInputs
        (selectUtxos utxos fixedInputs) targets (Qc_of_Z k)
    /\ (Qc_of_Z k - 1 < feePerByte)%Qc
    /\ (feePerByte <= Qc_of_Z k)%Qc.
Proof.
  exists (Math_ceil feePerByte). split; [apply SelectFacts.selectCoins_call|].
  apply ceil_bounds.
Qed.

Lemma selectUtxos_cases (utxos fixedInputs : list UTXO) :
  selectUtxos utxos fixedInputs
  = match fixedInputs with
    | [] => utxos
    | _ :: _ => fixedInputs ++ filter (fun utxo => ~ pinned fixedInputs utxo) utxos
    end.
Proof.
  destruct fixedInputs as [| input rest]; [reflexivity|].
  rewrite SelectFacts.selectUtxos_candidates by discriminate. reflexivity.
Qed.

Lemma pinned_outpoint (fixedInputs : list UTXO) (utxo : UTXO) :
  pinned fixedInputs utxo <-> outpoint utxo ∈ map outpoint fixedInputs.
Proof.
  unfold pinned. rewrite Exists_exists, list_elem_of_fmap. unfold outpoint.
  split.
  - intros (input & Hin & Ht & Hv). exists input. split; [congruence | exact Hin].
  - intros (input & [= Ht Hv] & Hin). exists input. auto.
Qed.

(** X12. The list handed to the strategy offers no output twice: when the
    fixed inputs name pairwise different outputs and so do the UTXOs, the
    candidates name pairwise different outputs, also when a fixed input is
    among the UTXOs. *)
Theorem selectUtxos_offers_no_output_twice (utxos fixedInputs : list UTXO) :
  NoDup (map outpoint fixedInputs) ->
  NoDup (map outpoint utxos) ->
  NoDup (map outpoint (selectUtxos utxos fixedInputs)).
Proof.
  intros Hfixed Hutxos. rewrite selectUtxos_cases.
  destruct fixedInputs as [| input rest]; [exact Hutxos|].
  set (fixedInputs := input :: rest) in *.
  rewrite map_app. apply NoDup_app. split; [exact Hfixed|]. split.
  - intros op Hop Hin. apply list_elem_of_fmap in Hin as (utxo & -> & Hutxo).
    apply list_elem_of_filter in Hutxo as [Hnot _].
    apply Hnot, pinned_outpoint. exact Hop.
  - clear Hfixed. induction utxos as [| utxo more IH]; [constructor|].
    apply NoDup_cons in Hutxos as [Hfresh Hmore].
    rewrite filter_cons. destruct (decide _); [|exact (IH Hmore)].
    cbn [map]. apply NoDup_cons. split; [|exact (IH Hmore)].
    intros Hin. apply Hfresh.
    apply list_elem_of_fmap in Hin as (other & Hop & Hother).
    apply list_elem_of_filter in Hother as [_ Hother].
    apply list_elem_of_fmap. eauto.
Qed.

(** A fixed input that is also among the UTXOs. *)
Lemma selectUtxos_offers_no_output_twice_witness :
  NoDup (map outpoint (selectUtxos
                         [BitcoinSamples.utxoA; BitcoinSamples.utxoB; BitcoinSamples.utxoC]
                         [BitcoinSamples.utxoB])).
Proof.
  apply selectUtxos_offers_no_output_twice.
  - apply (bool_decide_unpack _). vm_compute. reflexivity.
  - apply (bool_decide_unpack _). vm_compute. reflexivity.
Defined.

(** X13. The list handed to the strategy starts with the fixed inputs in
    their order, continues with UTXOs in their order, still offers the
    output of every UTXO, and holds nothing but fixed inputs and UTXOs. *)
Theorem selectUtxos_keeps_every_output (utxos fixedInputs : list UTXO) :
  (exists rest,
      selectUtxos utxos fixedInputs = fixedInputs ++ rest /\ rest `sublist_of` utxos)
  /\ (forall utxo, utxo ∈ utxos ->
        outpoint utxo ∈ map outpoint (selectUtxos utxos fixedInputs))
  /\ (forall utxo, utxo ∈ selectUtxos utxos fixedInputs ->
        utxo ∈ fixedInputs \/ utxo ∈ utxos).
Proof.
  rewrite selectUtxos_cases.
  destruct fixedInputs as [| input rest].
  - split; [exists utxos; split; reflexivity|].
    split; [intros utxo Hin; apply list_elem_of_fmap; eauto | auto].
  - set (fixedInputs := input :: rest) in *. split; [|split].
    + eexists. split; [reflexivity|]. apply sublist_filter.
    + intros utxo Hin. rewrite map_app. apply elem_of_app.
      destruct (decide (pinned fixedInputs utxo)) as [Hp | Hp].
      * left. apply pinned_outpoint. exact Hp.
      * right. apply list_elem_of_fmap. exists utxo. split; [reflexivity|].
        apply list_elem_of_filter. auto.
    + intros utxo Hin. apply elem_of_app in Hin as [Hin | Hin]; [left; exact Hin|].
      right. apply list_elem_of_filter in Hin as [_ Hin]. exact Hin.
Qed.

(** The UTXO that is pinned is still on offer, through the fixed input. *)
Lemma selectUtxos_keeps_every_output_witness :
  outpoint BitcoinSamples.utxoB
    ∈ map outpoint (selectUtxos
                      [BitcoinSamples.utxoA; BitcoinSamples.utxoB; BitcoinSamples.utxoC]
                      [BitcoinSamples.utxoB]).
Proof.
  apply (proj1 (proj2 (selectUtxos_keeps_every_output
                         [BitcoinSamples.utxoA; BitcoinSamples.utxoB; BitcoinSamples.utxoC]
                         [BitcoinSamples.utxoB]))).
  apply list_elem_of_further, list_elem_of_here.
Defined.

End FundingProps.

(* ===================================================================== *)
(** ** More on the transaction normalizer *)
(* ===================================================================== *)

Module NormalizerProps.
Import Bitcoin FundingSpec.

(** X15. The result has the four base fields, the two fee fields exactly
    when a fee other than zero is given, the two block fields exactly when
    a block is given, and no other field. *)
Theorem normalize_fields
    (tx : Transaction) (fee : option Qc) (block : option Block) :
  dom (normalizeTransactionObject tx fee block)
  = baseFields
      ∪ (match truthyFee fee with Some _ => feeFields | None => ∅ end)
      ∪ (match block with Some _ => blockFields | None => ∅ end).
Proof.
  unfold normalizeTransactionObject, baseFields, feeFields, blockFields.
  destruct block, (truthyFee fee); rewrite !dom_insert_L, dom_empty_L; set_solver.
Qed.

Lemma fl_not_NaN (x : Qc) : fl x <> NaN.
Proof.
  unfold fl. destruct (Qle_bool _ _); [destruct (Qle_bool _ _)|]; discriminate.
Qed.

Lemma divide_not_NaN (x y : Qc) : x <> 0%Qc -> divide x y <> NaN.
Proof.
  intros Hx. unfold divide. destruct (decide (y = 0%Qc)); [|apply fl_not_NaN].
  destruct (decide (x = 0%Qc)); [contradiction|].
  destruct (decide (0 < x)%Qc); discriminate.
Qed.

Lemma Math_round_whole (x : number) :
  x <> NaN ->
  (exists p : Z, Math_round x = Num (Qc_of_Z p))
  \/ Math_round x = Infinity \/ Math_round x = NegInfinity.
Proof.
  destruct x as [q | | |]; cbn [Math_round]; intros Hx; eauto. contradiction.
Qed.

(** X16. With a fee other than zero, [feePrice] is a whole number or an
    infinity, never [NaN], and no error is raised: it is [fee / vsize],
    the quotient rounded to a double, rounded again to a whole number.
    With a virtual size of zero it is an infinity. *)
Theorem normalize_feePrice
    (tx : Transaction) (f : Qc) (block : option Block) :
  f <> 0%Qc ->
  exists x,
    normalizeTransactionObject tx (Some f) block !! "feePrice" = Some (VNumber x)
    /\ x = Math_round (divide f (vsize tx))
    /\ ((exists p : Z, x = Num (Qc_of_Z p)) \/ x = Infinity \/ x = NegInfinity)
    /\ (vsize tx = 0%Qc -> x = Infinity \/ x = NegInfinity).
Proof.
  intros Hf.
  assert (truthyFee (Some f) = Some f) as Htruthy
      by (apply NormalizeFacts.truthyFee_Some; auto).
  exists (Math_round (divide f (vsize tx))).
  unfold normalizeTransactionObject. rewrite Htruthy.
  split; [destruct block; NormalizeFacts.lookup_fields; reflexivity|].
  split; [reflexivity|]. split.
  - apply Math_round_whole, divide_not_NaN, Hf.
  - intros Hv. unfold divide. rewrite Hv.
    destruct (decide (0%Qc = 0%Qc)) as [_|]; [|contradiction].
    destruct (decide (f = 0%Qc)); [contradiction|].
    destruct (decide (0 < f)%Qc); cbn [Math_round]; auto.
Qed.

(** A fee of 1000 for the sample transaction of virtual size 110: the
    quotient 9.09.. is rounded to 9. *)
Lemma normalize_feePrice_witness :
  normalizeTransactionObject BitcoinSamples.sampleTx (Some (Qc_of_Z 1000)) None
    !! "feePrice" = Some (VNumber (Num (Qc_of_Z 9))).
Proof.
  assert (Qc_of_Z 1000 <> 0%Qc) as Hfee.
  { intros H. apply (f_equal this) in H. vm_compute in H. discriminate H. }
  destruct (normalize_feePrice BitcoinSamples.sampleTx (Qc_of_Z 1000) None Hfee)
    as (x & Hlookup & Hx & _).
  rewrite Hlookup, Hx. reflexivity.
Defined.

(** The quotient is rounded before [Math.round] sees it: a fee of
    6755399441055745 for a virtual size of 3 gives 2251799813685248.33..,
    which is rounded to the double 2251799813685248.5 and then up. *)
Example feePrice_rounds_twice :
  Math_round (divide (Qc_of_Z 6755399441055745) (Qc_of_Z 3))
  = Num (Qc_of_Z 2251799813685249).
Proof. reflexivity. Qed.

End NormalizerProps.

(* ===================================================================== *)
(** ** compressPubKey *)
(* ===================================================================== *)

Module KeysProps.
Import Stdlib.Strings.Ascii Keys.

Lemma substring_skip (a b : string) (n m : nat) :
  String.substring (String.length a + n) m (a +:+ b) = String.substring n m b.
Proof. induction a as [| c a IH]; [reflexivity | exact IH]. Qed.

Lemma substring_take (a b : string) :
  String.substring 0 (String.length a) (a +:+ b) = a.
Proof.
  induction a as [| c a IH]; simpl.
  - destruct b; reflexivity.
  - f_equal. exact IH.
Qed.

Lemma substring_short (s : string) (n m : nat) :
  (String.length s <= n)%nat -> String.substring n m s = "".
Proof.
  revert n. induction s as [| c s IH]; intros n Hn.
  - destruct n, m; reflexivity.
  - destruct n as [| n]; cbn [String.length] in Hn; [lia|].
    cbn [String.substring]. apply IH. lia.
Qed.

Lemma substring_length_le (s : string) (n m : nat) :
  (String.length (String.substring n m s) <= String.length s - n)%nat.
Proof.
  revert n m. induction s as [| c s IH]; intros n m.
  - destruct n, m; cbn; lia.
  - destruct n as [| n].
    + destruct m as [| m]; cbn [String.substring String.length]; [lia|].
      specialize (IH 0%nat m). lia.
    + cbn [String.substring String.length]. specialize (IH n m). lia.
Qed.

Lemma hexDigit_range (c : ascii) (v : Z) : hexDigit c = Some v -> 0 <= v < 16.
Proof.
  unfold hexDigit.
  repeat (match goal with |- context [if ?b then _ else _] => destruct b eqn:? end);
    intros [= <-]; lia.
Qed.

Lemma hexDigit_plain (c : ascii) (v : Z) :
  hexDigit c = Some v ->
  isWhiteSpace c = false /\ Ascii.eqb c "-" = false /\ Ascii.eqb c "+" = false
  /\ Ascii.eqb c "x" = false /\ Ascii.eqb c "X" = false.
Proof.
  destruct c as [[] [] [] [] [] [] [] []]; vm_compute; intros H;
    first [discriminate H | repeat split; reflexivity].
Qed.

(** Two digits are read as such: no sign, no prefix, no white space. *)
Lemma parseInt16_two_digits (c1 c2 : ascii) (v1 v2 : Z) :
  hexDigit c1 = Some v1 -> hexDigit c2 = Some v2 ->
  parseInt16 (String c1 (String c2 "")) = Some (16 * v1 + v2).
Proof.
  intros H1 H2.
  destruct (hexDigit_plain c1 v1 H1) as (Hw & Hminus & Hplus & _).
  destruct (hexDigit_plain c2 v2 H2) as (_ & _ & _ & Hx & HX).
  unfold parseInt16. cbn [trimStart]. rewrite Hw, Hminus, Hplus, Hx, HX.
  rewrite andb_false_r. cbn [digits16]. rewrite H1, H2.
  cbn [default fmap option_fmap option_map]. unfold id. f_equal. lia.
Qed.

Lemma substring_drop (a b : string) (n m : nat) :
  String.length a = n -> String.substring n m (a +:+ b) = String.substring 0 m b.
Proof. intros <-. rewrite <- (substring_skip a b 0 m). f_equal. lia. Qed.

Lemma substring_keep (a b : string) (m : nat) :
  String.length a = m -> String.substring 0 m (a +:+ b) = a.
Proof. intros <-. apply substring_take. Qed.

Lemma substring_0_append (a b : string) (m k : nat) :
  String.length a = k ->
  String.substring 0 (k + m) (a +:+ b) = a +:+ String.substring 0 m b.
Proof.
  intros <-. induction a as [| c a IH]; simpl; [reflexivity|].
  rewrite IH. reflexivity.
Qed.

Lemma append_length (a b : string) :
  String.length (a +:+ b) = (String.length a + String.length b)%nat.
Proof. induction a as [| c a IH]; simpl; [reflexivity | rewrite IH; reflexivity]. Qed.

(** X17. For a key of 130 characters or more whose 129th and 130th
    characters are hexadecimal digits, [compressPubKey] returns 66
    characters: [02] when the last digit of the y coordinate is even and
    [03] when it is odd, followed by the 64 characters of the x
    coordinate.  The first two characters and everything after the 130th
    are ignored. *)
Theorem compressPubKey_wellformed
    (lead x y62 tail : string) (c1 c2 : ascii) (v1 v2 : Z) :
  String.length lead = 2%nat ->
  String.length x = 64%nat ->
  String.length y62 = 62%nat ->
  hexDigit c1 = Some v1 ->
  hexDigit c2 = Some v2 ->
  compressPubKey (lead +:+ x +:+ y62 +:+ String c1 (String c2 tail))
  = (if Z.even v2 then "02" else "03") +:+ x
  /\ String.length
       (compressPubKey (lead +:+ x +:+ y62 +:+ String c1 (String c2 tail))) = 66%nat.
Proof.
  intros Hlead Hx Hy H1 H2.
  assert (compressPubKey (lead +:+ x +:+ y62 +:+ String c1 (String c2 tail))
          = (if Z.even v2 then "02" else "03") +:+ x) as Hres.
  { assert (String.substring 2 64 (lead +:+ x +:+ y62 +:+ String c1 (String c2 tail)) = x)
      as Hxeq.
    { rewrite (substring_drop lead _ 2 64 Hlead). apply substring_keep. exact Hx. }
    assert (String.substring 62 2
              (String.substring 66 64 (lead +:+ x +:+ y62 +:+ String c1 (String c2 tail)))
            = String c1 (String c2 "")) as Hyeq.
    { assert (String.substring 66 64 (lead +:+ x +:+ y62 +:+ String c1 (String c2 tail))
              = y62 +:+ String c1 (String c2 "")) as ->.
      { change 66%nat with (2 + 64)%nat. rewrite <- Hlead at 1.
        rewrite substring_skip. rewrite (substring_drop x _ 64 64 Hx).
        change 64%nat with (62 + 2)%nat.
        rewrite (substring_0_append y62 _ 2 62 Hy). f_equal.
        destruct tail; reflexivity. }
      rewrite (substring_drop y62 _ 62 2 Hy). reflexivity. }
    unfold compressPubKey. rewrite Hxeq, Hyeq.
    rewrite (parseInt16_two_digits c1 c2 v1 v2 H1 H2). cbn [isEven].
    pose proof (hexDigit_range _ _ H1). pose proof (hexDigit_range _ _ H2).
    rewrite Z.rem_mod_nonneg by lia.
    replace (16 * v1 + v2) with (v2 + (8 * v1) * 2) by lia.
    rewrite Z.mod_add by lia.
    rewrite Zeven_mod. reflexivity. }
  split; [exact Hres|]. rewrite Hres.
  destruct (Z.even v2); rewrite append_length, Hx; reflexivity.
Qed.

(** A key of 130 digits whose y coordinate ends in [...3]. *)
Lemma compressPubKey_wellformed_witness :
  compressPubKey
    ("04" +:+ "79be667ef9dcbbac55a06295ce870b07029bfcdb2dce28d959f2815b16f81798"
     +:+ "483ada7726a3c4655da4fbfc0e1108a8fd17b448a68554199c47d08ffb10d4"
     +:+ String "b" (String "3" ""))
  = "03" +:+ "79be667ef9dcbbac55a06295ce870b07029bfcdb2dce28d959f2815b16f81798".
Proof.
  apply (compressPubKey_wellformed "04"
           "79be667ef9dcbbac55a06295ce870b07029bfcdb2dce28d959f2815b16f81798"
           "483ada7726a3c4655da4fbfc0e1108a8fd17b448a68554199c47d08ffb10d4"
           "" "b" "3" 11 3); reflexivity.
Defined.

(** X18. A key of fewer than 129 characters is not rejected: the parity
    test reads an empty string, finds no number, and the prefix is [03],
    followed by whatever stands at positions 2 to 65. *)
Theorem compressPubKey_short_key (pubKey : string) :
  (String.length pubKey <= 128)%nat ->
  compressPubKey pubKey = "03" +:+ String.substring 2 64 pubKey.
Proof.
  intros Hlen. unfold compressPubKey.
  assert (String.substring 62 2 (String.substring 66 64 pubKey) = "") as ->.
  { apply substring_short.
    pose proof (substring_length_le pubKey 66 64). lia. }
  reflexivity.
Qed.

(** A compressed key given where an uncompressed one is expected. *)
Lemma compressPubKey_short_key_witness :
  compressPubKey "0279be667ef9dcbbac55a06295ce870b07029bfcdb2dce28d959f2815b16f81798"
  = "03" +:+ "79be667ef9dcbbac55a06295ce870b07029bfcdb2dce28d959f2815b16f81798".
Proof.
  apply (compressPubKey_short_key
           "0279be667ef9dcbbac55a06295ce870b07029bfcdb2dce28d959f2815b16f81798").
  cbn [String.length]. lia.
Defined.

End KeysProps.

(* ===================================================================== *)
(** ** witnessStackToScriptWitness *)
(* ===================================================================== *)

Module WitnessProps.
Import Corelib.Init.Byte Witness.

Section WithCodec.
Variable varuint : Varuint.
Variable memory : nat -> nat -> byte.
Hypothesis announced :
  forall i, length (encodeBytes varuint i) = encodingLength varuint i.

Lemma allocUnsafe_length (len n : nat) : length (allocUnsafe memory len n) = n.
Proof. unfold allocUnsafe. rewrite length_map, length_seq. reflexivity. Qed.

Lemma writeVarInt_appends (buffer : list byte) (i : nat) :
  writeVarInt varuint memory buffer i = Normal (buffer ++ encodeBytes varuint i).
Proof.
  unfold writeVarInt, encode.
  rewrite length_app, allocUnsafe_length, announced.
  rewrite Nat.leb_refl.
  rewrite take_app_length, drop_app_add.
  rewrite drop_ge by (rewrite allocUnsafe_length; lia).
  rewrite app_nil_r. reflexivity.
Qed.

Lemma forEachSlice_appends (vector : list (list byte)) (buffer : list byte) :
  forEachSlice varuint memory vector buffer
  = Normal (buffer ++ concat (map (fun slice => encodeBytes varuint (length slice) ++ slice)
                                  vector)).
Proof.
  revert buffer. induction vector as [| slice rest IH]; intros buffer;
    cbn [forEachSlice map concat].
  - rewrite app_nil_r. reflexivity.
  - unfold writeVarSlice. rewrite writeVarInt_appends. cbn [bind].
    rewrite IH. unfold writeSlice. rewrite <- !app_assoc. reflexivity.
Qed.

Lemma serialize_layout (witness : list (list byte)) :
  witnessStackToScriptWitness varuint memory witness = Normal (layout varuint witness).
Proof.
  unfold witnessStackToScriptWitness, writeVector.
  rewrite writeVarInt_appends. cbn [bind app].
  rewrite forEachSlice_appends. reflexivity.
Qed.
End WithCodec.

Lemma compactSize_announced (i : nat) :
  length (encodeBytes compactSize i) = encodingLength compactSize i.
Proof. reflexivity. Qed.

Lemma readCompactSize_small (n : nat) (rest : list byte) :
  (n <= 252)%nat ->
  readCompactSize (encodeBytes compactSize n ++ rest) = Some (n, rest).
Proof.
  intros Hn. cbn [compactSize encodeBytes]. unfold compactSizeBytes.
  assert (N.of_nat n < 253)%N as Hlt by lia.
  apply N.ltb_lt in Hlt. rewrite Hlt. cbn [app readCompactSize].
  assert (Byte.to_N (byteOf (N.of_nat n)) = N.of_nat n) as Hbyte.
  { unfold byteOf. apply N.ltb_lt in Hlt.
    rewrite N.mod_small by lia.
    destruct (Byte.of_N (N.of_nat n)) as [b|] eqn:Hb.
    - cbn [default]. apply Byte.to_of_N. exact Hb.
    - exfalso. pose proof (Byte.of_N_None_iff (N.of_nat n)) as Hnone.
      apply Hnone in Hb. lia. }
  rewrite Hbyte, Hlt, Nat2N.id. reflexivity.
Qed.

(** X19. Whatever the memory held, and for every codec that writes as many
    bytes as it announces, the serializer never fails and returns the
    number of items followed, for each item in stack order, by its length
    and its bytes: no uninitialised byte is left in the result. *)
Theorem witnessStack_layout
    (varuint : Varuint) (memory : nat -> nat -> byte) (witness : list (list byte)) :
  (forall i, length (encodeBytes varuint i) = encodingLength varuint i) ->
  witnessStackToScriptWitness varuint memory witness
  = Normal (encodeBytes varuint (length witness)
            ++ concat (map (fun slice => encodeBytes varuint (length slice) ++ slice)
                           witness)).
Proof.
  intros Hannounced. unfold witnessStackToScriptWitness, writeVector.
  rewrite (writeVarInt_appends varuint memory Hannounced). cbn [bind app].
  rewrite (forEachSlice_appends varuint memory Hannounced). reflexivity.
Qed.

(** Two items with the sample codec. *)
Lemma witnessStack_layout_witness :
  witnessStackToScriptWitness compactSize (fun _ _ => xff) [[x01; x02]; [x03]]
  = Normal [x02; x02; x01; x02; x01; x03].
Proof.
  apply (witnessStack_layout compactSize (fun _ _ => xff) [[x01; x02]; [x03]]).
  apply compactSize_announced.
Defined.

Lemma readItems_layout (varuint : Varuint) decodeVar (bound : nat)
    (items : list (list byte)) (tail : list byte) :
  (forall n rest, (n <= bound)%nat ->
                  decodeVar (encodeBytes varuint n ++ rest) = Some (n, rest)) ->
  Forall (fun slice => (length slice <= bound)%nat) items ->
  readItems decodeVar (length items)
    (concat (map (fun slice => encodeBytes varuint (length slice) ++ slice) items) ++ tail)
  = Some (items, tail).
Proof.
  intros Hdecode Hitems.
  induction Hitems as [| slice rest Hslice _ IH]; [reflexivity|].
  cbn [length readItems map concat]. rewrite <- !app_assoc.
  rewrite (Hdecode _ _ Hslice).
  rewrite length_app.
  replace (length slice <=? length slice + _)%nat with true
    by (symmetry; apply Nat.leb_le; lia).
  rewrite drop_app_length, IH, take_app_length. reflexivity.
Qed.

(** X20. What the serializer writes can be read back: for a codec that
    writes as many bytes as it announces and whose integers up to [bound]
    can be read back in front of any bytes, a stack of at most [bound]
    items of at most [bound] bytes each is recovered, item by item, from
    its serialization. *)
Theorem witnessStack_round_trip
    (varuint : Varuint) (memory : nat -> nat -> byte)
    (decodeVar : list byte -> option (nat * list byte)) (bound : nat)
    (witness : list (list byte)) :
  (forall i, length (encodeBytes varuint i) = encodingLength varuint i) ->
  (forall n rest, (n <= bound)%nat ->
                  decodeVar (encodeBytes varuint n ++ rest) = Some (n, rest)) ->
  (length witness <= bound)%nat ->
  Forall (fun slice => (length slice <= bound)%nat) witness ->
  exists bytes,
    witnessStackToScriptWitness varuint memory witness = Normal bytes
    /\ readWitness decodeVar bytes = Some witness.
Proof.
  intros Hannounced Hdecode Hcount Hitems.
  exists (layout varuint witness). split; [apply serialize_layout; exact Hannounced|].
  unfold readWitness, layout. rewrite (Hdecode _ _ Hcount).
  rewrite <- (app_nil_r (concat _)).
  rewrite (readItems_layout varuint decodeVar bound witness [] Hdecode Hitems).
  reflexivity.
Qed.

(** The sample codec, in the range where it takes one byte. *)
Lemma witnessStack_round_trip_witness :
  exists bytes,
    witnessStackToScriptWitness compactSize (fun _ _ => xff) [[x01; x02]; []; [x03]]
    = Normal bytes
    /\ readWitness readCompactSize bytes = Some [[x01; x02]; []; [x03]].
Proof.
  apply (witnessStack_round_trip compactSize (fun _ _ => xff) readCompactSize 252
           [[x01; x02]; []; [x03]]).
  - apply compactSize_announced.
  - intros n rest Hn. apply readCompactSize_small. exact Hn.
  - cbn [length]. lia.
  - repeat constructor; cbn [length]; lia.
Defined.

End WitnessProps.

(* ===================================================================== *)
(** ** decodeRawTransaction *)
(* ===================================================================== *)

Module DecoderProps.
Import Corelib.Init.Byte Bitcoin FundingSpec Decoder DecoderSpec.

Lemma mapFrom_Normal {A B} (callback : nat -> A -> Completion B) (index : nat)
    (array : list A) (result : list B) :
  mapFrom callback index array = Normal result ->
  length result = length array
  /\ forall i x, array !! i = Some x ->
                 exists y, result !! i = Some y /\ callback (index + i)%nat x = Normal y.
Proof.
  revert index result. induction array as [| a array IH]; intros index result; cbn [mapFrom].
  - intros [= <-]. split; [reflexivity|]. intros i x Hi. discriminate Hi.
  - destruct (callback index a) as [b |] eqn:Ha; cbn [bind]; [|discriminate].
    destruct (mapFrom callback (S index) array) as [bs |] eqn:Hrest; cbn [bind];
      [|discriminate].
    intros [= <-]. destruct (IH _ _ Hrest) as [Hlen Hall]. split; [cbn; lia|].
    intros [| i] x Hi.
    + injection Hi as <-. exists b. rewrite Nat.add_0_r. auto.
    + destruct (Hall i x Hi) as (y & Hy & Hcall). exists y. split; [exact Hy|].
      rewrite <- Hcall. f_equal. lia.
Qed.

Lemma mapFrom_Throw {A B} (callback : nat -> A -> Completion B) (index : nat)
    (array : list A) (e : Error) :
  mapFrom callback index array = Throw e ->
  exists i x, array !! i = Some x /\ callback (index + i)%nat x = Throw e.
Proof.
  revert index. induction array as [| a array IH]; intros index; cbn [mapFrom];
    [discriminate|].
  destruct (callback index a) as [b |] eqn:Ha; cbn [bind].
  - destruct (mapFrom callback (S index) array) as [bs |] eqn:Hrest; cbn [bind];
      [discriminate|].
    intros [= <-]. destruct (IH _ Hrest) as (i & x & Hi & Hcall).
    exists (S i), x. split; [exact Hi|]. rewrite <- Hcall. f_equal. lia.
  - intros [= <-]. exists 0%nat, a. rewrite Nat.add_0_r. auto.
Qed.

Lemma mapFrom_total {A B} (callback : nat -> A -> Completion B) (index : nat)
    (array : list A) :
  Forall (fun x => forall i, exists y, callback i x = Normal y) array ->
  exists result, mapFrom callback index array = Normal result.
Proof.
  intros Hall. revert index.
  induction Hall as [| a array Ha _ IH]; intros index; cbn [mapFrom]; [eauto|].
  destruct (Ha index) as [b ->]. destruct (IH (S index)) as [bs ->]. cbn [bind]. eauto.
Qed.

Lemma failure_Throw {A} (c : Completion A) (e : Error) :
  failure c = Some e <-> c = Throw e.
Proof. destruct c; cbn; split; congruence. Qed.

Lemma mapFrom_failure {A B} (f g : nat -> A -> Completion B) (index : nat)
    (array : list A) :
  (forall i x, failure (f i x) = failure (g i x)) ->
  failure (mapFrom f index array) = failure (mapFrom g index array).
Proof.
  intros Hsame. revert index.
  induction array as [| a array IH]; intros index; cbn [mapFrom]; [reflexivity|].
  specialize (Hsame index a). specialize (IH (S index)).
  destruct (f index a), (g index a); cbn [bind failure] in *; try congruence.
  destruct (mapFrom f (S index) array), (mapFrom g (S index) array);
    cbn [bind failure] in *; congruence.
Qed.

(** X21. Decoding succeeds as soon as the parsing library accepts the
    bytes and decompiles every script, whether or not it derives an
    address for an output; the result then has one input per parsed
    input and one output per parsed output, keeps the hex it was given
    and carries no confirmation count.  When decoding fails, the error is
    the library's: from parsing the bytes, or from disassembling or
    classifying one of the scripts.  The derivation of addresses has no
    part in it: with any other derivation the decoder fails on the same
    inputs with the same errors. *)
Theorem decode_fails_only_on_parse
    (lib : BitcoinJs) (hex : string) (network : Network) :
  (forall bjsTx,
      fromHex lib hex = Normal bjsTx ->
      decompiles lib bjsTx ->
      exists tx,
        decodeRawTransaction lib hex network = Normal tx
        /\ length (vin tx) = length (bjs_ins bjsTx)
        /\ length (tx_vout tx) = length (bjs_outs bjsTx)
        /\ Bitcoin.hex tx = hex
        /\ confirmations tx = None)
  /\ (forall e,
        decodeRawTransaction lib hex network = Throw e ->
        fromHex lib hex = Throw e
        \/ exists bjsTx script,
             fromHex lib hex = Normal bjsTx
             /\ script ∈ scripts bjsTx
             /\ (toASM lib script = Throw e \/ classifyOutput lib script = Throw e))
  /\ (forall derive e,
        decodeRawTransaction (withAddresses lib derive) hex network = Throw e
        <-> decodeRawTransaction lib hex network = Throw e).
Proof.
  unfold decodeRawTransaction. split; [|split].
  - intros bjsTx -> [Hins Houts]. cbn [bind].
    destruct (mapFrom_total (fun _ => decodeInput lib) 0 (bjs_ins bjsTx)) as [vin Hvin].
    { eapply Forall_impl; [exact Hins|]. cbn. intros input [asm Hasm] _.
      unfold decodeInput. rewrite Hasm. cbn [bind]. eauto. }
    destruct (mapFrom_total (decodeOutput lib network) 0 (bjs_outs bjsTx)) as [vout Hvout].
    { eapply Forall_impl; [exact Houts|]. cbn. intros output [[ty Hty] [asm Hasm]] i.
      unfold decodeOutput. rewrite Hty, Hasm. cbn [bind]. eauto. }
    rewrite Hvin, Hvout. cbn [bind]. eexists. split; [reflexivity|].
    cbn [Bitcoin.vin tx_vout Bitcoin.hex confirmations].
    apply mapFrom_Normal in Hvin as [-> _]. apply mapFrom_Normal in Hvout as [-> _]. auto.
  - intros e. destruct (fromHex lib hex) as [bjsTx | e0]; cbn [bind];
      [|intros [= <-]; left; reflexivity].
    intros Hdecode. right. exists bjsTx. unfold scripts.
    destruct (mapFrom (fun _ => decodeInput lib) 0 (bjs_ins bjsTx)) as [vin | e1] eqn:Hvin;
      cbn [bind] in Hdecode.
    + destruct (mapFrom (decodeOutput lib network) 0 (bjs_outs bjsTx)) as [vout | e2]
        eqn:Hvout; cbn [bind] in Hdecode; [discriminate|].
      injection Hdecode as <-.
      apply mapFrom_Throw in Hvout as (i & output & Hi & Hcall).
      exists (bjs_out_script output). split; [reflexivity|]. split.
      { apply elem_of_app. right. apply list_elem_of_fmap. exists output.
        split; [reflexivity|]. eapply list_elem_of_lookup_2. exact Hi. }
      unfold decodeOutput in Hcall.
      destruct (classifyOutput lib (bjs_out_script output)) as [ty | e3]; cbn [bind] in Hcall;
        [|right; congruence].
      destruct (toASM lib (bjs_out_script output)) as [asm | e4]; cbn [bind] in Hcall;
        [discriminate|left; congruence].
    + injection Hdecode as <-.
      apply mapFrom_Throw in Hvin as (i & input & Hi & Hcall).
      exists (bjs_script input). split; [reflexivity|]. split.
      { apply elem_of_app. left. apply list_elem_of_fmap. exists input.
        split; [reflexivity|]. eapply list_elem_of_lookup_2. exact Hi. }
      unfold decodeInput in Hcall.
      destruct (toASM lib (bjs_script input)) as [asm | e4]; cbn [bind] in Hcall;
        [discriminate|left; congruence].
  - intros derive e. cbn [withAddresses fromHex getHash byteLength virtualSize weightOf
                           toHexString].
    destruct (fromHex lib hex) as [bjsTx | e0]; cbn [bind]; [|tauto].
    change (mapFrom (fun _ => decodeInput (withAddresses lib derive)) 0 (bjs_ins bjsTx))
      with (mapFrom (fun _ => decodeInput lib) 0 (bjs_ins bjsTx)).
    destruct (mapFrom (fun _ => decodeInput lib) 0 (bjs_ins bjsTx)) as [vin | e1];
      cbn [bind]; [|tauto].
    assert (failure (mapFrom (decodeOutput (withAddresses lib derive) network) 0
                       (bjs_outs bjsTx))
            = failure (mapFrom (decodeOutput lib network) 0 (bjs_outs bjsTx))) as Hsame.
    { apply mapFrom_failure. intros i output. unfold decodeOutput.
      cbn [withAddresses classifyOutput toASM].
      destruct (classifyOutput lib (bjs_out_script output)); cbn [bind failure];
        [|reflexivity].
      destruct (toASM lib (bjs_out_script output)); reflexivity. }
    rewrite <- !failure_Throw.
    destruct (mapFrom (decodeOutput (withAddresses lib derive) network) 0 (bjs_outs bjsTx)),
      (mapFrom (decodeOutput lib network) 0 (bjs_outs bjsTx));
      cbn [bind failure] in *; try discriminate Hsame; [tauto|].
    rewrite Hsame. tauto.
Qed.

(** The sample transaction, whose second output has no address. *)
Lemma decode_fails_only_on_parse_witness :
  exists tx,
    decodeRawTransaction DecoderSamples.sampleLib "0200" DecoderSamples.mainnet = Normal tx
    /\ length (vin tx) = 1%nat
    /\ length (tx_vout tx) = 2%nat
    /\ Bitcoin.hex tx = "0200"
    /\ confirmations tx = None.
Proof.
  apply (proj1 (decode_fails_only_on_parse DecoderSamples.sampleLib "0200"
                  DecoderSamples.mainnet) DecoderSamples.sampleBjs eq_refl).
  split; repeat constructor; eexists; reflexivity.
Defined.

(** X22. In a decoded transaction the output at position [i] has index
    [i]; its address list holds the one address the library derives from
    the script, and is empty when the library derives none; its type is
    the library's, except that the two witness types are renamed. *)
Theorem decoded_output
    (lib : BitcoinJs) (hex : string) (network : Network)
    (bjsTx : BjsTransaction) (tx : Transaction) (i : nat) (output : BjsOutput) :
  fromHex lib hex = Normal bjsTx ->
  decodeRawTransaction lib hex network = Normal tx ->
  bjs_outs bjsTx !! i = Some output ->
  exists o ty,
    tx_vout tx !! i = Some o
    /\ classifyOutput lib (bjs_out_script output) = Normal ty
    /\ n o = Z.of_nat i
    /\ (forall address,
           fromOutputScript lib (bjs_out_script output) network = Normal address ->
           addresses (scriptPubKey o) = [address])
    /\ (forall e,
           fromOutputScript lib (bjs_out_script output) network = Throw e ->
           addresses (scriptPubKey o) = [])
    /\ (ty = P2WSH lib -> type (scriptPubKey o) = "witness_v0_scripthash")
    /\ (ty = P2WPKH lib -> P2WPKH lib <> P2WSH lib ->
        type (scriptPubKey o) = "witness_v0_keyhash")
    /\ (ty <> P2WPKH lib -> ty <> P2WSH lib -> isInherited ty = false ->
        type (scriptPubKey o) = ty).
Proof.
  intros Hparse Hdecode Hout. unfold decodeRawTransaction in Hdecode.
  rewrite Hparse in Hdecode. cbn [bind] in Hdecode.
  destruct (mapFrom (fun _ => decodeInput lib) 0 (bjs_ins bjsTx)) as [vin |];
    cbn [bind] in Hdecode; [|discriminate].
  destruct (mapFrom (decodeOutput lib network) 0 (bjs_outs bjsTx)) as [vout |] eqn:Hvout;
    cbn [bind] in Hdecode; [|discriminate].
  injection Hdecode as <-. cbn [tx_vout].
  apply mapFrom_Normal in Hvout as [_ Hall].
  destruct (Hall i output Hout) as (o & Ho & Hcall). cbn [Nat.add] in Hcall.
  unfold decodeOutput in Hcall.
  destruct (classifyOutput lib (bjs_out_script output)) as [ty |]; cbn [bind] in Hcall;
    [|discriminate].
  destruct (toASM lib (bjs_out_script output)) as [asm |]; cbn [bind] in Hcall;
    [|discriminate].
  injection Hcall as <-. eexists. exists ty.
  split; [exact Ho|]. split; [reflexivity|]. split; [reflexivity|].
  cbn [scriptPubKey addresses type]. unfold OUTPUT_TYPES_MAP.
  repeat split.
  - intros address ->. reflexivity.
  - intros e ->. reflexivity.
  - intros ->. rewrite lookup_insert_eq. reflexivity.
  - intros -> Hne. rewrite lookup_insert_ne by congruence.
    rewrite lookup_insert_eq. reflexivity.
  - intros Hk Hs _. rewrite !lookup_insert_ne by congruence.
    rewrite lookup_empty. reflexivity.
Qed.

(** The key-hash output of the sample transaction. *)
Lemma decoded_output_witness :
  exists tx o,
    decodeRawTransaction DecoderSamples.sampleLib "0200" DecoderSamples.mainnet = Normal tx
    /\ tx_vout tx !! 0%nat = Some o
    /\ addresses (scriptPubKey o) = ["bc1qsample"]
    /\ type (scriptPubKey o) = "witness_v0_keyhash".
Proof.
  eexists.
  destruct (decoded_output DecoderSamples.sampleLib "0200" DecoderSamples.mainnet
              DecoderSamples.sampleBjs _ 0
              {| bjs_out_script := [x00; x14]; bjs_out_value := 150000000 |}
              eq_refl eq_refl eq_refl)
    as (o & ty & Hlookup & Hty & _ & Haddr & _ & _ & Htype & _).
  exists o. split; [reflexivity|]. split; [exact Hlookup|]. split.
  - apply Haddr. reflexivity.
  - injection Hty as <-. apply Htype; [reflexivity | discriminate].
Defined.

(** X23. Normalizing a transaction as it comes out of the decoder: [hash]
    is the decoded id and, since the decoder sets no confirmation count,
    [confirmations] is 0 without a block and [undefined] with one. *)
Theorem normalize_after_decode
    (lib : BitcoinJs) (hex : string) (network : Network)
    (bjsTx : BjsTransaction) (tx : Transaction) (fee : option Qc) (b : Block) :
  fromHex lib hex = Normal bjsTx ->
  decodeRawTransaction lib hex network = Normal tx ->
  normalizeTransactionObject tx fee None !! "hash"
  = Some (VString (toHexString lib (rev (getHash lib bjsTx false))))
  /\ normalizeTransactionObject tx fee None !! "confirmations"
     = Some (VNumber (Num 0%Qc))
  /\ normalizeTransactionObject tx fee (Some b) !! "confirmations" = Some VUndefined.
Proof.
  intros Hparse Hdecode. unfold decodeRawTransaction in Hdecode.
  rewrite Hparse in Hdecode. cbn [bind] in Hdecode.
  destruct (mapFrom (fun _ => decodeInput lib) 0 (bjs_ins bjsTx)) as [vin |];
    cbn [bind] in Hdecode; [|discriminate].
  destruct (mapFrom (decodeOutput lib network) 0 (bjs_outs bjsTx)) as [vout |];
    cbn [bind] in Hdecode; [|discriminate].
  injection Hdecode as <-.
  unfold normalizeTransactionObject. cbn [tx_txid confirmations].
  repeat split; destruct (truthyFee fee); NormalizeFacts.lookup_fields; reflexivity.
Qed.

(** The sample transaction, in a block. *)
Lemma normalize_after_decode_witness :
  exists tx,
    decodeRawTransaction DecoderSamples.sampleLib "0200" DecoderSamples.mainnet = Normal tx
    /\ normalizeTransactionObject tx None (Some BitcoinSamples.sampleBlock)
         !! "confirmations" = Some VUndefined.
Proof.
  eexists. split; [reflexivity|].
  destruct (normalize_after_decode DecoderSamples.sampleLib "0200" DecoderSamples.mainnet
              DecoderSamples.sampleBjs _ None BitcoinSamples.sampleBlock eq_refl eq_refl)
    as (_ & _ & Hconf).
  exact Hconf.
Defined.

(** The sample transaction pays 1.5 coins: the decoder divides 150000000
    by one hundred million, the normalizer reads the digits of the
    quotient and multiplies them back. *)
Example normalize_sample_value :
  exists tx,
    decodeRawTransaction DecoderSamples.sampleLib "0200" DecoderSamples.mainnet = Normal tx
    /\ normalizeTransactionObject tx None None !! "value"
       = Some (VNumber (Num (Qc_of_Z 150000000))).
Proof.
  eexists. split; [reflexivity|].
  unfold normalizeTransactionObject. cbn [truthyFee]. NormalizeFacts.lookup_fields.
  do 2 f_equal. vm_compute.
  f_equal. apply Qc_is_canon. reflexivity.
Qed.

End DecoderProps.

(* ===================================================================== *)
(** ** getAddressNetwork *)
(* ===================================================================== *)

Module NetworkProps.
Import Corelib.Init.Byte Decoder.

Lemma prefix_trans (a b c : string) :
  String.prefix a b = true -> String.prefix b c = true -> String.prefix a c = true.
Proof.
  revert b c. induction a as [| x a IH]; intros b c Hab Hbc; [destruct c; reflexivity|].
  destruct b as [| y b]; [discriminate Hab|].
  destruct c as [| z c]; [discriminate Hbc|].
  cbn [String.prefix] in *.
  destruct (Ascii.ascii_dec x y) as [-> |]; [|discriminate Hab].
  destruct (Ascii.ascii_dec y z) as [-> |]; [|discriminate Hbc].
  eapply IH; eassumption.
Qed.

Lemma find_first {A} (p : A -> bool) (before after : list A) (x : A) :
  Forall (fun y => p y = false) before -> p x = true ->
  List.find p (before ++ x :: after) = Some x.
Proof.
  intros Hbefore Hx. induction Hbefore as [| y before Hy _ IH]; cbn [app List.find].
  - rewrite Hx. reflexivity.
  - rewrite Hy. exact IH.
Qed.

Lemma find_none {A} (p : A -> bool) (l : list A) :
  Forall (fun y => p y = false) l -> List.find p l = None.
Proof.
  induction 1 as [| y l Hy _ IH]; cbn [List.find]; [reflexivity|].
  rewrite Hy. exact IH.
Qed.

Lemma property_first (networks before after : Networks) (key : string) (network : Network) :
  networks = before ++ (key, network) :: after ->
  key ∉ map fst before ->
  property networks (Some key) = Some network.
Proof.
  intros -> Hfresh. unfold property. cbn [default].
  rewrite (find_first _ before after (key, network)).
  - reflexivity.
  - apply Forall_forall. intros [k n] Hin. cbn [fst].
    apply String.eqb_neq. intros ->. apply Hfresh.
    apply list_elem_of_fmap. exists (key, n). auto.
  - cbn [fst]. apply String.eqb_refl.
Qed.

(** The entry that the bech32 test selects, when there is one. *)
Lemma bech32_match b58 (networks before after : Networks) (address key : string)
    (network : Network) :
  networks = before ++ (key, network) :: after ->
  String.prefix (bech32 network) address = true ->
  Forall (fun entry => String.prefix (bech32 (snd entry)) address = false) before ->
  key <> "" ->
  key ∉ map fst before ->
  getAddressNetwork b58 networks address = Normal (Some network).
Proof.
  intros Hnet Hprefix Hbefore Hkey Hfresh.
  assert (findKey networks (fun network => String.prefix (bech32 network) address)
          = Some key) as Hfind.
  { unfold findKey. rewrite Hnet.
    rewrite (find_first (fun entry => String.prefix (bech32 (snd entry)) address)
               before after (key, network) Hbefore Hprefix).
    reflexivity. }
  unfold getAddressNetwork. rewrite Hfind. cbn [isFalsyKey].
  apply String.eqb_neq in Hkey. rewrite Hkey. cbn [bind].
  rewrite (property_first networks before after key network Hnet Hfresh). reflexivity.
Qed.

(** X24. The first network, in the order of the table, whose bech32
    prefix starts the address is returned, provided its key is not empty;
    the base58 helpers are not consulted, so this holds also for an
    address they would reject. *)
Theorem first_bech32_prefix_wins
    (b58 : Base58) (networks before after : Networks) (address key : string)
    (network : Network) :
  networks = before ++ (key, network) :: after ->
  String.prefix (bech32 network) address = true ->
  Forall (fun entry => String.prefix (bech32 (snd entry)) address = false) before ->
  key <> "" ->
  key ∉ map fst before ->
  getAddressNetwork b58 networks address = Normal (Some network).
Proof.
  intros Hnet Hprefix Hbefore Hkey Hfresh.
  assert (findKey networks (fun network => String.prefix (bech32 network) address)
          = Some key) as Hfind.
  { unfold findKey. rewrite Hnet.
    rewrite (find_first (fun entry => String.prefix (bech32 (snd entry)) address)
               before after (key, network) Hbefore Hprefix).
    reflexivity. }
  unfold getAddressNetwork. rewrite Hfind. cbn [isFalsyKey].
  apply String.eqb_neq in Hkey. rewrite Hkey. cbn [bind].
  rewrite (property_first networks before after key network Hnet Hfresh). reflexivity.
Qed.

(** A test-network address in the sample table. *)
Lemma first_bech32_prefix_wins_witness :
  getAddressNetwork DecoderSamples.sampleBase58 DecoderSamples.sampleNetworks "tb1qw508d6"
  = Normal (Some DecoderSamples.testnet).
Proof.
  apply (first_bech32_prefix_wins DecoderSamples.sampleBase58 DecoderSamples.sampleNetworks
           [("bitcoin", DecoderSamples.mainnet)]
           [("bitcoin_regtest", DecoderSamples.regtest)]
           "tb1qw508d6" "bitcoin_testnet" DecoderSamples.testnet).
  - reflexivity.
  - reflexivity.
  - repeat constructor.
  - discriminate.
  - apply (bool_decide_unpack _). vm_compute. reflexivity.
Defined.

(** X25. A network whose bech32 prefix extends the prefix of a network
    listed before it is never found through its bech32 prefix: for every
    address starting with the longer prefix, the network returned is one
    listed no later than the network with the shorter prefix.  (Keys are
    pairwise different and not empty.) *)
Theorem longer_bech32_prefix_is_shadowed
    (b58 : Base58) (networks before after : Networks) (address : string)
    (key1 : string) (network1 : Network) (key2 : string) (network2 : Network) :
  networks = before ++ (key1, network1) :: after ->
  (key2, network2) ∈ after ->
  String.prefix (bech32 network1) (bech32 network2) = true ->
  String.prefix (bech32 network2) address = true ->
  NoDup (map fst networks) ->
  Forall (fun entry => fst entry <> "") networks ->
  exists i key network,
    (i <= length before)%nat
    /\ networks !! i = Some (key, network)
    /\ getAddressNetwork b58 networks address = Normal (Some network).
Proof.
  intros Hnet Hin H12 H2 Hnodup Hkeys.
  assert (String.prefix (bech32 network1) address = true) as H1
      by (eapply prefix_trans; eassumption).
  assert (exists first rest key network,
             before ++ [(key1, network1)] = first ++ (key, network) :: rest
             /\ String.prefix (bech32 network) address = true
             /\ Forall (fun entry => String.prefix (bech32 (snd entry)) address = false)
                       first) as (first & rest & key & network & Hsplit & Hp & Hfirst).
  { clear Hnet Hnodup Hkeys Hin.
    induction before as [| [k n] before IH].
    - exists [], [], key1, network1. repeat split; [exact H1 | constructor].
    - destruct (String.prefix (bech32 n) address) eqn:Hn.
      + exists [], (before ++ [(key1, network1)]), k, n.
        repeat split; [exact Hn | constructor].
      + destruct IH as (first & rest & key & network & Hsplit & Hp & Hfirst).
        exists ((k, n) :: first), rest, key, network. cbn [app]. rewrite Hsplit.
        repeat split; [exact Hp | constructor; [exact Hn | exact Hfirst]]. }
  assert (networks = first ++ (key, network) :: (rest ++ after)) as Hnet'.
  { rewrite Hnet. change ((key1, network1) :: after) with ([(key1, network1)] ++ after).
    rewrite app_assoc, Hsplit, <- app_assoc. reflexivity. }
  exists (length first), key, network. split; [|split].
  - apply (f_equal length) in Hsplit. rewrite !length_app in Hsplit.
    cbn [length] in Hsplit. lia.
  - rewrite Hnet'. apply list_lookup_middle. reflexivity.
  - apply (bech32_match b58 networks first (rest ++ after) address key network Hnet' Hp Hfirst).
    + rewrite Forall_forall in Hkeys. apply (Hkeys (key, network)).
      rewrite Hnet'. apply elem_of_app. right. apply list_elem_of_here.
    + rewrite Hnet', map_app in Hnodup. apply NoDup_app in Hnodup as (_ & Hdisj & _).
      intros Hk. apply (Hdisj key Hk). cbn [map fst]. apply list_elem_of_here.
Qed.

(** In the sample table the main network, with prefix [bc], precedes the
    regression-test network, with prefix [bcrt]. *)
Lemma longer_bech32_prefix_is_shadowed_witness :
  exists i key network,
    (i <= 0)%nat
    /\ DecoderSamples.sampleNetworks !! i = Some (key, network)
    /\ getAddressNetwork DecoderSamples.sampleBase58 DecoderSamples.sampleNetworks
         "bcrt1qw508d6" = Normal (Some network).
Proof.
  apply (longer_bech32_prefix_is_shadowed DecoderSamples.sampleBase58
           DecoderSamples.sampleNetworks []
           [("bitcoin_testnet", DecoderSamples.testnet);
            ("bitcoin_regtest", DecoderSamples.regtest)]
           "bcrt1qw508d6" "bitcoin" DecoderSamples.mainnet
           "bitcoin_regtest" DecoderSamples.regtest).
  - reflexivity.
  - apply list_elem_of_further, list_elem_of_here.
  - reflexivity.
  - reflexivity.
  - apply (bool_decide_unpack _). vm_compute. reflexivity.
  - repeat constructor; discriminate.
Defined.

(** X26. An address that starts with no bech32 prefix of the table goes
    to the base58 helpers: when decoding fails, the failure is the result
    of the call; when the decoded version byte belongs to no network, the
    result is [undefined] (for a table with no key of that name). *)
Theorem address_of_no_network
    (b58 : Base58) (networks : Networks) (address : string) :
  Forall (fun entry => String.prefix (bech32 (snd entry)) address = false) networks ->
  (forall e,
      base58_decode b58 address = Throw e ->
      getAddressNetwork b58 networks address = Throw e)
  /\ (forall decoded,
        base58_decode b58 address = Normal decoded ->
        Forall (fun entry =>
                  padHexStart b58 (toString16 b58 (pubKeyHash (snd entry))) 1
                  <> String.substring 0 2 (decodedToHex b58 decoded)
                  /\ padHexStart b58 (toString16 b58 (scriptHash (snd entry))) 1
                     <> String.substring 0 2 (decodedToHex b58 decoded)) networks ->
        "undefined" ∉ map fst networks ->
        getAddressNetwork b58 networks address = Normal None).
Proof.
  intros Hnone.
  assert (findKey networks (fun network => String.prefix (bech32 network) address)
          = None) as Hfind.
  { unfold findKey. rewrite (find_none _ networks Hnone). reflexivity. }
  unfold getAddressNetwork. rewrite Hfind. cbn [isFalsyKey].
  split.
  - intros e ->. reflexivity.
  - intros decoded -> Hversions Hundefined. cbn [bind]. unfold findKey.
    rewrite find_none.
    + cbn [fmap option_fmap option_map bind]. unfold property. cbn [default].
      rewrite find_none; [reflexivity|].
      apply Forall_forall. intros [k n] Hin. cbn [fst].
      apply String.eqb_neq. intros ->. apply Hundefined.
      apply list_elem_of_fmap. exists ("undefined", n). auto.
    + eapply Forall_impl; [exact Hversions|]. cbn beta.
      intros entry [Hp Hs]. apply orb_false_iff.
      split; apply String.eqb_neq; assumption.
Qed.

(** The empty address, which the sample helpers reject. *)
Lemma address_of_no_network_witness :
  getAddressNetwork DecoderSamples.sampleBase58 DecoderSamples.sampleNetworks ""
  = Throw (OtherError "Error: Invalid checksum").
Proof.
  apply (proj1 (address_of_no_network DecoderSamples.sampleBase58
                  DecoderSamples.sampleNetworks "" ltac:(repeat constructor))).
  reflexivity.
Defined.

End NetworkProps.

(* ===================================================================== *)
(** ** SolanaWalletProvider: addresses and signer *)
(* ===================================================================== *)

Module WalletProps.
Import Corelib.Init.Byte.
Import Solana Wallet.

Section WithProvider.
Variable libs : Libs.
Variable this : Options.

Lemma setSigner_Normal (s s' : State) (account : Keypair) :
  setSigner libs this s = (Normal account, s') ->
  derives libs this account
  /\ s' = {| _addressCache := _addressCache s; _signer := Some account |}.
Proof.
  unfold setSigner, _mnemonicToSeed, derives.
  destruct (validateMnemonic libs (_mnemonic this)); [|discriminate].
  destruct (mnemonicToSeedHex libs (_mnemonic this)) as [seed | e]; [|discriminate].
  destruct (keypairFromSeed libs (_derivationPath this) seed) as [k | e] eqn:Hk;
    [|discriminate].
  intros [= <- <-]. eauto.
Qed.

Lemma setSigner_Throw (s s' : State) (e : Error) :
  setSigner libs this s = (Throw e, s') -> s' = s.
Proof.
  unfold setSigner.
  destruct (_mnemonicToSeed libs (_mnemonic this)) as [seed | e']; [|congruence].
  destruct (keypairFromSeed libs (_derivationPath this) seed); congruence.
Qed.

Lemma setSigner_consistent (s : State) :
  consistent libs this s -> consistent libs this (snd (setSigner libs this s)).
Proof.
  intros [Hsigner Hcache].
  destruct (setSigner libs this s) as [[account | e] s'] eqn:Hset; cbn [snd].
  - apply setSigner_Normal in Hset as [Hderives ->]. split; cbn.
    + intros k [= <-]. exact Hderives.
    + intros key cached Hlookup. destruct (Hcache _ _ Hlookup) as (-> & old & Hold & ->).
      split; [reflexivity|]. exists account. split; [reflexivity|].
      destruct (Hsigner _ Hold) as (_ & seed & Hseed & Hk).
      destruct Hderives as (_ & seed' & Hseed' & Hk').
      congruence.
  - apply setSigner_Throw in Hset as ->. split; assumption.
Qed.

Lemma getAddresses_consistent (s : State) :
  consistent libs this s -> consistent libs this (snd (getAddresses libs this s)).
Proof.
  intros Hs. unfold getAddresses.
  destruct (cacheRead (_addressCache s) (_mnemonic this)) as [cached|] eqn:Hhit;
    [exact Hs|].
  pose proof (setSigner_consistent s Hs) as Hs'.
  destruct (setSigner libs this s) as [[account | e] s'] eqn:Hset; cbn [snd] in *;
    [|exact Hs'].
  apply setSigner_Normal in Hset as [_ ->]. destruct Hs' as [Hsigner Hcache].
  split; cbn in *.
  - exact Hsigner.
  - intros key cached Hlookup.
    destruct (decide (key = _mnemonic this)) as [-> | Hne].
    + rewrite lookup_insert_eq in Hlookup. injection Hlookup as <-. eauto.
    + rewrite lookup_insert_ne in Hlookup by congruence.
      destruct (Hcache _ _ Hlookup) as [Hkey _]. contradiction.
Qed.

Lemma after_consistent (s : State) (c : Invocation) :
  consistent libs this s -> consistent libs this (after libs this s c).
Proof.
  intros Hs. destruct c; cbn [after].
  - apply getAddresses_consistent, Hs.
  - unfold isWalletAvailable. pose proof (getAddresses_consistent s Hs) as H.
    destruct (getAddresses libs this s) as [[? | ?] ?]; exact H.
  - unfold getUnusedAddress. pose proof (getAddresses_consistent s Hs) as H.
    destruct (getAddresses libs this s) as [[? | ?] ?]; exact H.
  - apply getAddresses_consistent, Hs.
  - unfold getSigner. destruct (_signer s); [exact Hs|].
    pose proof (setSigner_consistent s Hs) as H.
    destruct (setSigner libs this s) as [[? | ?] ?]; exact H.
  - apply setSigner_consistent, Hs.
  - unfold signMessage. destruct (_signer s); exact Hs.
Qed.

Lemma initial_consistent : consistent libs this initial.
Proof.
  split; cbn.
  - discriminate.
  - intros key cached Hlookup. rewrite lookup_empty in Hlookup. discriminate.
Qed.

Lemma reachable_consistent (calls : list Invocation) :
  consistent libs this (foldl (after libs this) initial calls).
Proof.
  induction calls as [| c calls IH] using rev_ind; [apply initial_consistent|].
  rewrite foldl_app. cbn [foldl]. apply after_consistent, IH.
Qed.

Lemma getAddresses_Normal (s s' : State) (addresses : list Cached) :
  getAddresses libs this s = (Normal addresses, s') ->
  exists a, addresses = [a] /\ cacheRead (_addressCache s') (_mnemonic this) = Some a.
Proof.
  unfold getAddresses.
  destruct (cacheRead (_addressCache s) (_mnemonic this)) as [cached|] eqn:Hhit.
  - intros [= <- <-]. eauto.
  - destruct (setSigner libs this s) as [[account | e] s1]; [|discriminate].
    intros [= <- <-]. eexists. split; [reflexivity|]. cbn [_addressCache].
    unfold cacheRead. rewrite lookup_insert_eq. reflexivity.
Qed.

Lemma cacheRead_own (cache : gmap string Address) (key : string) (c : Cached) :
  isInherited key = false ->
  cacheRead cache key = Some c ->
  exists a, c = CachedAddress a /\ cache !! key = Some a.
Proof.
  intros Hkey. unfold cacheRead. rewrite Hkey.
  destruct (cache !! key) as [a|]; [|discriminate]. intros [= <-]. eauto.
Qed.
End WithProvider.

(** X27. With a mnemonic that [validateMnemonic] rejects, nothing can be
    derived: [setSigner] fails with [Invalid seed words], and so do
    [getSigner] while no signer is set and [getAddresses],
    [isWalletAvailable] and [getUnusedAddress] while the cache reads
    [undefined] under the mnemonic; each leaves the provider as it was.
    The cache does not read [undefined] under a name that every object
    has a property for: with such a mnemonic and nothing stored,
    [getAddresses] derives nothing, does not fail, and returns that
    property in place of an address. *)
Theorem invalid_mnemonic_is_rejected (libs : Libs) (this : Options) (s : State) :
  validateMnemonic libs (_mnemonic this) = false ->
  setSigner libs this s = (Throw (OtherError "Invalid seed words"), s)
  /\ (_signer s = None ->
      getSigner libs this s = (Throw (OtherError "Invalid seed words"), s))
  /\ (cacheRead (_addressCache s) (_mnemonic this) = None ->
      getAddresses libs this s = (Throw (OtherError "Invalid seed words"), s)
      /\ isWalletAvailable libs this s = (Throw (OtherError "Invalid seed words"), s)
      /\ getUnusedAddress libs this s = (Throw (OtherError "Invalid seed words"), s))
  /\ (_addressCache s !! _mnemonic this = None ->
      isInherited (_mnemonic this) = true ->
      getAddresses libs this s = (Normal [InheritedProperty (_mnemonic this)], s)
      /\ isWalletAvailable libs this s = (Normal true, s)).
Proof.
  intros Hbad.
  assert (setSigner libs this s = (Throw (OtherError "Invalid seed words"), s)) as Hset.
  { unfold setSigner, _mnemonicToSeed. rewrite Hbad. reflexivity. }
  split; [exact Hset|]. split; [|split].
  - intros Hnone. unfold getSigner. rewrite Hnone, Hset. reflexivity.
  - intros Hmiss.
    assert (getAddresses libs this s = (Throw (OtherError "Invalid seed words"), s)) as Hget.
    { unfold getAddresses. rewrite Hmiss, Hset. reflexivity. }
    unfold isWalletAvailable, getUnusedAddress. rewrite Hget. auto.
  - intros Hown Hinherited.
    assert (getAddresses libs this s = (Normal [InheritedProperty (_mnemonic this)], s))
      as Hget.
    { unfold getAddresses, cacheRead. rewrite Hown, Hinherited. reflexivity. }
    unfold isWalletAvailable. rewrite Hget. auto.
Qed.

(** A provider built with words that are no mnemonic, and one built with
    the word [constructor]. *)
Lemma invalid_mnemonic_is_rejected_witness :
  getAddresses WalletSamples.sampleLibs WalletSamples.badOptions initial
  = (Throw (OtherError "Invalid seed words"), initial)
  /\ getAddresses WalletSamples.sampleLibs WalletSamples.inheritedOptions initial
     = (Normal [InheritedProperty "constructor"], initial).
Proof.
  split.
  - apply (invalid_mnemonic_is_rejected WalletSamples.sampleLibs WalletSamples.badOptions
             initial eq_refl).
    reflexivity.
  - apply (invalid_mnemonic_is_rejected WalletSamples.sampleLibs
             WalletSamples.inheritedOptions initial eq_refl); reflexivity.
Defined.

(** X28. [getAddresses] returns exactly one element, and once it has
    returned, that element is what the cache reads under the mnemonic:
    every later call returns the same element and changes nothing,
    whatever the derivation packages would answer by then;
    [isWalletAvailable] is then true and [getUnusedAddress] is that
    element. *)
Theorem addresses_are_cached
    (libs : Libs) (this : Options) (s s' : State) (addresses : list Cached) :
  getAddresses libs this s = (Normal addresses, s') ->
  exists a,
    addresses = [a]
    /\ forall libs',
         getAddresses libs' this s' = (Normal [a], s')
         /\ isWalletAvailable libs' this s' = (Normal true, s')
         /\ getUnusedAddress libs' this s' = (Normal (Some a), s').
Proof.
  intros Hget. destruct (getAddresses_Normal _ _ _ _ _ Hget) as (a & -> & Hcached).
  exists a. split; [reflexivity|]. intros libs'.
  assert (getAddresses libs' this s' = (Normal [a], s')) as Hagain.
  { unfold getAddresses. rewrite Hcached. reflexivity. }
  unfold isWalletAvailable, getUnusedAddress. rewrite Hagain. auto.
Qed.

(** The first call on a fresh sample provider, then packages that fail. *)
Lemma addresses_are_cached_witness :
  exists a s',
    getAddresses WalletSamples.sampleLibs WalletSamples.goodOptions initial
    = (Normal [a], s')
    /\ getAddresses
         {| validateMnemonic := fun _ => false;
            mnemonicToSeedHex := fun _ => Throw (OtherError "gone");
            keypairFromSeed := fun _ _ => Throw (OtherError "gone");
            signDetached := fun _ _ _ => Throw (OtherError "gone") |}
         WalletSamples.goodOptions s' = (Normal [a], s').
Proof.
  destruct (getAddresses WalletSamples.sampleLibs WalletSamples.goodOptions initial)
    as [r s'] eqn:Hget.
  assert (exists addresses, r = Normal addresses) as [addresses ->].
  { vm_compute in Hget. injection Hget as <- _. eauto. }
  destruct (addresses_are_cached _ _ _ _ _ Hget) as (a & -> & Hlater).
  exists a, s'. split; [reflexivity|]. apply Hlater.
Defined.

(** X29. [isWalletAvailable] never answers false: it answers true or it
    fails. *)
Theorem isWalletAvailable_never_false
    (libs : Libs) (this : Options) (s s' : State) :
  isWalletAvailable libs this s <> (Normal false, s').
Proof.
  unfold isWalletAvailable.
  destruct (getAddresses libs this s) as [[addresses | e] s1] eqn:Hget; [|discriminate].
  destruct (getAddresses_Normal _ _ _ _ _ Hget) as (a & -> & _). discriminate.
Qed.

(** A fresh sample provider. *)
Lemma isWalletAvailable_never_false_witness :
  isWalletAvailable WalletSamples.sampleLibs WalletSamples.goodOptions initial
  <> (Normal false, initial).
Proof.
  apply (isWalletAvailable_never_false WalletSamples.sampleLibs WalletSamples.goodOptions
           initial initial).
Defined.

(** X30. With a mnemonic that is no name of a property every object has:
    after any sequence of calls on a fresh provider, what [getAddresses]
    returns is one address, the public key of the signer the provider
    then holds, with the derivation path of the provider, and that signer
    is the key pair derived from the mnemonic. *)
Theorem address_is_public_key_of_signer
    (libs : Libs) (this : Options) (calls : list Invocation)
    (addresses : list Cached) (s' : State) :
  isInherited (_mnemonic this) = false ->
  getAddresses libs this (foldl (after libs this) initial calls) = (Normal addresses, s') ->
  exists account,
    _signer s' = Some account
    /\ addresses = [ CachedAddress {| address := publicKey account;
                                      derivationPath := _derivationPath this |} ]
    /\ derives libs this account.
Proof.
  intros Hname Hget.
  pose proof (getAddresses_consistent libs this _ (reachable_consistent libs this calls))
    as Hcons.
  rewrite Hget in Hcons. cbn [snd] in Hcons. destruct Hcons as [Hsigner Hcache].
  destruct (getAddresses_Normal _ _ _ _ _ Hget) as (c & -> & Hcached).
  destruct (cacheRead_own _ _ _ Hname Hcached) as (a & -> & Hown).
  destruct (Hcache _ _ Hown) as (_ & account & Haccount & ->).
  exists account. auto.
Qed.

(** A signer request, then the addresses, on the sample provider. *)
Lemma address_is_public_key_of_signer_witness :
  exists account s',
    snd (getAddresses WalletSamples.sampleLibs WalletSamples.goodOptions
           (foldl (after WalletSamples.sampleLibs WalletSamples.goodOptions) initial
                  [CallGetSigner])) = s'
    /\ _signer s' = Some account
    /\ publicKey account = "Pub5eedabandon ability able".
Proof.
  destruct (getAddresses WalletSamples.sampleLibs WalletSamples.goodOptions
              (foldl (after WalletSamples.sampleLibs WalletSamples.goodOptions) initial
                     [CallGetSigner])) as [r s'] eqn:Hget.
  assert (exists addresses, r = Normal addresses) as [addresses ->].
  { vm_compute in Hget. injection Hget as <- _. eauto. }
  destruct (address_is_public_key_of_signer WalletSamples.sampleLibs
              WalletSamples.goodOptions [CallGetSigner] addresses s' eq_refl Hget)
    as (account & Hsigner & _ & _ & seed & Hseed & Hkey).
  exists account, s'. split; [reflexivity|]. split; [exact Hsigner|].
  injection Hseed as <-. injection Hkey as <-. reflexivity.
Defined.

End WalletProps.
